(** * Recording engine of the TikTok live recorder: model and properties

    A shallow embedding of the Python sources
    - [utils/config_manager.py]      (module [ConfigManager]),
    - [utils/resolution_detector.py] (module [ResolutionDetector]),
    - [core/tiktok_recorder.py]      (module [TikTokRecorder]),
    - [core/multi_stream_recorder.py] (module [MultiStreamRecorder]).

    Calls into the platform client, the clock, the file system and the
    probing binary are answered by explicit scripts; everything the code
    does to the outside world is recorded as a trace of events. *)

From Stdlib Require Import ZArith QArith String Ascii List Bool Lia.
From Stdlib Require Import DecimalString DecimalNat Init.Byte Strings.Byte.
From stdpp Require Import base option list gmap strings.

Local Open Scope Z_scope.
Local Open Scope stdpp_scope.
Set Warnings "-register-all,-clear-no-such-hyp,-level-tolerance".

(** ** Python values that reach the engine *)

#[global] Instance byte_eq_dec : EqDecision byte := Byte.byte_eq_dec.

(** Values stored in the settings file (what [json.load] yields for the
    leaves of the settings dictionaries). *)
Inductive value : Type :=
| VNone
| VBool (b : bool)
| VInt (n : Z)
| VStr (s : string).

#[global] Instance value_eq_dec : EqDecision value.
Proof. solve_decision. Defined.

(** Python truth value of a setting, as used by [if ...:]. *)
Definition truthy (v : value) : bool :=
  match v with
  | VNone => false
  | VBool b => b
  | VInt n => negb (n =? 0)
  | VStr s => negb (String.eqb s EmptyString)
  end.

(** [if user:] for an optional string: [None] and the empty string are false. *)
Definition str_truthy (o : option string) : bool :=
  match o with
  | None => false
  | Some s => negb (String.eqb s EmptyString)
  end.

(** ** utils/config_manager.py *)
Module ConfigManager.

(** The settings dictionary: the three top-level keys may each be absent
    (the code reads them with [.get(key, {})]). *)
Record config : Type := Config {
  c_default : option (gmap string value);
  c_users : option (gmap string (gmap string value));
  c_rooms : option (gmap string (gmap string value))
}.

Definition default_settings : gmap string value :=
  {[ "restart_on_resolution_change" := VBool false;
     "resolution_check_interval" := VInt 5 ]}.

Definition default_config : config :=
  {| c_default := Some default_settings; c_users := Some ∅; c_rooms := Some ∅ |}.

(** What is on disk when a [ConfigManager] is constructed. *)
Inductive config_file : Type :=
| Missing
| Unreadable
| Stored (c : config).

(** [_load_config]: the loaded dictionary and the file afterwards (a
    missing file is created with the default contents). *)
Definition _load_config (f : config_file) : config * config_file :=
  match f with
  | Stored c => (c, Stored c)
  | Missing => (default_config, Stored default_config)
  | Unreadable => (default_config, Unreadable)
  end.

Definition get_user_setting (c : config) (user setting : string)
    (default_value : value) : value :=
  let user_config := default ∅ (default ∅ (c_users c) !! user) in
  match user_config !! setting with
  | Some v => v
  | None => default default_value (default ∅ (c_default c) !! setting)
  end.

Definition get_room_setting (c : config) (room_id setting : string)
    (default_value : value) : value :=
  let room_config := default ∅ (default ∅ (c_rooms c) !! room_id) in
  match room_config !! setting with
  | Some v => v
  | None => default default_value (default ∅ (c_default c) !! setting)
  end.

(** The shape shared by [should_restart_on_resolution_change] and
    [get_resolution_check_interval]:
    [if user: ... elif room_id: ... else: ...]. *)
Definition lookup_setting (c : config) (user room_id : option string)
    (setting : string) (default_value : value) : value :=
  if str_truthy user then
    get_user_setting c (default EmptyString user) setting default_value
  else if str_truthy room_id then
    get_room_setting c (default EmptyString room_id) setting default_value
  else
    default default_value (default ∅ (c_default c) !! setting).

Definition should_restart_on_resolution_change (c : config)
    (user room_id : option string) : value :=
  lookup_setting c user room_id "restart_on_resolution_change" (VBool false).

Definition get_resolution_check_interval (c : config)
    (user room_id : option string) : value :=
  lookup_setting c user room_id "resolution_check_interval" (VInt 5).

(** *** The resolution order in the words of the specification

    "per-user override when one exists, otherwise the per-room override,
    otherwise the global default". *)
Definition user_override (c : config) (user : option string)
    (setting : string) : option value :=
  u ← user; us ← c_users c; m ← us !! u; m !! setting.

Definition room_override (c : config) (room_id : option string)
    (setting : string) : option value :=
  r ← room_id; rs ← c_rooms c; m ← rs !! r; m !! setting.

Definition global_default (c : config) (setting : string)
    (default_value : value) : value :=
  default default_value (d ← c_default c; d !! setting).

Definition spec_lookup (c : config) (user room_id : option string)
    (setting : string) (default_value : value) : value :=
  match user_override c user setting with
  | Some v => v
  | None =>
      match room_override c room_id setting with
      | Some v => v
      | None => global_default c setting default_value
      end
  end.

End ConfigManager.

(** ** Exceptions and fallible results *)

(** The exception classes the modelled code raises or catches by name.
    [KeyboardInterrupt] is the only one that is not an [Exception]. *)
Inductive exn : Type :=
| AttributeError
| TypeError
| KeyError
| ValueError
| JSONDecodeError
| OSError
| TimeoutExpired
| ConnectionError
| RequestException
| HTTPException
| KeyboardInterrupt
| UserLiveException
| LiveNotFound
| OtherException.

#[global] Instance exn_eq_dec : EqDecision exn.
Proof. solve_decision. Defined.

(** [except Exception] catches everything but [KeyboardInterrupt]. *)
Definition is_Exception (e : exn) : bool :=
  match e with KeyboardInterrupt => false | _ => true end.

Inductive result (A : Type) : Type :=
| Ok (a : A)
| Raise (e : exn).
Arguments Ok {A} a.
Arguments Raise {A} e.

#[global] Instance result_ret : MRet result := fun _ a => Ok a.
#[global] Instance result_bind : MBind result := fun _ _ f m =>
  match m with
  | Ok a => f a
  | Raise e => Raise e
  end.


(** ** utils/resolution_detector.py *)
Module ResolutionDetector.

(** A Python float as far as [bool()] and [int()] see it. *)
Inductive pyfloat : Type :=
| Finite (q : Q)
| NotFinite.

(** What [json.loads] returns. A dictionary is kept as its list of items. *)
Inductive json : Type :=
| JNull
| JBool (b : bool)
| JInt (n : Z)
| JFloat (f : pyfloat)
| JStr (s : string)
| JList (l : list json)
| JDict (d : list (string * json)).

Definition resolution : Type := Z * Z.

(** The three ways [subprocess.run(cmd, ..., timeout=10)] can end; the
    standard output is given as [json.loads] reads it ([None] when
    [json.loads] raises). *)
Inductive proc_outcome : Type :=
| TimedOut
| SpawnError
| Completed (returncode : Z) (stdout : option json).

Definition json_truthy (v : json) : bool :=
  match v with
  | JNull => false
  | JBool b => b
  | JInt n => negb (n =? 0)
  | JFloat (Finite q) => negb (Qnum q =? 0)
  | JFloat NotFinite => true
  | JStr s => negb (String.eqb s EmptyString)
  | JList l => match l with [] => false | _ => true end
  | JDict d => match d with [] => false | _ => true end
  end.

Fixpoint dict_lookup (k : string) (d : list (string * json)) : option json :=
  match d with
  | [] => None
  | (k', v) :: d' => if String.eqb k k' then Some v else dict_lookup k d'
  end.

(** [v.get(k, dflt)]: only dictionaries have the method. *)
Definition py_get (v : json) (k : string) (dflt : json) : result json :=
  match v with
  | JDict d => Ok (default dflt (dict_lookup k d))
  | _ => Raise AttributeError
  end.

(** [len(v)] *)
Definition py_len (v : json) : result Z :=
  match v with
  | JStr s => Ok (Z.of_nat (String.length s))
  | JList l => Ok (Z.of_nat (length l))
  | JDict d => Ok (Z.of_nat (length d))
  | _ => Raise TypeError
  end.

(** [v[0]] for a value that is truthy and has a positive length. *)
Definition py_index0 (v : json) : result json :=
  match v with
  | JList (x :: _) => Ok x
  | JStr (String c _) => Ok (JStr (String c EmptyString))
  | JDict _ => Raise KeyError
  | _ => Raise TypeError
  end.

Section Probe.

(** [int(s)] on a string is Python's own parser; it is a parameter. *)
Variable int_of_str : string → option Z.

(** [int(v)] *)
Definition py_int (v : json) : result Z :=
  match v with
  | JInt n => Ok n
  | JBool b => Ok (if b then 1 else 0)
  | JFloat (Finite q) => Ok (Z.quot (Qnum q) (Z.pos (Qden q)))
  | JFloat NotFinite => Raise ValueError
  | JStr s =>
      match int_of_str s with
      | Some n => Ok n
      | None => Raise ValueError
      end
  | JNull | JList _ | JDict _ => Raise TypeError
  end.

(** The [try] block of [get_current_resolution]. *)
Definition probe_body (o : proc_outcome) : result (option resolution) :=
  match o with
  | TimedOut => Raise TimeoutExpired
  | SpawnError => Raise OSError
  | Completed returncode stdout =>
      if returncode =? 0 then
        data ← match stdout with
               | Some j => Ok j
               | None => Raise JSONDecodeError
               end;
        streams ← py_get data "streams" (JList []);
        nonempty ← (if json_truthy streams
                    then n ← py_len streams; Ok (0 <? n)
                    else Ok false);
        if nonempty : bool then
          stream ← py_index0 streams;
          width ← py_get stream "width" JNull;
          height ← py_get stream "height" JNull;
          if json_truthy width && json_truthy height then
            w ← py_int width;
            h ← py_int height;
            Ok (Some (w, h))
          else Ok None
        else Ok None
      else Ok None
  end.

(** [get_current_resolution]: the handlers for
    [subprocess.TimeoutExpired] and for [Exception] both return
    [None]; anything else would leave the function. *)
Definition get_current_resolution (o : proc_outcome)
    : result (option resolution) :=
  match probe_body o with
  | Ok r => Ok r
  | Raise e => if is_Exception e then Ok None else Raise e
  end.

(** *** The monitoring loop *)

(** The detector object. The registered callback is the engine's
    [on_resolution_change]; its invocations are logged in [calls]
    (most recent last). *)
Record detector : Type := Detector {
  stream_url : string;
  check_interval : value;
  current_resolution : option resolution;
  is_monitoring : bool;
  stop_event : bool;
  calls : list (resolution * resolution)
}.

Definition new_detector (url : string) (interval : value) : detector :=
  {| stream_url := url; check_interval := interval;
     current_resolution := None; is_monitoring := false;
     stop_event := false; calls := [] |}.

Definition set_current (d : detector) (r : option resolution) : detector :=
  {| stream_url := stream_url d; check_interval := check_interval d;
     current_resolution := r; is_monitoring := is_monitoring d;
     stop_event := stop_event d; calls := calls d |}.

Definition set_monitoring (d : detector) (b : bool) : detector :=
  {| stream_url := stream_url d; check_interval := check_interval d;
     current_resolution := current_resolution d; is_monitoring := b;
     stop_event := stop_event d; calls := calls d |}.

Definition set_stop_event (d : detector) (b : bool) : detector :=
  {| stream_url := stream_url d; check_interval := check_interval d;
     current_resolution := current_resolution d;
     is_monitoring := is_monitoring d;
     stop_event := b; calls := calls d |}.

Definition fire (d : detector) (old new : resolution) : detector :=
  {| stream_url := stream_url d; check_interval := check_interval d;
     current_resolution := current_resolution d;
     is_monitoring := is_monitoring d;
     stop_event := stop_event d; calls := calls d ++ [(old, new)] |}.

Definition max_consecutive_failures : nat := 3.

(** One pass through the body of [while not self._stop_event.is_set()]
    up to (not including) the wait: the detector, the failure counter,
    and whether the body reached [break] (the last case is the loop's
    own [except Exception: break]). *)
Definition loop_body (d : detector) (consecutive_failures : nat)
    (o : proc_outcome) : detector * nat * bool :=
  match get_current_resolution o with
  | Ok (Some new_resolution) =>
      match current_resolution d with
      | Some old_resolution =>
          if bool_decide (new_resolution ≠ old_resolution) then
            (fire (set_current d (Some new_resolution))
                  old_resolution new_resolution, 0%nat, false)
          else (d, 0%nat, false)
      | None => (set_current d (Some new_resolution), 0%nat, false)
      end
  | Ok None =>
      let consecutive_failures := S consecutive_failures in
      (d, consecutive_failures,
       bool_decide (max_consecutive_failures ≤ consecutive_failures)%nat)
  | Raise _ => (d, consecutive_failures, true)
  end.

(** [_monitor_loop] run against the outcomes of the probes it makes
    while the stop event stays clear; the event is set when the list is
    used up. Returns the detector and the number of probes made. *)
Fixpoint monitor_iterations (probes : list proc_outcome) (d : detector)
    (consecutive_failures : nat) : detector * nat :=
  match probes with
  | [] => (d, 0%nat)
  | o :: probes' =>
      let '(d', n, stop) := loop_body d consecutive_failures o in
      if stop then (d', 1%nat)
      else let '(d'', k) := monitor_iterations probes' d' n in (d'', S k)
  end.

Definition _monitor_loop (probes : list proc_outcome) (d : detector)
    : detector * nat :=
  let '(d', k) := monitor_iterations probes d 0 in
  (set_monitoring d' false, k).

(** [start_monitoring] up to the start of the thread. *)
Definition start_monitoring (d : detector) (initial : proc_outcome)
    : detector :=
  if is_monitoring d then d
  else
    let d := set_stop_event (set_monitoring d true) false in
    match get_current_resolution initial with
    | Ok (Some r) => set_current d (Some r)
    | _ => d
    end.

(** A whole monitoring episode: [start_monitoring], then the thread
    running [_monitor_loop] until the stop event ends it. *)
Definition monitor (d : detector) (initial : proc_outcome)
    (probes : list proc_outcome) : detector * nat :=
  if is_monitoring d then (d, 0%nat)
  else _monitor_loop probes (start_monitoring d initial).

(** The resolutions that a list of probes reports. *)
Definition successes (probes : list proc_outcome) : list resolution :=
  omap (fun o => match get_current_resolution o with
                 | Ok r => r
                 | Raise _ => None
                 end) probes.

(** *** Stopping

    [stop_monitoring] runs in the recording thread while the monitor
    thread is somewhere in [_monitor_loop]. All times are in milliseconds. *)

(** Where the monitor thread is when [stop_monitoring] is called. *)
Inductive thread_phase : Type :=
| Waiting   (** in [self._stop_event.wait(self.check_interval)] *)
| Probing (remaining : Z) (o : proc_outcome) (consecutive_failures : nat)
            (** in [get_current_resolution]; the subprocess ends with
                [o] after [remaining] more milliseconds *)
| Exited.   (** the loop has been left *)

(** What can be observed from the call on. *)
Inductive stop_obs : Type :=
| Returns                               (** [stop_monitoring] returns *)
| Callback (old new : resolution)       (** the callback is invoked *)
| LoopExit.                             (** [_monitor_loop] returns *)

(** [self.monitor_thread.join(timeout=5)] *)
Definition join_timeout : Z := 5000.


(** What the monitor thread still does once the stop event is set: it
    finishes the probe in flight and the rest of that pass through the
    body (the wait returns at once), then leaves at the loop test. *)
Definition thread_rest (d : detector) (ph : thread_phase)
    : detector * list stop_obs :=
  match ph with
  | Exited => (d, [])
  | Waiting => (set_monitoring d false, [LoopExit])
  | Probing _ o n =>
      let '(d', _, _) := loop_body d n o in
      (set_monitoring d' false,
       map (fun c => Callback c.1 c.2) (drop (length (calls d)) (calls d'))
       ++ [LoopExit])
  end.

(** [stop_monitoring]: the detector once everything the call leads to
    has happened, and the observations in the order of time. The join
    gives up when the probe in flight needs [join_timeout] or more. *)
Definition stop_monitoring (d : detector) (ph : thread_phase)
    : detector * list stop_obs :=
  if negb (is_monitoring d) then (d, [Returns])
  else
    let d := set_stop_event (set_monitoring d false) true in
    let '(d', rest) := thread_rest d ph in
    match ph with
    | Probing remaining _ _ =>
        if remaining <? join_timeout then (d', rest ++ [Returns])
        else (d', Returns :: rest)
    | _ => (d', rest ++ [Returns])
    end.



End Probe.

(** *** The callback protocol in the words of the specification

    "On success: if the baseline exists and differs from the new sample,
    fire the callback exactly once with (old, new) and update the
    baseline; if no baseline exists yet, adopt the sample as baseline
    without firing." *)
Fixpoint spec_calls (baseline : option resolution) (samples : list resolution)
    : list (resolution * resolution) :=
  match samples with
  | [] => []
  | new :: samples' =>
      match baseline with
      | None => spec_calls (Some new) samples'
      | Some old =>
          if bool_decide (old = new) then spec_calls (Some old) samples'
          else (old, new) :: spec_calls (Some new) samples'
      end
  end.

Fixpoint spec_baseline (baseline : option resolution) (samples : list resolution)
    : option resolution :=
  match samples with
  | [] => baseline
  | new :: samples' => spec_baseline (Some new) samples'
  end.

(** What ffprobe prints for a video stream of the given size. *)
Definition ffprobe_json (w h : Z) : json :=
  JDict [("programs", JList []);
         ("streams", JList [JDict [("width", JInt w); ("height", JInt h)]])].

Definition probe_ok (w h : Z) : proc_outcome :=
  Completed 0 (Some (ffprobe_json w h)).

Definition r720p : resolution := (1280, 720).
Definition r1080p : resolution := (1920, 1080).

(** A detector that is monitoring with 720p as its baseline. *)
Definition watching : detector :=
  {| stream_url := "https://pull.example/live.flv"; check_interval := VInt 5;
     current_resolution := Some r720p; is_monitoring := true;
     stop_event := false; calls := [] |}.

End ResolutionDetector.

(** ** What both recorders share *)
Module Engine.

Import ConfigManager.

(** *** [time.strftime("%Y.%m.%d_%H-%M-%S", time.localtime())] *)

(** The fields of [time.localtime()] that the format uses. *)
Record struct_time : Type := StructTime {
  tm_year : nat;
  tm_mon : nat;
  tm_mday : nat;
  tm_hour : nat;
  tm_min : nat;
  tm_sec : nat
}.

#[global] Instance struct_time_eq_dec : EqDecision struct_time.
Proof. solve_decision. Defined.

(** Decimal numeral of a natural number, as [str(n)] and [%Y] print it. *)
Definition dec (n : nat) : string :=
  DecimalString.NilEmpty.string_of_uint (Nat.to_uint n).

(** [%m], [%d], [%H], [%M], [%S]: at least two digits, zero padded. *)
Definition two_digits (n : nat) : string :=
  if (n <? 10)%nat then "0" +:+ dec n else dec n.

Definition strftime (t : struct_time) : string :=
  dec (tm_year t) +:+ "." +:+ two_digits (tm_mon t) +:+ "." +:+
  two_digits (tm_mday t) +:+ "_" +:+ two_digits (tm_hour t) +:+ "-" +:+
  two_digits (tm_min t) +:+ "-" +:+ two_digits (tm_sec t).

(** A string as the list of its characters. *)
Abbreviation chars := list_ascii_of_string.

(** Reading numerals back, and the characters they are made of. *)
Definition parse (s : string) : option nat :=
  Nat.of_uint <$> DecimalString.NilEmpty.uint_of_string s.

Definition is_digit (c : ascii) : bool :=
  match Ascii.is_nat c with Some _ => true | None => false end.

(** *** Output paths *)

(** [f"{x}"] for a value that may be [None]. *)
Definition fmt (o : option string) : string := default "None" o.

Fixpoint last_char (s : string) : option ascii :=
  match s with
  | EmptyString => None
  | String c EmptyString => Some c
  | String _ s' => last_char s'
  end.

(** The backslash, by its character code. *)
Definition backslash : ascii := ascii_of_nat 92.

(** [s.endswith(c)] for a one-character suffix. *)
Definition endswith (s : string) (c : ascii) : bool :=
  bool_decide (last_char s = Some c).

(** [base_output] of both recorders; [nt] is [os.name == 'nt']. *)
Definition base_output (nt : bool) (output : option string) : string :=
  let base := default EmptyString output in
  if negb (String.eqb base EmptyString) then
    if negb (endswith base "/" || endswith base backslash) then
      if nt then base +:+ String backslash EmptyString else base +:+ "/"
    else base
  else base.

Definition user_folder (nt : bool) (output user : option string) : string :=
  base_output nt output +:+ fmt user +:+ "/".

(** [f"{user_folder}TK_{user}_{current_date}{output_suffix}_flv.mp4"] *)
Definition output_path (nt : bool) (output user : option string)
    (current_date output_suffix : string) : string :=
  user_folder nt output user +:+ "TK_" +:+ fmt user +:+ "_" +:+
  current_date +:+ output_suffix +:+ "_flv.mp4".

(** *** Events and scripts *)

Inductive mode : Type := Manual | Automatic.

(** What the engine does to the world, in order. *)
Inductive event : Type :=
| EvMakedirs (dir : string)
| EvOpen (path : string)
| EvWrite (data : list byte)
| EvFlush
| EvClose
| EvMonitorStart (url : option string) (interval : value)
| EvMonitorStop
| EvDownload (url : string)
| EvChunk (data : list byte) (stop_seen : bool)
    (** the generator yields [data]; [stop_seen] is what
        [stop_event.is_set()] answers at that moment *)
| EvCheckStop
| EvSleep (seconds : Z)
| EvConvert (path : string)  (** [convert_flv_to_mp4(output)] *)
| EvUpload (path : string).  (** upload of the file converted from [path] *)

#[global] Instance event_eq_dec : EqDecision event.
Proof. solve_decision. Defined.

(** One chunk yielded by [download_live_stream], with what the other
    threads and the clock show when the loop looks at them. *)
Record chunk_step : Type := ChunkStep {
  cs_stop : bool;      (** [stop_event.is_set()] when the chunk arrives *)
  cs_data : list byte; (** the chunk *)
  cs_elapsed : Z;      (** [time.time() - start_time], in milliseconds *)
  cs_changed : bool    (** the monitor has called back since the last look *)
}.

(** One pass through the body of the outer [while]. *)
Record iteration : Type := Iteration {
  it_stop : bool;              (** [stop_event.is_set()] at the loop test *)
  it_alive : result bool;      (** [is_room_alive(room_id)] *)
  it_stream : list chunk_step; (** the chunks the generator yields *)
  it_end : option exn          (** [None]: exhausted; [Some e]: raises [e] *)
}.

(** Everything one call of the recording function asks of the world. *)
Record session_script : Type := SessionScript {
  ss_live_url : result (option string);    (** [get_live_url] on entry *)
  ss_localtime : struct_time;              (** [time.localtime()] on entry *)
  ss_config_file : config_file;            (** the settings file on entry *)
  ss_iterations : list iteration;
  ss_changed_late : bool;   (** a callback after the loop's last look *)
  ss_stop_after : bool;     (** [stop_event.is_set()] at the restart test *)
  ss_alive_after : result bool;            (** liveness at the restart test *)
  ss_restart_url : result (option string)  (** [get_live_url] for the restart *)
}.

(** How a call ends. [ScriptEnd]: the script stopped while the code was
    still running. *)
Inductive outcome : Type :=
| Returned
| Raised (e : exn)
| ScriptEnd.

(** Why the streaming loop was left. *)
Inductive loop_exit : Type :=
| Offline                  (** liveness check false: [break] *)
| Cancelled                (** stop event seen *)
| DurationReached
| RestartRequested
| Errored (e : exn)        (** caught, [stop_recording = True] *)
| Propagated (e : exn)     (** not caught by any handler *)
| Unfinished.              (** script used up *)

(** How one [for chunk in ...] ends. *)
Inductive for_exit : Type :=
| ForExhausted
| ForBreak (why : loop_exit)
| ForRaise (e : exn).

Definition buffer_size : Z := 512 * 1024.

(** [if duration and elapsed_time >= duration] ([duration] in seconds). *)
Definition duration_reached (duration : option Z) (elapsed : Z) : bool :=
  match duration with
  | Some d => negb (d =? 0) && (d * 1000 <=? elapsed)
  | None => false
  end.


(** The [finally] clause: whatever is buffered is written, then flushed. *)
Definition finally (buffer : list byte) : list event :=
  (if bool_decide (buffer = []) then [] else [EvWrite buffer]) ++ [EvFlush].

(** [if new_live_url:] and [if not live_url:] *)
Definition url_truthy (u : option string) : bool := str_truthy u.

(** *** Reading a trace *)

(** All bytes handed to [out_file.write]. *)
Fixpoint written (tr : list event) : list byte :=
  match tr with
  | [] => []
  | EvWrite data :: tr' => data ++ written tr'
  | _ :: tr' => written tr'
  end.

(** All bytes the source delivered. *)
Fixpoint received (tr : list event) : list byte :=
  match tr with
  | [] => []
  | EvChunk data _ :: tr' => data ++ received tr'
  | _ :: tr' => received tr'
  end.

(** The bytes delivered while the stop event was clear. *)
Fixpoint received_running (tr : list event) : list byte :=
  match tr with
  | [] => []
  | EvChunk data false :: tr' => data ++ received_running tr'
  | _ :: tr' => received_running tr'
  end.

(** The bytes written before the first [EvClose]. *)
Fixpoint written_before_close (tr : list event) : list byte :=
  match tr with
  | [] => []
  | EvClose :: _ => []
  | EvWrite data :: tr' => data ++ written_before_close tr'
  | _ :: tr' => written_before_close tr'
  end.

Definition opened (tr : list event) : list string :=
  omap (fun e => match e with EvOpen p => Some p | _ => None end) tr.

Definition downloads (tr : list event) : list string :=
  omap (fun e => match e with EvDownload u => Some u | _ => None end) tr.

Definition sleeps (tr : list event) : list Z :=
  omap (fun e => match e with EvSleep n => Some n | _ => None end) tr.

(** The events of the streaming loop, and those that follow the
    post-processing. *)
Definition loop_event (e : event) : Prop :=
  match e with
  | EvDownload _ | EvChunk _ _ | EvWrite _ | EvFlush | EvSleep _ => True
  | _ => False
  end.

Definition late_event (e : event) : Prop :=
  match e with
  | EvUpload _ | EvSleep _ => True
  | _ => False
  end.

(** No call into the platform client raises anything but an
    [Exception]. *)
Definition raises_only_Exception (s : session_script) : Prop :=
  Forall (fun it =>
            (∀ e, it_alive it = Raise e → is_Exception e = true) ∧
            (∀ e, it_end it = Some e → is_Exception e = true))
         (ss_iterations s).

(** Position of the first occurrence of an event. *)
Fixpoint index_of (e : event) (tr : list event) : option nat :=
  match tr with
  | [] => None
  | e' :: tr' => if decide (e = e') then Some 0%nat else S <$> index_of e tr'
  end.

(** [a] occurs, and [b] does not occur before it. *)
Definition precedes (a b : event) (tr : list event) : Prop :=
  match index_of a tr, index_of b tr with
  | Some i, Some j => (i < j)%nat
  | Some _, None => True
  | None, _ => False
  end.

(** A file system that replays a trace: directories, files with their
    contents, and the file currently open for writing. *)
Record fs : Type := Fs {
  dirs : gset string;
  files : gmap string (list byte);
  handle : option string
}.

Definition empty_fs : fs := {| dirs := ∅; files := ∅; handle := None |}.

Definition fs_step (s : fs) (e : event) : fs :=
  match e with
  | EvMakedirs d => {| dirs := {[d]} ∪ dirs s; files := files s; handle := handle s |}
  | EvOpen p => {| dirs := dirs s; files := <[p := []]> (files s); handle := Some p |}
  | EvWrite data =>
      match handle s with
      | Some p =>
          {| dirs := dirs s;
             files := <[p := default [] (files s !! p) ++ data]> (files s);
             handle := handle s |}
      | None => s
      end
  | EvClose => {| dirs := dirs s; files := files s; handle := None |}
  | _ => s
  end.

Definition replay (tr : list event) (s : fs) : fs := foldl fs_step s tr.

End Engine.

(** ** core/multi_stream_recorder.py *)
Module MultiStreamRecorder.

Import ConfigManager Engine.

(** The fields of the per-thread [TikTokRecorder] object that the
    orchestrator reads; [r_nt] is [os.name == 'nt']. *)
Record recorder : Type := Recorder {
  r_user : option string;
  r_room_id : option string;
  r_output : option string;
  r_duration : option Z;
  r_use_telegram : bool;
  r_nt : bool
}.

Definition set_room_id (r : recorder) (room_id : option string) : recorder :=
  {| r_user := r_user r; r_room_id := room_id; r_output := r_output r;
     r_duration := r_duration r; r_use_telegram := r_use_telegram r;
     r_nt := r_nt r |}.

(** [stream_key = f"Stream-{i+1}"], which [run] passes to the thread as
    its [thread_name] argument. *)
Definition stream_key (i : nat) : string := "Stream-" +:+ dec (S i).

(** [output_suffix = f"_{thread_name}" if len(self.targets) > 1 else the empty string] *)
Definition output_suffix (n_targets : nat) (thread_name : string) : string :=
  if (1 <? n_targets)%nat then "_" +:+ thread_name else EmptyString.

(** How a call of [_start_recording_with_stop_event] ends, before any
    call of itself. *)
Inductive session_end : Type :=
| SessionRaised (e : exn)
| SessionUnfinished
| SessionDone (why : loop_exit) (restart_requested : bool)
| SessionRestart (why : loop_exit).

(** The call goes on to call itself. *)
Definition restarts (e : session_end) : bool :=
  match e with SessionRestart _ => true | _ => false end.

(** The call reaches its last [if] with [restart_requested[0]] set. *)
Definition restart_flag_set (e : session_end) : bool :=
  match e with
  | SessionRestart _ => true
  | SessionDone _ restart_requested => restart_requested
  | _ => false
  end.

(** [for chunk in recorder.tiktok.download_live_stream(live_url)]:
    the buffer, the restart flag, the events and how the loop ends. *)
Fixpoint for_chunks (restart_enabled : bool) (duration : option Z)
    (steps : list chunk_step) (stream_end : option exn)
    (buffer : list byte) (restart_requested : bool)
    : list byte * bool * list event * for_exit :=
  match steps with
  | [] =>
      (buffer, restart_requested, [],
       match stream_end with None => ForExhausted | Some e => ForRaise e end)
  | c :: steps' =>
      let restart_requested :=
        restart_requested || (cs_changed c && restart_enabled) in
      if cs_stop c
      then (buffer, restart_requested, [EvChunk (cs_data c) true],
            ForBreak Cancelled)
      else
        let buffer := buffer ++ cs_data c in
        let '(buffer, ev) :=
          if buffer_size <=? Z.of_nat (length buffer)
          then ([], [EvChunk (cs_data c) false; EvWrite buffer])
          else (buffer, [EvChunk (cs_data c) false]) in
        if duration_reached duration (cs_elapsed c)
        then (buffer, restart_requested, ev, ForBreak DurationReached)
        else if restart_requested
        then (buffer, restart_requested, ev, ForBreak RestartRequested)
        else
          let '(b, r, ev', x) :=
            for_chunks restart_enabled duration steps' stream_end
                       buffer restart_requested in
          (b, r, ev ++ ev', x)
  end.

(** [while not stop_recording and not self.stop_event.is_set()] with its
    [try] / [except Exception] / [finally]. *)
Fixpoint streaming_loop (restart_enabled : bool) (duration : option Z)
    (live_url : string) (its : list iteration)
    (buffer : list byte) (restart_requested : bool)
    : bool * list event * loop_exit :=
  match its with
  | [] => (restart_requested, [], Unfinished)
  | it :: its' =>
      if it_stop it then (restart_requested, [], Cancelled)
      else
        match it_alive it with
        | Raise e =>
            (restart_requested, finally buffer,
             if is_Exception e then Errored e else Propagated e)
        | Ok false => (restart_requested, finally buffer, Offline)
        | Ok true =>
            let '(buffer', rr, ev, x) :=
              for_chunks restart_enabled duration (it_stream it) (it_end it)
                         buffer restart_requested in
            let ev := EvDownload live_url :: ev ++ finally buffer' in
            match x with
            | ForExhausted =>
                let '(rr', ev', why) :=
                  streaming_loop restart_enabled duration live_url its' [] rr in
                (rr', ev ++ ev', why)
            | ForBreak why => (rr, ev, why)
            | ForRaise e =>
                (rr, ev, if is_Exception e then Errored e else Propagated e)
            end
        end
  end.

(** [user_folder] and [output] of a call. *)
Definition session_folder (r : recorder) : string :=
  user_folder (r_nt r) (r_output r) (r_user r).

Definition session_path (n_targets : nat) (thread_name : string)
    (r : recorder) (s : session_script) : string :=
  output_path (r_nt r) (r_output r) (r_user r) (strftime (ss_localtime s))
              (output_suffix n_targets thread_name).

(** [config_manager = ConfigManager()] inside the call. *)
Definition session_config (s : session_script) : config :=
  (_load_config (ss_config_file s)).1.

(** What a call does before it enters the streaming loop. *)
Definition opening (n_targets : nat) (thread_name : string) (r : recorder)
    (s : session_script) (live_url : string) : list event :=
  [EvMakedirs (session_folder r);
   EvOpen (session_path n_targets thread_name r s);
   EvMonitorStart (Some live_url)
     (get_resolution_check_interval (session_config s)
                                    (r_user r) (r_room_id r))].

(** One call of [_start_recording_with_stop_event] up to the point where
    it would call itself. The conversion and the upload are recorded as
    they go when neither raises; the block with its failures is
    [PostProcessing.multi_post_processing]. *)
Definition session (n_targets : nat) (thread_name : string) (r : recorder)
    (s : session_script) : list event * session_end :=
  match ss_live_url s with
  | Raise e => ([], SessionRaised e)
  | Ok u =>
      if negb (url_truthy u) then ([], SessionRaised OtherException)
      else
        let live_url := default EmptyString u in
        let output := session_path n_targets thread_name r s in
        let config := session_config s in
        let restart_enabled :=
          truthy (should_restart_on_resolution_change
                    config (r_user r) (r_room_id r)) in
        let '(rr, ev, why) :=
          streaming_loop restart_enabled (r_duration r) live_url
                         (ss_iterations s) [] false in
        let started := opening n_targets thread_name r s live_url ++ ev in
        match why with
        | Unfinished => (started, SessionUnfinished)
        | Propagated e => (started ++ [EvClose], SessionRaised e)
        | _ =>
            let finished :=
              started ++ [EvClose; EvMonitorStop; EvConvert output] ++
              (if r_use_telegram r then [EvUpload output] else []) in
            let rr := rr || (ss_changed_late s && restart_enabled) in
            if rr && negb (ss_stop_after s) then
              match ss_alive_after s with
              | Raise e => (finished, SessionRaised e)
              | Ok false => (finished, SessionDone why rr)
              | Ok true =>
                  match ss_restart_url s with
                  | Raise e =>
                      (finished ++ [EvSleep 2],
                       if is_Exception e then SessionDone why rr
                       else SessionRaised e)
                  | Ok new_live_url =>
                      (finished ++ [EvSleep 2],
                       if url_truthy new_live_url then SessionRestart why
                       else SessionDone why rr)
                  end
              end
            else (finished, SessionDone why rr)
        end
  end.

(** [_start_recording_with_stop_event]: each call of itself uses up one
    script and nests one call deeper. [depth] is the number of further
    nested calls that the recursion limit of the interpreter leaves room
    for: the call that exceeds it raises [RecursionError] before anything
    of the callee runs. That error, like any [Exception] out of the inner
    call, is caught by the [except Exception] of the restart and logged. *)
Fixpoint _start_recording_with_stop_event (depth : nat) (n_targets : nat)
    (thread_name : string) (r : recorder) (scripts : list session_script)
    {struct scripts} : list event * outcome :=
  match scripts with
  | [] => ([], ScriptEnd)
  | s :: rest =>
      match session n_targets thread_name r s with
      | (tr, SessionRaised e) => (tr, Raised e)
      | (tr, SessionUnfinished) => (tr, ScriptEnd)
      | (tr, SessionDone _ _) => (tr, Returned)
      | (tr, SessionRestart _) =>
          match depth with
          | O => (tr, Returned)
          | S depth' =>
              let '(tr', o) :=
                _start_recording_with_stop_event depth' n_targets thread_name
                                                 r rest in
              (tr ++ tr',
               match o with
               | Raised e => if is_Exception e then Returned else Raised e
               | _ => o
               end)
          end
      end
  end.

(** [_manual_mode_with_stop_event] *)
Definition _manual_mode_with_stop_event (depth : nat) (n_targets : nat)
    (thread_name : string) (r : recorder) (stop : bool) (alive : result bool)
    (scripts : list session_script) : list event * outcome :=
  if stop then ([], Returned)
  else
    match alive with
    | Raise e => ([], Raised e)
    | Ok false => ([], Raised UserLiveException)
    | Ok true =>
        _start_recording_with_stop_event depth n_targets thread_name r scripts
    end.

(** One pass through the [while] of the automatic mode. *)
Record task_iteration : Type := TaskIteration {
  ti_stop : bool;                    (** [stop_event.is_set()] at the loop test *)
  ti_room : result (option string);  (** [get_room_id_from_user(user)] *)
  ti_stop_manual : bool;             (** the test on entry to manual mode *)
  ti_alive : result bool;            (** [is_room_alive(room_id)] *)
  ti_sessions : list session_script;
  ti_wait_stop : nat → bool          (** the stop event in the k-th second of the wait *)
}.

(** [for _ in range(n): if self.stop_event.is_set(): return; time.sleep(1)]
    from second [k] on; the flag says whether it returned. *)
Fixpoint wait_for_recheck (n k : nat) (stop : nat → bool) : list event * bool :=
  match n with
  | O => ([], false)
  | S n' =>
      if stop k then ([EvCheckStop], true)
      else
        let '(ev, stopped) := wait_for_recheck n' (S k) stop in
        (EvCheckStop :: EvSleep 1 :: ev, stopped)
  end.

(** [_automatic_mode_with_stop_event]; every pass calls the manual mode
    from the same place, with the same [depth] left. *)
Fixpoint _automatic_mode_with_stop_event (depth : nat) (n_targets : nat)
    (thread_name : string) (automatic_interval : Z) (r : recorder)
    (its : list task_iteration) : list event * outcome :=
  match its with
  | [] => ([], ScriptEnd)
  | ti :: its' =>
      if ti_stop ti then ([], Returned)
      else
        let r' := match ti_room ti with
                  | Ok room => set_room_id r room
                  | Raise _ => r
                  end in
        let '(tr, o) :=
          match ti_room ti with
          | Raise e => ([], Raised e)
          | Ok _ =>
              _manual_mode_with_stop_event depth n_targets thread_name r'
                (ti_stop_manual ti) (ti_alive ti) (ti_sessions ti)
          end in
        match o with
        | Returned =>
            let '(tr', o') :=
              _automatic_mode_with_stop_event depth n_targets thread_name
                automatic_interval r' its' in
            (tr ++ tr', o')
        | ScriptEnd => (tr, ScriptEnd)
        | Raised e =>
            if bool_decide (e = UserLiveException) then
              let '(w, stopped) :=
                wait_for_recheck (Z.to_nat (automatic_interval * 60)) 0
                                 (ti_wait_stop ti) in
              if stopped then (tr ++ w, Returned)
              else
                let '(tr', o') :=
                  _automatic_mode_with_stop_event depth n_targets thread_name
                    automatic_interval r' its' in
                (tr ++ w ++ tr', o')
            else if is_Exception e then (tr, Returned)
            else (tr, Raised e)
        end
  end.

End MultiStreamRecorder.

(** ** core/tiktok_recorder.py *)
Module TikTokRecorder.

Import ConfigManager Engine.

(** Modelled from the spec: [utils/enums.py] is not among the sources.
    [TimeOut.ONE_MINUTE] is the number of seconds in a minute, and
    [TimeOut.CONNECTION_CLOSED] the "longer fixed delay (minutes-scale)"
    of the connection cooldown, which [test_connection_recovery.py]
    gives as two minutes. *)
Definition ONE_MINUTE : Z := 60.
Definition CONNECTION_CLOSED : Z := 2.

(** The fields of the recorder object that recording reads. [r_config] is
    the dictionary held by [self.config_manager], loaded once in
    [__init__]; [r_detector_url] and [r_detector_interval] are the
    arguments [self.resolution_detector] was built with. *)
Record recorder : Type := Recorder {
  r_user : option string;
  r_room_id : option string;
  r_mode : mode;
  r_automatic_interval : Z;
  r_output : option string;
  r_duration : option Z;
  r_use_telegram : bool;
  r_nt : bool;
  r_config : config;
  r_detector_url : option string;
  r_detector_interval : value
}.

(** The part of [__init__] after the identity of the target is known:
    the settings are loaded and the detector is built on the URL that
    [get_live_url] returns at that moment. *)
Definition init (user room_id : option string) (m : mode)
    (automatic_interval : Z) (output : option string) (duration : option Z)
    (use_telegram nt : bool) (file : config_file) (live_url : option string)
    : recorder :=
  let config := (_load_config file).1 in
  {| r_user := user; r_room_id := room_id; r_mode := m;
     r_automatic_interval := automatic_interval; r_output := output;
     r_duration := duration; r_use_telegram := use_telegram; r_nt := nt;
     r_config := config;
     r_detector_url := live_url;
     r_detector_interval := get_resolution_check_interval config user room_id |}.

Definition set_room_id (r : recorder) (room_id : option string) : recorder :=
  {| r_user := r_user r; r_room_id := room_id; r_mode := r_mode r;
     r_automatic_interval := r_automatic_interval r; r_output := r_output r;
     r_duration := r_duration r; r_use_telegram := r_use_telegram r;
     r_nt := r_nt r; r_config := r_config r;
     r_detector_url := r_detector_url r;
     r_detector_interval := r_detector_interval r |}.

(** [self.resolution_detector = ResolutionDetector(stream_url=..., check_interval=...)] *)
Definition set_detector (r : recorder) (url : option string) : recorder :=
  {| r_user := r_user r; r_room_id := r_room_id r; r_mode := r_mode r;
     r_automatic_interval := r_automatic_interval r; r_output := r_output r;
     r_duration := r_duration r; r_use_telegram := r_use_telegram r;
     r_nt := r_nt r; r_config := r_config r;
     r_detector_url := url;
     r_detector_interval :=
       get_resolution_check_interval (r_config r) (r_user r) (r_room_id r) |}.

(** Recorders that differ in [self.resolution_detector] only. *)
Definition same_target (r r' : recorder) : Prop :=
  ∃ u i,
    r' = {| r_user := r_user r; r_room_id := r_room_id r; r_mode := r_mode r;
            r_automatic_interval := r_automatic_interval r;
            r_output := r_output r; r_duration := r_duration r;
            r_use_telegram := r_use_telegram r; r_nt := r_nt r;
            r_config := r_config r;
            r_detector_url := u; r_detector_interval := i |}.

Inductive session_end : Type :=
| SessionRaised (e : exn)
| SessionUnfinished
| SessionDone (why : loop_exit) (restart_requested : bool)
| SessionRestart (why : loop_exit) (new_live_url : option string).

(** The call goes on to call itself. *)
Definition restarts (e : session_end) : bool :=
  match e with SessionRestart _ _ => true | _ => false end.

(** The call reaches its last [if] with [restart_requested[0]] set. *)
Definition restart_flag_set (e : session_end) : bool :=
  match e with
  | SessionRestart _ _ => true
  | SessionDone _ restart_requested => restart_requested
  | _ => false
  end.

(** [for chunk in self.tiktok.download_live_stream(live_url)] *)
Fixpoint for_chunks (restart_enabled : bool) (duration : option Z)
    (steps : list chunk_step) (stream_end : option exn)
    (buffer : list byte) (restart_requested : bool)
    : list byte * bool * list event * for_exit :=
  match steps with
  | [] =>
      (buffer, restart_requested, [],
       match stream_end with None => ForExhausted | Some e => ForRaise e end)
  | c :: steps' =>
      let restart_requested :=
        restart_requested || (cs_changed c && restart_enabled) in
      let buffer := buffer ++ cs_data c in
      let '(buffer, ev) :=
        if buffer_size <=? Z.of_nat (length buffer)
        then ([], [EvChunk (cs_data c) false; EvWrite buffer])
        else (buffer, [EvChunk (cs_data c) false]) in
      if duration_reached duration (cs_elapsed c)
      then (buffer, restart_requested, ev, ForBreak DurationReached)
      else if restart_requested
      then (buffer, restart_requested, ev, ForBreak RestartRequested)
      else
        let '(b, r, ev', x) :=
          for_chunks restart_enabled duration steps' stream_end
                     buffer restart_requested in
        (b, r, ev ++ ev', x)
  end.

(** The four [except] clauses: what the handler does, and whether it sets
    [stop_recording]. *)
Definition handler (m : mode) (e : exn) : list event * bool :=
  match e with
  | ConnectionError =>
      (match m with
       | Automatic => [EvSleep (CONNECTION_CLOSED * ONE_MINUTE)]
       | Manual => []
       end, false)
  | RequestException | HTTPException => ([EvSleep 2], false)
  | _ => ([], true)
  end.

(** [while not stop_recording] with its [try] / [except] / [finally]. *)
Fixpoint streaming_loop (m : mode) (restart_enabled : bool)
    (duration : option Z) (live_url : string) (its : list iteration)
    (buffer : list byte) (restart_requested : bool)
    : bool * list event * loop_exit :=
  match its with
  | [] => (restart_requested, [], Unfinished)
  | it :: its' =>
      let '(buffer', rr, ev, x) :=
        match it_alive it with
        | Raise e => (buffer, restart_requested, [], ForRaise e)
        | Ok false => (buffer, restart_requested, [], ForBreak Offline)
        | Ok true =>
            let '(b, rr, ev, x) :=
              for_chunks restart_enabled duration (it_stream it) (it_end it)
                         buffer restart_requested in
            (b, rr, EvDownload live_url :: ev, x)
        end in
      match x with
      | ForBreak why => (rr, ev ++ finally buffer', why)
      | ForExhausted =>
          let '(rr', ev', why) :=
            streaming_loop m restart_enabled duration live_url its' [] rr in
          (rr', ev ++ finally buffer' ++ ev', why)
      | ForRaise e =>
          let '(hev, stop) := handler m e in
          if stop then (rr, ev ++ hev ++ finally buffer', Errored e)
          else
            let '(rr', ev', why) :=
              streaming_loop m restart_enabled duration live_url its' [] rr in
            (rr', ev ++ hev ++ finally buffer' ++ ev', why)
      end
  end.

(** [user_folder] and [output] of a call. *)
Definition session_folder (r : recorder) : string :=
  user_folder (r_nt r) (r_output r) (r_user r).

Definition session_path (r : recorder) (s : session_script) : string :=
  output_path (r_nt r) (r_output r) (r_user r) (strftime (ss_localtime s)) EmptyString.

(** What a call does before it enters the streaming loop. *)
Definition opening (r : recorder) (s : session_script) : list event :=
  [EvMakedirs (session_folder r); EvOpen (session_path r s);
   EvMonitorStart (r_detector_url r) (r_detector_interval r)].

(** One call of [start_recording] up to the point where it would call
    itself. The conversion and the upload are recorded as they go when
    no call after the recording raises; these statements with their
    failures are [PostProcessing.single_post_processing]. *)
Definition session (r : recorder) (s : session_script)
    : list event * session_end :=
  match ss_live_url s with
  | Raise e => ([], SessionRaised e)
  | Ok u =>
      if negb (url_truthy u) then ([], SessionRaised LiveNotFound)
      else
        let live_url := default EmptyString u in
        let output := session_path r s in
        let restart_enabled :=
          truthy (should_restart_on_resolution_change
                    (r_config r) (r_user r) (r_room_id r)) in
        let '(rr, ev, why) :=
          streaming_loop (r_mode r) restart_enabled (r_duration r) live_url
                         (ss_iterations s) [] false in
        let started := opening r s ++ ev in
        match why with
        | Unfinished => (started, SessionUnfinished)
        | Propagated e => (started ++ [EvClose], SessionRaised e)
        | _ =>
            let finished :=
              started ++ [EvClose; EvMonitorStop; EvConvert output] ++
              (if r_use_telegram r then [EvUpload output] else []) in
            let rr := rr || (ss_changed_late s && restart_enabled) in
            if rr then
              match ss_alive_after s with
              | Raise e => (finished, SessionRaised e)
              | Ok false => (finished, SessionDone why rr)
              | Ok true =>
                  match ss_restart_url s with
                  | Raise e =>
                      (finished ++ [EvSleep 2],
                       if is_Exception e then SessionDone why rr
                       else SessionRaised e)
                  | Ok new_live_url =>
                      (finished ++ [EvSleep 2],
                       if url_truthy new_live_url
                       then SessionRestart why new_live_url
                       else SessionDone why rr)
                  end
              end
            else (finished, SessionDone why rr)
        end
  end.

(** [start_recording]; the recorder is returned because a restart
    replaces [self.resolution_detector], which it does before it calls
    itself. [depth] is the number of further nested calls that the
    recursion limit of the interpreter leaves room for: the call that
    exceeds it raises [RecursionError] before anything of the callee runs,
    and the [except Exception] of the restart logs it. *)
Fixpoint start_recording (depth : nat) (r : recorder)
    (scripts : list session_script) {struct scripts}
    : list event * outcome * recorder :=
  match scripts with
  | [] => ([], ScriptEnd, r)
  | s :: rest =>
      match session r s with
      | (tr, SessionRaised e) => (tr, Raised e, r)
      | (tr, SessionUnfinished) => (tr, ScriptEnd, r)
      | (tr, SessionDone _ _) => (tr, Returned, r)
      | (tr, SessionRestart _ new_live_url) =>
          match depth with
          | O => (tr, Returned, set_detector r new_live_url)
          | S depth' =>
              let '(tr', o, r') :=
                start_recording depth' (set_detector r new_live_url) rest in
              (tr ++ tr',
               match o with
               | Raised e => if is_Exception e then Returned else Raised e
               | _ => o
               end, r')
          end
      end
  end.

(** [manual_mode] *)
Definition manual_mode (depth : nat) (r : recorder) (alive : result bool)
    (scripts : list session_script) : list event * outcome * recorder :=
  match alive with
  | Raise e => ([], Raised e, r)
  | Ok false => ([], Raised UserLiveException, r)
  | Ok true => start_recording depth r scripts
  end.

(** One pass through [while True] of [automatic_mode]. *)
Record task_iteration : Type := TaskIteration {
  ti_room : result (option string);  (** [get_room_id_from_user(user)] *)
  ti_alive : result bool;            (** [is_room_alive(room_id)] *)
  ti_sessions : list session_script
}.

(** [automatic_mode]: the loop has no [break] and no [return]; every
    pass calls the manual mode with the same [depth] left. *)
Fixpoint automatic_mode (depth : nat) (r : recorder)
    (its : list task_iteration) : list event * outcome :=
  match its with
  | [] => ([], ScriptEnd)
  | ti :: its' =>
      let '(tr, o, r') :=
        match ti_room ti with
        | Raise e => ([], Raised e, r)
        | Ok room =>
            manual_mode depth (set_room_id r room) (ti_alive ti)
                        (ti_sessions ti)
        end in
      match o with
      | ScriptEnd => (tr, ScriptEnd)
      | Returned =>
          let '(tr', o') := automatic_mode depth r' its' in (tr ++ tr', o')
      | Raised e =>
          let hev :=
            match e with
            | UserLiveException =>
                Some [EvSleep (r_automatic_interval r * ONE_MINUTE)]
            | ConnectionError =>
                Some [EvSleep (CONNECTION_CLOSED * ONE_MINUTE)]
            | _ => if is_Exception e then Some [] else None
            end in
          match hev with
          | None => (tr, Raised e)
          | Some hev =>
              let '(tr', o') := automatic_mode depth r' its' in
              (tr ++ hev ++ tr', o')
          end
      end
  end.

End TikTokRecorder.

(** ** Concrete runs used below *)
Module Scenarios.

Import ConfigManager Engine.

Definition pull_url : string := "https://pull.example/live/7318.flv".
Definition pull_url_hd : string := "https://pull.example/live/7318_hd.flv".

Definition noon : struct_time :=
  {| tm_year := 2025; tm_mon := 6; tm_mday := 1;
     tm_hour := 12; tm_min := 0; tm_sec := 0 |}.

Definition soon_after : struct_time :=
  {| tm_year := 2025; tm_mon := 6; tm_mday := 1;
     tm_hour := 12; tm_min := 0; tm_sec := 7 |}.

(** The restart is enabled for the user [alice], nothing else overridden. *)
Definition restart_for_alice : config :=
  {| c_default := Some default_settings;
     c_users := Some {[ "alice" := {[ "restart_on_resolution_change" := VBool true ]} ]};
     c_rooms := Some ∅ |}.

(** Overrides for the room only. *)
Definition room_only : config :=
  {| c_default := Some default_settings;
     c_users := Some ∅;
     c_rooms := Some {[ "7318" := {[ "restart_on_resolution_change" := VBool true;
                                     "resolution_check_interval" := VInt 30 ]} ]} |}.

Definition alice : MultiStreamRecorder.recorder :=
  {| MultiStreamRecorder.r_user := Some "alice";
     MultiStreamRecorder.r_room_id := Some "7318";
     MultiStreamRecorder.r_output := Some "rec";
     MultiStreamRecorder.r_duration := None;
     MultiStreamRecorder.r_use_telegram := false;
     MultiStreamRecorder.r_nt := false |}.

Definition alice_alone : TikTokRecorder.recorder :=
  TikTokRecorder.init (Some "alice") (Some "7318") Automatic 5 (Some "rec")
                      None false false (Stored restart_for_alice)
                      (Some pull_url).

Definition chunk (data : list byte) (stop changed : bool) : chunk_step :=
  {| cs_stop := stop; cs_data := data; cs_elapsed := 1000;
     cs_changed := changed |}.

Definition script (t : struct_time) (its : list iteration)
    (restart_url : option string) : session_script :=
  {| ss_live_url := Ok (Some pull_url); ss_localtime := t;
     ss_config_file := Stored restart_for_alice; ss_iterations := its;
     ss_changed_late := false; ss_stop_after := false;
     ss_alive_after := Ok true; ss_restart_url := Ok restart_url |}.

Definition streaming (steps : list chunk_step) (stream_end : option exn)
    : iteration :=
  {| it_stop := false; it_alive := Ok true; it_stream := steps;
     it_end := stream_end |}.

Definition offline : iteration :=
  {| it_stop := false; it_alive := Ok false; it_stream := [];
     it_end := None |}.

(** The stop event is set while a chunk is in hand. *)
Definition cancelled_mid_stream : session_script :=
  script noon [streaming [chunk [x01; x02] false false;
                          chunk [x03] true false] None] None.

(** The target is gone at the first liveness check. *)
Definition went_offline : session_script := script noon [offline] None.

(** The first connection breaks with a transport error, the second one
    delivers, then the target goes offline. *)
Definition transport_hiccup : session_script :=
  script noon [streaming [chunk [x01] false false] (Some RequestException);
               streaming [chunk [x02] false false] None;
               offline] None.

(** The resolution changes; the platform gives a new URL for the restart. *)
Definition resolution_changed : session_script :=
  script noon [streaming [chunk [x01] false true] None] (Some pull_url_hd).


(** The session after a restart. *)
Definition second_session : session_script :=
  {| ss_live_url := Ok (Some pull_url_hd); ss_localtime := soon_after;
     ss_config_file := Stored restart_for_alice;
     ss_iterations := [streaming [chunk [x04] false false] None; offline];
     ss_changed_late := false; ss_stop_after := false;
     ss_alive_after := Ok true; ss_restart_url := Ok None |}.

(** The session after a restart, when the clock reads the same second as
    at the start of the session before. *)
Definition second_session_same_second : session_script :=
  {| ss_live_url := Ok (Some pull_url_hd); ss_localtime := noon;
     ss_config_file := Stored restart_for_alice;
     ss_iterations := [streaming [chunk [x04] false false] None; offline];
     ss_changed_late := false; ss_stop_after := false;
     ss_alive_after := Ok true; ss_restart_url := Ok None |}.

(** The platform gives no playback URL. *)
Definition no_playback_url : session_script :=
  {| ss_live_url := Ok None; ss_localtime := noon;
     ss_config_file := Stored restart_for_alice; ss_iterations := [];
     ss_changed_late := false; ss_stop_after := false;
     ss_alive_after := Ok true; ss_restart_url := Ok None |}.

(** Automatic mode finds the target live, but no playback URL. *)
Definition found_without_url : TikTokRecorder.task_iteration :=
  {| TikTokRecorder.ti_room := Ok (Some "7318");
     TikTokRecorder.ti_alive := Ok true;
     TikTokRecorder.ti_sessions := [no_playback_url] |}.

(** Automatic mode finds the target offline. *)
Definition found_offline : TikTokRecorder.task_iteration :=
  {| TikTokRecorder.ti_room := Ok (Some "7318");
     TikTokRecorder.ti_alive := Ok false;
     TikTokRecorder.ti_sessions := [] |}.


End Scenarios.

(** ** utils/config_manager.py: writing settings *)
Module ConfigWrites.

Import ConfigManager.

(** [bool(config)] for the dictionary: an empty one is false. *)
Definition config_truthy (c : config) : bool :=
  bool_decide (is_Some (c_default c)) || bool_decide (is_Some (c_users c))
  || bool_decide (is_Some (c_rooms c)).

(** [_save_config(config)]: [config or self.config] is written to the
    file. [writable] says whether [open(path, 'w')] succeeds; when it
    does not the error is logged and the file stays as it was. *)
Definition _save_config (config : option config) (self_config : ConfigManager.config)
    (writable : bool) (file : config_file) : config_file :=
  let config_to_save :=
    match config with
    | Some c => if config_truthy c then c else self_config
    | None => self_config
    end in
  if writable then Stored config_to_save else file.

(** What [set_user_setting] does to [self.config]: the [users] key and
    the user's dictionary are created when absent. *)
Definition with_user_setting (c : config) (user setting : string) (v : value)
    : config :=
  let users := default ∅ (c_users c) in
  let user_config := default ∅ (users !! user) in
  {| c_default := c_default c;
     c_users := Some (<[user := <[setting := v]> user_config]> users);
     c_rooms := c_rooms c |}.

Definition with_room_setting (c : config) (room_id setting : string) (v : value)
    : config :=
  let rooms := default ∅ (c_rooms c) in
  let room_config := default ∅ (rooms !! room_id) in
  {| c_default := c_default c;
     c_users := c_users c;
     c_rooms := Some (<[room_id := <[setting := v]> room_config]> rooms) |}.

(** A manager together with the file it saves to. *)
Definition manager : Type := config * config_file.

(** [_load_config] together with the outcome of the write it makes for
    a missing file: when the directory or the file cannot be created the
    defaults are returned all the same and nothing is stored. With
    [writable] this is [ConfigManager._load_config]. *)
Definition _load_config (writable : bool) (file : config_file) : manager :=
  match file with
  | Stored c => (c, Stored c)
  | Missing =>
      (default_config,
       _save_config (Some default_config) default_config writable Missing)
  | Unreadable => (default_config, Unreadable)
  end.

(** [ConfigManager()] *)
Definition new_manager (writable : bool) (file : config_file) : manager :=
  _load_config writable file.

(** [set_user_setting]: the dictionary is changed, then saved. *)
Definition set_user_setting (writable : bool) (m : manager)
    (user setting : string) (v : value) : manager :=
  let c := with_user_setting m.1 user setting v in
  (c, _save_config None c writable m.2).

Definition set_room_setting (writable : bool) (m : manager)
    (room_id setting : string) (v : value) : manager :=
  let c := with_room_setting m.1 room_id setting v in
  (c, _save_config None c writable m.2).

(** [config_manager.config["default"][setting] = v] followed by
    [config_manager._save_config()], as the command line tools do it: a
    dictionary without the [default] key raises [KeyError]. *)
Definition set_default_setting (writable : bool) (m : manager)
    (setting : string) (v : value) : result manager :=
  match c_default m.1 with
  | None => Raise KeyError
  | Some d =>
      let c := {| c_default := Some (<[setting := v]> d);
                  c_users := c_users m.1; c_rooms := c_rooms m.1 |} in
      Ok (c, _save_config None c writable m.2)
  end.

End ConfigWrites.

(** ** main.py: the settings given on the command line *)
Module Main.

Import ConfigManager ConfigWrites.

(** The parsed arguments that the settings block of [main] reads. *)
Record args : Type := Args {
  a_user : option string;
  a_room_id : option string;
  a_users : option (list string);
  a_room_ids : option (list string);
  enable_resolution_restart : option string;
  disable_resolution_restart : option string;
  resolution_check_interval : option Z
}.

(** [if l:] for an optional list. *)
Definition list_truthy {A} (l : option (list A)) : bool :=
  match l with
  | Some (_ :: _) => true
  | _ => false
  end.

(** How the block ends. *)
Inductive ending : Type :=
| Finished
| ArgsParseError
| DefaultKeyError.   (** [config["default"]] on a dictionary without the key *)

Section Settings.

(** [str.lower] *)
Variable lower : string → string.

(** Whether the settings file can be written during the run. *)
Variable writable : bool.

(** The five-way choice made for [-enable-resolution-restart] (with
    [True]) and [-disable-resolution-restart] (with [False]); the last
    branch only logs a warning. *)
Definition set_restart (setting_type : string) (a : args) (flag : bool)
    (m : manager) : manager :=
  let key := "restart_on_resolution_change" in
  if String.eqb setting_type "user" && str_truthy (a_user a) then
    set_user_setting writable m (default EmptyString (a_user a)) key (VBool flag)
  else if String.eqb setting_type "room" && str_truthy (a_room_id a) then
    set_room_setting writable m (default EmptyString (a_room_id a)) key (VBool flag)
  else if String.eqb setting_type "user" && list_truthy (a_users a) then
    foldl (fun m user => set_user_setting writable m user key (VBool flag))
          m (default [] (a_users a))
  else if String.eqb setting_type "room" && list_truthy (a_room_ids a) then
    foldl (fun m room_id => set_room_setting writable m room_id key (VBool flag))
          m (default [] (a_room_ids a))
  else m.

(** One of the two flags: nothing when the flag is absent or empty,
    [ArgsParseError] when it is neither [user] nor [room]. *)
Definition restart_option (o : option string) (a : args) (flag : bool)
    (m : manager) : manager * ending :=
  if str_truthy o then
    let setting_type := lower (default EmptyString o) in
    if negb (String.eqb setting_type "user" || String.eqb setting_type "room")
    then (m, ArgsParseError)
    else (set_restart setting_type a flag m, Finished)
  else (m, Finished).

(** [-resolution-check-interval] *)
Definition interval_option (a : args) (m : manager) : manager * ending :=
  match resolution_check_interval a with
  | None => (m, Finished)
  | Some n =>
      if n <? 1 then (m, ArgsParseError)
      else
        let key := "resolution_check_interval" in
        if str_truthy (a_user a) then
          (set_user_setting writable m (default EmptyString (a_user a)) key (VInt n),
           Finished)
        else if str_truthy (a_room_id a) then
          (set_room_setting writable m (default EmptyString (a_room_id a)) key (VInt n),
           Finished)
        else if list_truthy (a_users a) then
          (foldl (fun m user => set_user_setting writable m user key (VInt n))
                 m (default [] (a_users a)), Finished)
        else if list_truthy (a_room_ids a) then
          (foldl (fun m room_id => set_room_setting writable m room_id key (VInt n))
                 m (default [] (a_room_ids a)), Finished)
        else
          match set_default_setting writable m key (VInt n) with
          | Ok m' => (m', Finished)
          | Raise _ => (m, DefaultKeyError)
          end
  end.

(** The block of [main] between [config_manager = ConfigManager()] and
    the choice of the recorder; [ffprobe_available] is what
    [ResolutionDetector.is_ffprobe_available()] answers. *)
Definition resolution_settings (ffprobe_available : bool) (a : args)
    (m : manager) : manager * ending :=
  if str_truthy (enable_resolution_restart a)
     || str_truthy (disable_resolution_restart a)
     || bool_decide (is_Some (resolution_check_interval a))
  then
    if negb ffprobe_available then (m, Finished)
    else
      match restart_option (enable_resolution_restart a) a true m with
      | (m1, Finished) =>
          match restart_option (disable_resolution_restart a) a false m1 with
          | (m2, Finished) => interval_option a m2
          | stopped => stopped
          end
      | stopped => stopped
      end
  else (m, Finished).

End Settings.

End Main.

(** ** utils/resolution_detector.py: counting failed probes *)
Module ProbeFailures.

Import ResolutionDetector.



End ProbeFailures.

(** ** Shapes of traces *)
Module TraceShapes.

Import Engine.

(** A write of at least [buffer_size] bytes, or no write at all. *)
Definition full_block (e : event) : Prop :=
  match e with
  | EvWrite data => buffer_size ≤ Z.of_nat (length data)
  | _ => True
  end.

(** Every write hands over at least one byte, and at least [buffer_size]
    bytes unless it is the write that the flush follows. *)
Fixpoint writes_in_blocks (tr : list event) : Prop :=
  match tr with
  | [] => True
  | EvWrite data :: tr' =>
      data ≠ [] ∧
      (buffer_size ≤ Z.of_nat (length data) ∨ head tr' = Some EvFlush) ∧
      writes_in_blocks tr'
  | _ :: tr' => writes_in_blocks tr'
  end.

(** Where the files are opened in a trace: each right after its folder
    was made, and each but the one at position 1 right after a pause of
    two seconds. *)
Definition opens_after_pause (folder : string) (tr : list event) : Prop :=
  ∀ i p, tr !! i = Some (EvOpen p) →
    (1 ≤ i)%nat ∧ tr !! (i - 1)%nat = Some (EvMakedirs folder) ∧
    (i = 1%nat ∨ ((2 ≤ i)%nat ∧ tr !! (i - 2)%nat = Some (EvSleep 2))).

(** Conversions and uploads. *)
Definition post_processing (e : event) : Prop :=
  match e with
  | EvConvert _ | EvUpload _ => True
  | _ => False
  end.

(** The shape shared by all traces of a session that reaches the
    conversion. *)
Definition processed_once (telegram : bool) (output : string)
    (tr : list event) : Prop :=
  ∃ pre post,
    tr = pre ++ [EvConvert output]
             ++ (if telegram then [EvUpload output] else []) ++ post ∧
    Forall (fun e => ¬ post_processing e) pre ∧
    Forall (fun e => ¬ post_processing e) post.

(** The chunks taken from the source. *)
Definition chunks (tr : list event) : list (list byte) :=
  omap (fun e => match e with EvChunk data _ => Some data | _ => None end) tr.

End TraceShapes.

(** ** What follows a recording: conversion and upload *)
Module PostProcessing.

Import Engine.

(** What the calls made once the file is closed answer: each returns or
    raises. [utils/video_management.py] and [upload/telegram.py] are
    not among the sources, so nothing is known of what they raise. *)
Record post_script : Type := PostScript {
  ps_getsize : result unit;  (** [os.path.getsize(output)] *)
  ps_convert : result unit;  (** [VideoManagement.convert_flv_to_mp4(output)] *)
  ps_upload : result unit    (** [Telegram().upload(...)] *)
}.

(** No call raises. *)
Definition all_succeed : post_script :=
  {| ps_getsize := Ok (); ps_convert := Ok (); ps_upload := Ok () |}.

(** The block of [_start_recording_with_stop_event] between the update
    of the dashboard and the restart test:
    [try: convert; if use_telegram: upload; except Exception: log].
    Its two [import] statements name modules that [core/tiktok_recorder.py]
    has imported when it was loaded, so they find them and do not raise.
    The events are the calls made. The second component is [None] when
    the function goes on to the restart test, and [Some e] when [e]
    leaves the function. *)
Definition multi_post_processing (use_telegram : bool) (output : string)
    (ps : post_script) : list event * option exn :=
  match ps_convert ps with
  | Raise e =>
      ([EvConvert output], if is_Exception e then None else Some e)
  | Ok _ =>
      if use_telegram then
        match ps_upload ps with
        | Raise e =>
            ([EvConvert output; EvUpload output],
             if is_Exception e then None else Some e)
        | Ok _ => ([EvConvert output; EvUpload output], None)
        end
      else ([EvConvert output], None)
  end.

(** The statements of [start_recording] between
    [stop_monitoring()] and the restart test: the size of the file is
    read for the message, the file is converted and, if asked for,
    uploaded. There is no handler: the first call that raises leaves
    the function. *)
Definition single_post_processing (use_telegram : bool) (output : string)
    (ps : post_script) : list event * option exn :=
  match ps_getsize ps with
  | Raise e => ([], Some e)
  | Ok _ =>
      match ps_convert ps with
      | Raise e => ([EvConvert output], Some e)
      | Ok _ =>
          if use_telegram then
            match ps_upload ps with
            | Raise e => ([EvConvert output; EvUpload output], Some e)
            | Ok _ => ([EvConvert output; EvUpload output], None)
            end
          else ([EvConvert output], None)
      end
  end.

End PostProcessing.

(** ** core/multi_stream_recorder.py: the progress table and the dashboard *)
Module Dashboard.

Import Engine.

(** One element of [self.targets]: [(url, user, room_id)]. *)
Record target : Type := Target {
  t_url : option string;
  t_user : option string;
  t_room_id : option string
}.

(** The four texts that [status] is set to; the dashboard only asks which
    of the four marks a text contains. *)
Inductive status : Type := Waiting | Starting | Recording | Completed.

(** A value of [self.stream_progress]. *)
Record progress : Type := Progress {
  p_name : string;
  p_progress : Z;
  p_duration : Z;
  p_file_size : Q;
  p_status : status
}.

(** [user or url or f"Room {room_id}"] *)
Definition display_name (tg : target) : string :=
  if str_truthy (t_user tg) then default EmptyString (t_user tg)
  else if str_truthy (t_url tg) then default EmptyString (t_url tg)
  else "Room " +:+ fmt (t_room_id tg).

(** The entry made for a target before its thread is started. *)
Definition waiting (tg : target) : progress :=
  {| p_name := display_name tg; p_progress := 0; p_duration := 0;
     p_file_size := 0%Q; p_status := Waiting |}.

(** [d[k] = v] on a dictionary, which keeps the order in which its keys
    were first set. *)
Fixpoint dict_set {V} (k : string) (v : V) (d : list (string * V))
    : list (string * V) :=
  match d with
  | [] => [(k, v)]
  | (k', v') :: d' =>
      if String.eqb k k' then (k', v) :: d' else (k', v') :: dict_set k v d'
  end.

(** [enumerate(l)] *)
Definition enumerate {A} (l : list A) : list (nat * A) := imap pair l.

(** The loop of [run] that fills [self.stream_progress], starting from
    the empty dictionary of [__init__]. *)
Definition initial_progress (targets : list target)
    : list (string * progress) :=
  foldl (fun d it => dict_set (MultiStreamRecorder.stream_key it.1) (waiting it.2) d)
        [] (enumerate targets).

(** [range(start, stop, step)] for a positive step; [fuel] bounds the
    number of elements. *)
Fixpoint range_from (fuel start stop step : nat) : list nat :=
  match fuel with
  | O => []
  | S fuel' =>
      if (start <? stop)%nat
      then start :: range_from fuel' (start + step) stop step
      else []
  end.

(** [max(2, min(4, terminal_width // 35))] *)
Definition columns_per_row (terminal_width : Z) : nat :=
  Z.to_nat (Z.max 2 (Z.min 4 (terminal_width / 35))).

(** [[items[i:i + c] for i in range(0, len(items), c)]] *)
Definition rows {A} (terminal_width : Z) (items : list A) : list (list A) :=
  let c := columns_per_row terminal_width in
  (fun i => take c (drop i items)) <$> range_from (length items) 0 (length items) c.

(** [f"{n:02d}"] for an integer: at least two characters, padded with
    zeros; the sign of a negative number is one of them. *)
Definition fmt_02d (n : Z) : string :=
  if n <? 0 then "-" +:+ dec (Z.to_nat (- n)) else two_digits (Z.to_nat n).

(** A digit or the sign. *)
Definition numeral_char (c : ascii) : Prop := is_digit c = true ∨ c = "-"%char.

(** [hours = duration // 3600], [minutes = (duration % 3600) // 60],
    [seconds = duration % 60] and
    [f"{hours:02d}:{minutes:02d}:{seconds:02d}"], as all three displays
    compute it. *)
Definition duration_str (duration : Z) : string :=
  let hours := duration / 3600 in
  let minutes := (duration mod 3600) / 60 in
  let seconds := duration mod 60 in
  fmt_02d hours +:+ ":" +:+ fmt_02d minutes +:+ ":" +:+ fmt_02d seconds.

End Dashboard.

(** ** utils/args_handler.py *)
Module ArgsHandler.

Import Engine.

(** What [parse_args] returns, as far as the validation reads it. The
    mode and the interval always have a value: their defaults are
    ["manual"] and 5. *)
Record args : Type := Args {
  url : option string;
  user : option string;
  room_id : option string;
  urls : option (list string);
  users : option (list string);
  users_file : option string;
  room_ids : option (list string);
  mode : string;
  automatic_interval : Z
}.

(** The messages of [ArgsParseError], by the check that raises them. *)
Inductive refusal : Type :=
| MissingTarget
| MixedSingleAndMulti
| SeveralMultiKinds
| SeveralSingleKinds
| NotALiveUrl
| NotALiveUrlAmong (url : string)
| MissingMode
| IncorrectMode
| IncorrectInterval.

Inductive validated : Type :=
| Accepted (a : args) (m : Engine.mode)
| Refused (why : refusal).

(** [s[1:] if s.startswith('@') else s] *)
Definition strip_at (s : string) : string :=
  match s with
  | String "@" rest => rest
  | _ => s
  end.

Definition set_user (a : args) (u : option string) : args :=
  {| url := url a; user := u; room_id := room_id a; urls := urls a;
     users := users a; users_file := users_file a; room_ids := room_ids a;
     mode := mode a; automatic_interval := automatic_interval a |}.

Definition set_users (a : args) (us : option (list string)) : args :=
  {| url := url a; user := user a; room_id := room_id a; urls := urls a;
     users := us; users_file := users_file a; room_ids := room_ids a;
     mode := mode a; automatic_interval := automatic_interval a |}.

(** [sum(1 for arg in [x, y] if arg is not None)] *)
Definition count_given {A B} (x : option A) (y : option B) : nat :=
  ((match x with Some _ => 1 | None => 0 end)
   + (match y with Some _ => 1 | None => 0 end))%nat.

Section Validation.

(** [re.match(str(Regex.IS_TIKTOK_LIVE), url)] as a truth value; the
    pattern is declared in [utils/enums.py]. *)
Variable is_tiktok_live : string → bool.

(** The first URL of the list that does not match. *)
Definition first_bad_url (l : list string) : option string :=
  head (filter (fun u => is_tiktok_live u = false) l).

Definition validate_and_parse_args (a : args) : validated :=
  let single_stream_provided :=
    str_truthy (user a) || str_truthy (room_id a) || str_truthy (url a) in
  let multi_stream_provided :=
    Main.list_truthy (users a) || Main.list_truthy (room_ids a)
    || Main.list_truthy (urls a) || str_truthy (users_file a) in
  if negb single_stream_provided && negb multi_stream_provided
  then Refused MissingTarget
  else if single_stream_provided && multi_stream_provided
  then Refused MixedSingleAndMulti
  else
    let exclusive_count := count_given (urls a) (room_ids a) in
    let user_count := count_given (users a) (users_file a) in
    if multi_stream_provided
       && ((1 <? exclusive_count)%nat
           || ((0 <? exclusive_count)%nat && (0 <? user_count)%nat))
    then Refused SeveralMultiKinds
    else
      (* single stream *)
      let a1 :=
        if single_stream_provided && str_truthy (user a)
        then set_user a (strip_at <$> user a)
        else a in
      if single_stream_provided
         && ((str_truthy (user a1) && str_truthy (room_id a1))
             || (str_truthy (user a1) && str_truthy (url a1))
             || (str_truthy (room_id a1) && str_truthy (url a1)))
      then Refused SeveralSingleKinds
      else if single_stream_provided && str_truthy (url a1)
              && negb (is_tiktok_live (default EmptyString (url a1)))
      then Refused NotALiveUrl
      else
        (* multi stream *)
        let a2 :=
          if multi_stream_provided && Main.list_truthy (users a1)
          then set_users a1 ((fun us : list string => strip_at <$> us) <$> users a1)
          else a1 in
        match
          (if multi_stream_provided && Main.list_truthy (urls a2)
           then first_bad_url (default [] (urls a2))
           else None)
        with
        | Some bad => Refused (NotALiveUrlAmong bad)
        | None =>
            if String.eqb (mode a2) EmptyString then Refused MissingMode
            else if negb (String.eqb (mode a2) "manual"
                          || String.eqb (mode a2) "automatic")
            then Refused IncorrectMode
            else if automatic_interval a2 <? 1 then Refused IncorrectInterval
            else Accepted a2 (if String.eqb (mode a2) "manual"
                              then Manual else Automatic)
        end.

End Validation.

End ArgsHandler.

(** ** core/tiktok_recorder.py: building a recorder *)
Module RecorderInit.

Import ConfigManager Engine.

(** What the platform client answers during [__init__]. *)
Record platform : Type := Platform {
  is_country_blacklisted : result bool;
  get_room_and_user_from_url : string → result (option string * option string);
  get_user_from_room_id : option string → result (option string);
  get_room_id_from_user : option string → result (option string);
  get_live_url : option string → result (option string)
}.

(** How [__init__] ends when it does not return a recorder: with one of
    the two [TikTokException]s of [check_country_blacklisted], or with
    what a call of the client raised. *)
Inductive init_error : Type :=
| CountryBlacklisted
| CountryBlacklistedAutoMode
| ClientRaised (e : exn).

Inductive built : Type :=
| Built (r : TikTokRecorder.recorder)
| Failed (why : init_error).

(** [check_country_blacklisted]; [None] stands for a normal return. *)
Definition check_country_blacklisted (p : platform) (room_id : option string)
    (m : mode) : option init_error :=
  match is_country_blacklisted p with
  | Raise e => Some (ClientRaised e)
  | Ok false => None
  | Ok true =>
      match room_id with
      | None => Some CountryBlacklisted
      | Some _ =>
          match m with
          | Automatic => Some CountryBlacklistedAutoMode
          | Manual => None
          end
      end
  end.

(** The user and the room that [__init__] settles on. *)
Definition resolve_target (p : platform) (url user room_id : option string)
    : result (option string * option string) :=
  '(user, room_id) ←
    (if str_truthy url
     then '(u, r) ← get_room_and_user_from_url p (default EmptyString url);
          Ok (u, r)
     else Ok (user, room_id));
  user ← (if negb (str_truthy user)
          then get_user_from_room_id p room_id else Ok user);
  room_id ← (if negb (str_truthy room_id)
             then get_room_id_from_user p user else Ok room_id);
  Ok (user, room_id).

(** [TikTokRecorder.__init__] *)
Definition __init__ (p : platform) (url user room_id : option string)
    (m : mode) (automatic_interval : Z) (output : option string)
    (duration : option Z) (use_telegram nt : bool) (file : config_file)
    : built :=
  match check_country_blacklisted p room_id m with
  | Some why => Failed why
  | None =>
      match resolve_target p url user room_id with
      | Raise e => Failed (ClientRaised e)
      | Ok (user, room_id) =>
          match get_live_url p room_id with
          | Raise e => Failed (ClientRaised e)
          | Ok live_url =>
              Built (TikTokRecorder.init user room_id m automatic_interval
                       output duration use_telegram nt file live_url)
          end
      end
  end.

End RecorderInit.

(** ** utils/colors.py: boxes *)
Module VisualUtils.

(** A Python string as the list of its code points, so that [len] is
    [length]. *)
Definition pystr : Type := list N.

Definition newline : N := 10.
Definition space : N := 32.

(** The box drawing characters of [create_box]. *)
Definition horizontal : N := 9472.     (* U+2500 *)
Definition vertical : N := 9474.       (* U+2502 *)
Definition top_left : N := 9484.       (* U+250C *)
Definition top_right : N := 9488.      (* U+2510 *)
Definition bottom_left : N := 9492.    (* U+2514 *)
Definition bottom_right : N := 9496.   (* U+2518 *)

(** [Colors.RESET], the four characters [ESC [ 0 m]. *)
Definition RESET : pystr := [27; 91; 48; 109]%N.

(** [Colors.colorize] *)
Definition colorize (text color : pystr) : pystr := color ++ text ++ RESET.

(** [text.split('\n')] *)
Fixpoint split_lines (text : pystr) : list pystr :=
  match text with
  | [] => [[]]
  | c :: rest =>
      if (c =? newline)%N then [] :: split_lines rest
      else
        match split_lines rest with
        | line :: lines => (c :: line) :: lines
        | [] => [[c]]
        end
  end.

(** ['\n'.join(lines)] *)
Fixpoint join_lines (lines : list pystr) : pystr :=
  match lines with
  | [] => []
  | [line] => line
  | line :: lines' => line ++ newline :: join_lines lines'
  end.

(** [c * n] for a one-character string: empty when [n] is not positive. *)
Definition times (c : N) (n : Z) : pystr := replicate (Z.to_nat n) c.

(** [line.ljust(width)] *)
Definition ljust (line : pystr) (width : nat) : pystr :=
  line ++ replicate (width - length line) space.

(** [max(len(line) for line in lines) if lines else 0] *)
Definition max_length (lines : list pystr) : nat :=
  foldr (fun line m => Nat.max (length line) m) 0%nat lines.

(** [if border_color:] *)
Definition color_truthy (border_color : option pystr) : bool :=
  match border_color with
  | Some (_ :: _) => true
  | _ => false
  end.

Definition bordered (border_color : option pystr) (line : pystr) : pystr :=
  if color_truthy border_color
  then colorize line (default [] border_color)
  else line.

(** The list that [create_box] joins: the top border, one line for each
    line of the text, the bottom border. *)
Definition box_lines (text : pystr) (padding : Z)
    (border_color : option pystr) : list pystr :=
  let lines := split_lines text in
  let max_length := max_length lines in
  let box_width := Z.of_nat max_length + padding * 2 + 2 in
  let top := [top_left] ++ times horizontal (box_width - 2) ++ [top_right] in
  let content_lines :=
    (fun line => bordered border_color
                   ([vertical] ++ times space padding ++ ljust line max_length
                    ++ times space padding ++ [vertical])) <$> lines in
  let bottom :=
    [bottom_left] ++ times horizontal (box_width - 2) ++ [bottom_right] in
  [bordered border_color top] ++ content_lines ++ [bordered border_color bottom].

(** [VisualUtils.create_box] *)
Definition create_box (text : pystr) (padding : Z)
    (border_color : option pystr) : pystr :=
  join_lines (box_lines text padding border_color).

End VisualUtils.

(** ** Further concrete inputs *)
Module Examples.

(** Both restart options given as [user] for one user. *)
Definition enable_and_disable : Main.args :=
  {| Main.a_user := Some "alice"; Main.a_room_id := None;
     Main.a_users := None; Main.a_room_ids := None;
     Main.enable_resolution_restart := Some "user";
     Main.disable_resolution_restart := Some "user";
     Main.resolution_check_interval := None |}.

(** The restart switched on for a list of users. *)
Definition enable_for_users : Main.args :=
  {| Main.a_user := None; Main.a_room_id := None;
     Main.a_users := Some ["alice"; "bob"]; Main.a_room_ids := None;
     Main.enable_resolution_restart := Some "user";
     Main.disable_resolution_restart := None;
     Main.resolution_check_interval := None |}.

(** The restart switched on together with an interval of 0 seconds. *)
Definition enable_with_bad_interval : Main.args :=
  {| Main.a_user := Some "alice"; Main.a_room_id := None;
     Main.a_users := None; Main.a_room_ids := None;
     Main.enable_resolution_restart := Some "user";
     Main.disable_resolution_restart := None;
     Main.resolution_check_interval := Some 0 |}.

(** A user name written with its [@], automatic mode. *)
Definition user_with_at : ArgsHandler.args :=
  {| ArgsHandler.url := None; ArgsHandler.user := Some "@alice";
     ArgsHandler.room_id := None; ArgsHandler.urls := None;
     ArgsHandler.users := None; ArgsHandler.users_file := None;
     ArgsHandler.room_ids := None;
     ArgsHandler.mode := "automatic"; ArgsHandler.automatic_interval := 5 |}.

(** A platform that reports the country as blocked and knows the
    target. *)
Definition blocked_platform : RecorderInit.platform :=
  {| RecorderInit.is_country_blacklisted := Ok true;
     RecorderInit.get_room_and_user_from_url :=
       fun _ => Ok (Some "alice", Some "7318");
     RecorderInit.get_user_from_room_id := fun _ => Ok (Some "alice");
     RecorderInit.get_room_id_from_user := fun _ => Ok (Some "7318");
     RecorderInit.get_live_url := fun _ => Ok (Some Scenarios.pull_url) |}.

End Examples.

(** * Properties

    Everything above is definitions; everything below is proved about
    them. Supporting lemmas come first, grouped by the module they are
    about; the statements about the specification follow, in the order of
    its claims. *)

Module ConfigFacts.
Import ConfigManager.

Lemma get_user_setting_spec c user setting dflt :
  get_user_setting c user setting dflt =
  default (global_default c setting dflt) (user_override c (Some user) setting).
Proof.
  unfold get_user_setting, user_override, global_default.
  destruct c as [d us rs]; simpl.
  destruct us as [us|]; simpl.
  - destruct (us !! user) as [m|] eqn:E; simpl.
    + destruct (m !! setting); simpl; [done|]. by destruct d.
    + rewrite lookup_empty. by destruct d.
  - rewrite !lookup_empty. by destruct d.
Qed.

Lemma get_room_setting_spec c room setting dflt :
  get_room_setting c room setting dflt =
  default (global_default c setting dflt) (room_override c (Some room) setting).
Proof.
  unfold get_room_setting, room_override, global_default.
  destruct c as [d us rs]; simpl.
  destruct rs as [rs|]; simpl.
  - destruct (rs !! room) as [m|] eqn:E; simpl.
    + destruct (m !! setting); simpl; [done|]. by destruct d.
    + rewrite lookup_empty. by destruct d.
  - rewrite !lookup_empty. by destruct d.
Qed.

Lemma lookup_setting_spec c user room setting dflt :
  lookup_setting c user room setting dflt =
  if str_truthy user then
    default (global_default c setting dflt) (user_override c user setting)
  else if str_truthy room then
    default (global_default c setting dflt) (room_override c room setting)
  else global_default c setting dflt.
Proof.
  unfold lookup_setting.
  destruct user as [u|]; simpl.
  - destruct (negb _); [apply get_user_setting_spec|].
    destruct room as [r|]; simpl.
    + destruct (negb _); [apply get_room_setting_spec|].
      unfold global_default. by destruct (c_default c).
    + unfold global_default. by destruct (c_default c).
  - destruct room as [r|]; simpl.
    + destruct (negb _); [apply get_room_setting_spec|].
      unfold global_default. by destruct (c_default c).
    + unfold global_default. by destruct (c_default c).
Qed.

End ConfigFacts.

Module DetectorFacts.
Import ResolutionDetector.







Section WithParser.
Variable int_of_str : string → option Z.





Lemma loop_body_first d n o r :
  get_current_resolution int_of_str o = Ok (Some r) →
  current_resolution d = None →
  loop_body int_of_str d n o = (set_current d (Some r), 0%nat, false).
Proof. intros Ho Hd. unfold loop_body. by rewrite Ho, Hd. Qed.

Lemma loop_body_same d n o r :
  get_current_resolution int_of_str o = Ok (Some r) →
  current_resolution d = Some r →
  loop_body int_of_str d n o = (d, 0%nat, false).
Proof.
  intros Ho Hd. unfold loop_body. rewrite Ho, Hd.
  rewrite bool_decide_eq_false_2; [done|]. intros H; by apply H.
Qed.

Lemma loop_body_change d n o old r :
  get_current_resolution int_of_str o = Ok (Some r) →
  current_resolution d = Some old → r ≠ old →
  loop_body int_of_str d n o = (fire (set_current d (Some r)) old r, 0%nat, false).
Proof.
  intros Ho Hd Hne. unfold loop_body. rewrite Ho, Hd.
  by rewrite bool_decide_eq_true_2.
Qed.

Lemma loop_body_failure d n o :
  get_current_resolution int_of_str o = Ok None →
  loop_body int_of_str d n o =
    (d, S n, bool_decide (max_consecutive_failures ≤ S n)%nat).
Proof. intros Ho. unfold loop_body. by rewrite Ho. Qed.

Lemma monitor_iterations_calls probes : ∀ d n,
  let r := monitor_iterations int_of_str probes d n in
  (r.2 ≤ length probes)%nat ∧
  calls r.1 = calls d ++
    spec_calls (current_resolution d) (successes int_of_str (take r.2 probes)) ∧
  current_resolution r.1 =
    spec_baseline (current_resolution d) (successes int_of_str (take r.2 probes)).
Proof.
  induction probes as [|o probes IH]; intros d n; simpl.
  { split; [lia|]. split; [by rewrite app_nil_r|done]. }
  destruct (get_current_resolution int_of_str o) as [[r|]|e] eqn:Ho.
  - destruct (current_resolution d) as [old|] eqn:Hd.
    + destruct (decide (r = old)) as [->|Hne].
      * rewrite (loop_body_same d n o old Ho Hd).
        specialize (IH d 0%nat).
        destruct (monitor_iterations int_of_str probes d 0) as [d' k]; simpl in *.
        unfold successes in *; simpl. rewrite Ho; simpl.
        rewrite bool_decide_eq_true_2 by done.
        rewrite Hd in IH. destruct IH as (? & ? & ?). split; [lia|done].
      * rewrite (loop_body_change d n o old r Ho Hd Hne).
        specialize (IH (fire (set_current d (Some r)) old r) 0%nat).
        destruct (monitor_iterations int_of_str probes _ 0) as [d' k]; simpl in *.
        unfold successes in *; simpl. rewrite Ho; simpl.
        rewrite bool_decide_eq_false_2 by congruence.
        destruct IH as (? & -> & ->). split; [lia|].
        split; [by rewrite <- app_assoc|done].
    + rewrite (loop_body_first d n o r Ho Hd).
      specialize (IH (set_current d (Some r)) 0%nat).
      destruct (monitor_iterations int_of_str probes _ 0) as [d' k]; simpl in *.
      unfold successes in *; simpl. rewrite Ho; simpl.
      destruct IH as (? & -> & ->). split; [lia|done].
  - rewrite (loop_body_failure d n o Ho).
    destruct (bool_decide _); simpl.
    + unfold successes; simpl. rewrite Ho; simpl.
      split; [lia|]. split; [by rewrite app_nil_r|done].
    + specialize (IH d (S n)).
      destruct (monitor_iterations int_of_str probes d (S n)) as [d' k]; simpl in *.
      unfold successes in *; simpl. rewrite Ho; simpl.
      destruct IH as (? & ? & ?). split; [lia|done].
  - unfold loop_body. rewrite Ho. simpl.
    unfold successes; simpl. rewrite Ho; simpl.
    split; [lia|]. split; [by rewrite app_nil_r|done].
Qed.

Lemma example_loop :
  calls (_monitor_loop int_of_str
           [probe_ok 1280 720; probe_ok 1280 720; probe_ok 1920 1080; probe_ok 1920 1080]
           (new_detector "u" (VInt 5))).1 = [(r720p, r1080p)].
Proof. reflexivity. Qed.

Lemma example_monitor :
  calls (monitor int_of_str (new_detector "u" (VInt 5)) (probe_ok 1280 720)
           [probe_ok 1280 720; probe_ok 1920 1080; probe_ok 1920 1080]).1
  = [(r720p, r1080p)].
Proof. reflexivity. Qed.



Lemma thread_rest_not_monitoring d ph :
  ph ≠ Exited → is_monitoring (thread_rest int_of_str d ph).1 = false.
Proof.
  destruct ph as [|rem o n|]; simpl; [done| |done]. intros _.
  by destruct (loop_body int_of_str d n o) as [[d' ?] ?].
Qed.








Lemma stop_late :
  (stop_monitoring int_of_str watching (Probing 8000 (probe_ok 1920 1080) 0)).2
  = [Returns; Callback r720p r1080p; LoopExit].
Proof. reflexivity. Qed.

End WithParser.
End DetectorFacts.

Module StringFacts.
Import Engine.

Lemma chars_app a b : chars (a +:+ b) = chars a ++ chars b.
Proof. induction a as [|c a IH]; [done|]. cbn. by rewrite <- IH. Qed.

Lemma chars_inj a b : chars a = chars b → a = b.
Proof.
  intros H. rewrite <- (string_of_list_ascii_of_string a),
    <- (string_of_list_ascii_of_string b). by rewrite H.
Qed.

(** Splitting at the first occurrence of a separator. *)
Lemma first_sep {A} (c : A) x1 : ∀ x2 y1 y2,
  c ∉ x1 → c ∉ x2 → x1 ++ c :: y1 = x2 ++ c :: y2 → x1 = x2 ∧ y1 = y2.
Proof.
  induction x1 as [|a x1 IH]; intros [|b x2] y1 y2 H1 H2 E; simpl in *.
  - by injection E.
  - injection E as -> _. exfalso. apply H2. left.
  - injection E as -> _. exfalso. apply H1. left.
  - injection E as -> E.
    destruct (IH x2 y1 y2) as [-> ->]; [| |done|done].
    + intros ?. apply H1. by right.
    + intros ?. apply H2. by right.
Qed.

(** Splitting at the last occurrence of a separator. *)
Lemma last_sep {A} (c : A) x1 x2 y1 y2 :
  c ∉ y1 → c ∉ y2 → x1 ++ c :: y1 = x2 ++ c :: y2 → x1 = x2 ∧ y1 = y2.
Proof.
  intros H1 H2 E. apply (f_equal reverse) in E.
  rewrite !reverse_app, !reverse_cons, <- !app_assoc in E. simpl in E.
  apply first_sep in E as [E1 E2].
  - split; [by apply (inj reverse)|by apply (inj reverse)].
  - by rewrite elem_of_reverse.
  - by rewrite elem_of_reverse.
Qed.

Lemma digits_string_of_uint d :
  Forall (fun c => is_digit c = true) (chars (NilEmpty.string_of_uint d)).
Proof. induction d; simpl; constructor; done. Qed.

Lemma digits_dec n : Forall (fun c => is_digit c = true) (chars (dec n)).
Proof. apply digits_string_of_uint. Qed.

Lemma digits_two_digits n :
  Forall (fun c => is_digit c = true) (chars (two_digits n)).
Proof.
  unfold two_digits. destruct (n <? 10)%nat; [|apply digits_dec].
  rewrite chars_app. apply Forall_app. split; [|apply digits_dec].
  by repeat constructor.
Qed.

Lemma not_digit_not_in c l :
  is_digit c = false → Forall (fun c => is_digit c = true) l → c ∉ l.
Proof.
  intros Hc Hl Hin. rewrite Forall_forall in Hl.
  specialize (Hl c Hin). congruence.
Qed.

Lemma parse_dec n : parse (dec n) = Some n.
Proof.
  unfold parse, dec. rewrite NilEmpty.usu. simpl.
  by rewrite DecimalNat.Unsigned.of_to.
Qed.

Lemma dec_inj n m : dec n = dec m → n = m.
Proof.
  intros H. apply (f_equal parse) in H. rewrite !parse_dec in H. congruence.
Qed.

Lemma parse_two_digits n : parse (two_digits n) = Some n.
Proof.
  unfold two_digits. destruct (n <? 10)%nat; [|apply parse_dec].
  unfold parse, dec.
  change ("0" +:+ NilEmpty.string_of_uint (Nat.to_uint n))
    with (String "0" (NilEmpty.string_of_uint (Nat.to_uint n))).
  cbn [NilEmpty.uint_of_string]. rewrite NilEmpty.usu. cbn.
  f_equal. apply DecimalNat.Unsigned.of_to.
Qed.

Lemma two_digits_inj n m : two_digits n = two_digits m → n = m.
Proof.
  intros H. apply (f_equal parse) in H. rewrite !parse_two_digits in H.
  congruence.
Qed.

Lemma strftime_inj t1 t2 : strftime t1 = strftime t2 → t1 = t2.
Proof.
  destruct t1 as [y1 m1 d1 h1 i1 s1], t2 as [y2 m2 d2 h2 i2 s2].
  unfold strftime; simpl. intros H.
  apply (f_equal chars) in H. rewrite !chars_app in H. simpl in H.
  apply first_sep in H as [Hy H];
    [|by apply not_digit_not_in; [|apply digits_dec]..].
  apply first_sep in H as [Hm H];
    [|by apply not_digit_not_in; [|apply digits_two_digits]..].
  apply first_sep in H as [Hd H];
    [|by apply not_digit_not_in; [|apply digits_two_digits]..].
  apply first_sep in H as [Hh H];
    [|by apply not_digit_not_in; [|apply digits_two_digits]..].
  apply first_sep in H as [Hi Hs];
    [|by apply not_digit_not_in; [|apply digits_two_digits]..].
  apply chars_inj, dec_inj in Hy.
  apply chars_inj, two_digits_inj in Hm, Hd, Hh, Hi, Hs.
  by subst.
Qed.

Lemma output_path_date_inj nt out user d1 d2 sfx :
  output_path nt out user d1 sfx = output_path nt out user d2 sfx → d1 = d2.
Proof.
  unfold output_path. intros H.
  do 4 apply (inj (String.app _)) in H.
  apply (f_equal chars) in H. rewrite !chars_app in H.
  apply app_inv_tail in H. by apply chars_inj.
Qed.

Lemma output_path_stream_inj nt1 nt2 out1 out2 u1 u2 d1 d2 n i j :
  (1 < n)%nat →
  output_path nt1 out1 u1 d1 (MultiStreamRecorder.output_suffix n (MultiStreamRecorder.stream_key i)) =
  output_path nt2 out2 u2 d2 (MultiStreamRecorder.output_suffix n (MultiStreamRecorder.stream_key j)) →
  i = j.
Proof.
  intros Hn. unfold output_path, MultiStreamRecorder.output_suffix, MultiStreamRecorder.stream_key.
  apply Nat.ltb_lt in Hn. rewrite Hn. intros H.
  apply (f_equal chars) in H. rewrite !chars_app in H.
  rewrite !app_assoc in H. apply app_inv_tail in H.
  rewrite <- !app_assoc in H.
  change (chars "Stream-") with (chars "Stream" ++ ["-"%char]) in H.
  rewrite !app_assoc in H.
  rewrite <- !(app_assoc _ ["-"%char]) in H. simpl in H.
  apply last_sep in H as [_ H];
    [|by apply not_digit_not_in; [|apply digits_dec]..].
  apply chars_inj, dec_inj in H. lia.
Qed.

End StringFacts.

Module TraceFacts.
Import Engine.

Lemma written_app a b : written (a ++ b) = written a ++ written b.
Proof.
  induction a as [|e a IH]; [done|].
  destruct e; simpl; rewrite ?IH, ?app_assoc; done.
Qed.

Lemma received_app a b : received (a ++ b) = received a ++ received b.
Proof.
  induction a as [|e a IH]; [done|].
  destruct e; simpl; rewrite ?IH, ?app_assoc; done.
Qed.

Lemma received_running_app a b :
  received_running (a ++ b) = received_running a ++ received_running b.
Proof.
  induction a as [|e a IH]; [done|].
  destruct e as [| | | | | | | |data []| | | |]; simpl; rewrite ?IH, ?app_assoc; done.
Qed.

Lemma written_before_close_app a b :
  Forall loop_event a →
  written_before_close (a ++ b) = written a ++ written_before_close b.
Proof.
  induction 1 as [|e a He _ IH]; [done|].
  destruct e; simpl in *; rewrite ?IH, ?app_assoc; done.
Qed.

Lemma written_finally buffer : written (finally buffer) = buffer.
Proof. unfold finally. case_bool_decide; subst; simpl; by rewrite ?app_nil_r. Qed.

Lemma received_running_finally buffer : received_running (finally buffer) = [].
Proof. unfold finally. case_bool_decide; done. Qed.

Lemma received_finally buffer : received (finally buffer) = [].
Proof. unfold finally. case_bool_decide; done. Qed.

Lemma loop_event_finally buffer : Forall loop_event (finally buffer).
Proof. unfold finally. case_bool_decide; repeat constructor. Qed.

Lemma downloads_finally buffer : downloads (finally buffer) = [].
Proof. unfold finally. case_bool_decide; done. Qed.

Lemma downloads_app a b : downloads (a ++ b) = downloads a ++ downloads b.
Proof. apply omap_app. Qed.

Lemma opened_app a b : opened (a ++ b) = opened a ++ opened b.
Proof. apply omap_app. Qed.

Lemma sleeps_app a b : sleeps (a ++ b) = sleeps a ++ sleeps b.
Proof. apply omap_app. Qed.

Lemma opened_loop ev : Forall loop_event ev → opened ev = [].
Proof. induction 1 as [|e ev He _ IH]; [done|]. by destruct e. Qed.

Lemma index_of_app_in e a b i :
  index_of e a = Some i → index_of e (a ++ b) = Some i.
Proof.
  revert i. induction a as [|x a IH]; intros i; simpl; [done|].
  case_decide; [done|].
  destruct (index_of e a) as [k|]; simpl; [|done].
  intros [= <-]. by rewrite (IH k).
Qed.

Lemma index_of_app_notin e a b :
  e ∉ a → index_of e (a ++ b) = (λ i, length a + i)%nat <$> index_of e b.
Proof.
  induction a as [|x a IH]; intros H; simpl.
  - by destruct (index_of e b).
  - case_decide as Hx; [subst; exfalso; apply H; left|].
    rewrite IH. 2:{ intros ?. apply H. by right. }
    by destruct (index_of e b).
Qed.

Lemma loop_event_notin e ev :
  ¬ loop_event e → Forall loop_event ev → e ∉ ev.
Proof.
  intros He Hev Hin. rewrite Forall_forall in Hev. by apply He, Hev.
Qed.
End TraceFacts.

Module MultiFacts.
Import ConfigManager Engine MultiStreamRecorder TraceFacts.

Lemma multi_for_chunks_spec re dur steps e : ∀ buf rr,
  let '(b', rr', ev, x) := for_chunks re dur steps e buf rr in
  buf ++ received_running ev = written ev ++ b' ∧
  Forall loop_event ev ∧ downloads ev = [] ∧ sleeps ev = [] ∧
  (rr = true → rr' = true) ∧
  (∀ why, x = ForBreak why →
     why = Cancelled ∨ why = DurationReached ∨ why = RestartRequested) ∧
  (∀ e', x = ForRaise e' → e = Some e').
Proof.
  induction steps as [|c steps IH]; intros buf rr; simpl.
  { rewrite app_nil_r. split_and!; try done.
    - by destruct e.
    - destruct e; [by intros e' [= <-]|done]. }
  destruct (cs_stop c) eqn:Hstop.
  { simpl. rewrite app_nil_r. split_and!; try done.
    - by repeat constructor.
    - intros ->. done.
    - intros why [= <-]. auto. }
  set (rr1 := rr || cs_changed c && re).
  assert (rr = true → rr1 = true) as Hrr by (intros ->; done).
  destruct (buffer_size <=? Z.of_nat (length (buf ++ cs_data c))) eqn:Hfull.
  - destruct (duration_reached dur (cs_elapsed c)).
    { simpl. rewrite !app_nil_r. split_and!; try done.
      - by repeat constructor.
      - intros why [= <-]. auto. }
    destruct rr1 eqn:Hrr1.
    { simpl. rewrite !app_nil_r. split_and!; try done.
      - by repeat constructor.
      - intros why [= <-]. auto. }
    specialize (IH [] false).
    destruct (for_chunks re dur steps e [] false) as [[[b' rr'] ev] x].
    destruct IH as (Hb & Hev & Hd & Hs & _ & Hx & Hr). simpl in *.
    rewrite Hd, Hs. split_and!; try done.
    + rewrite Hb. by rewrite <- !app_assoc.
    + by repeat constructor.
    + intros Ht. by apply Hrr in Ht.
  - destruct (duration_reached dur (cs_elapsed c)).
    { simpl. rewrite !app_nil_r. split_and!; try done.
      - by repeat constructor.
      - intros why [= <-]. auto. }
    destruct rr1 eqn:Hrr1.
    { simpl. rewrite !app_nil_r. split_and!; try done.
      - by repeat constructor.
      - intros why [= <-]. auto. }
    specialize (IH (buf ++ cs_data c) false).
    destruct (for_chunks re dur steps e (buf ++ cs_data c) false) as [[[b' rr'] ev] x].
    destruct IH as (Hb & Hev & Hd & Hs & _ & Hx & Hr). simpl in *.
    rewrite Hd, Hs. split_and!; try done.
    + rewrite <- Hb. by rewrite <- !app_assoc.
    + by repeat constructor.
    + intros Ht. by apply Hrr in Ht.
Qed.

Lemma multi_streaming_loop_spec re dur url its : ∀ rr,
  let '(rr', ev, why) := streaming_loop re dur url its [] rr in
  written ev = received_running ev ∧
  Forall loop_event ev ∧ Forall (eq url) (downloads ev) ∧ sleeps ev = [] ∧
  (∀ e, why = Propagated e → is_Exception e = false) ∧
  (rr = true → rr' = true).
Proof.
  induction its as [|it its IH]; intros rr; simpl.
  { split_and!; try done. }
  destruct (it_stop it). { split_and!; try done. }
  destruct (it_alive it) as [[|]|x].
  - pose proof (multi_for_chunks_spec re dur (it_stream it) (it_end it) [] rr) as Hf.
    destruct (for_chunks re dur (it_stream it) (it_end it) [] rr)
      as [[[b' rr1] ev] x].
    destruct Hf as (Hb & Hev & Hd & Hs & Hrr & Hx & Hr). simpl in Hb.
    assert (written (ev ++ finally b') = received_running (ev ++ finally b')) as Hw.
    { by rewrite written_app, received_running_app, written_finally,
        received_running_finally, app_nil_r. }
    assert (Forall loop_event (ev ++ finally b')) as Hl.
    { apply Forall_app. split; [done|apply loop_event_finally]. }
    assert (downloads (ev ++ finally b') = []) as Hdl.
    { by rewrite downloads_app, Hd, downloads_finally. }
    assert (sleeps (ev ++ finally b') = []) as Hsl.
    { rewrite sleeps_app, Hs. unfold finally. by case_bool_decide. }
    destruct x as [|why|e].
    + specialize (IH rr1).
      destruct (streaming_loop re dur url its [] rr1) as [[rr' ev'] why].
      destruct IH as (Hw' & Hl' & Hd' & Hs' & Hp' & Hrr').
      split_and!.
      * simpl. by rewrite written_app, received_running_app, Hw, Hw'.
      * constructor; [done|]. apply Forall_app; split; [done|done].
      * simpl. rewrite downloads_app, Hdl. simpl. by constructor.
      * simpl. rewrite sleeps_app, Hsl. done.
      * done.
      * intros Ht. apply Hrr', Hrr, Ht.
    + split_and!; try done.
      * by constructor.
      * simpl. rewrite Hdl. by constructor.
      * intros e ->. by destruct (Hx _ eq_refl) as [?|[?|?]].
    + split_and!; try done.
      * by constructor.
      * simpl. rewrite Hdl. by constructor.
      * destruct (is_Exception e) eqn:He; intros e' [= <-]; done.
  - split_and!; try done; by repeat constructor.
  - split_and!; try done; try (by repeat constructor).
    destruct (is_Exception x) eqn:He; intros e' [= <-]; done.
Qed.

Lemma multi_streaming_loop_catches re dur url its : ∀ rr,
  Forall (fun it =>
            (∀ e, it_alive it = Raise e → is_Exception e = true) ∧
            (∀ e, it_end it = Some e → is_Exception e = true)) its →
  ∀ e, (streaming_loop re dur url its [] rr).2 ≠ Propagated e.
Proof.
  induction its as [|it its IH]; intros rr Hits e; simpl; [done|].
  apply Forall_cons in Hits as [[Ha He] Hits].
  destruct (it_stop it); [done|].
  destruct (it_alive it) as [[|]|x] eqn:Hal; simpl.
  - pose proof (multi_for_chunks_spec re dur (it_stream it) (it_end it) [] rr) as Hf.
    destruct (for_chunks re dur (it_stream it) (it_end it) [] rr)
      as [[[b' rr1] ev] x] eqn:Hfc.
    destruct Hf as (_ & _ & _ & _ & _ & Hx & Hr).
    destruct x as [|why|e'].
    + specialize (IH rr1 Hits e).
      by destruct (streaming_loop re dur url its [] rr1) as [[rr' ev'] why].
    + simpl. intros ->. by destruct (Hx _ eq_refl) as [?|[?|?]].
    + simpl. by rewrite (He e' (Hr e' eq_refl)).
  - done.
  - by rewrite (Ha x eq_refl).
Qed.

Lemma multi_session_shape n t r s :
  (∃ x, session n t r s = ([], SessionRaised x) ∧
        ∀ url, ss_live_url s = Ok (Some url) → url = EmptyString) ∨
  (∃ url ev, ss_live_url s = Ok (Some url) ∧ url ≠ EmptyString ∧
     Forall loop_event ev ∧ written ev = received_running ev ∧
     Forall (eq url) (downloads ev) ∧ sleeps ev = [] ∧
     ((session n t r s = (opening n t r s url ++ ev, SessionUnfinished)) ∨
      (∃ x, session n t r s = (opening n t r s url ++ ev ++ [EvClose], SessionRaised x) ∧
            is_Exception x = false ∧ ¬ raises_only_Exception s) ∨
      (∃ post e, session n t r s =
           (opening n t r s url ++ ev ++
              [EvClose; EvMonitorStop; EvConvert (session_path n t r s)] ++ post, e) ∧
           Forall late_event post ∧ e ≠ SessionUnfinished))).
Proof.
  unfold session.
  destruct (ss_live_url s) as [[url|]|x] eqn:Hurl; simpl.
  2:{ left. eexists. split; [done|]. done. }
  2:{ left. eexists. split; [done|]. done. }
  destruct (String.eqb url EmptyString) eqn:Hne; simpl.
  { left. eexists. split; [done|]. intros ? [= <-]. by apply String.eqb_eq. }
  right. exists url.
  pose proof (multi_streaming_loop_spec
    (truthy (should_restart_on_resolution_change (session_config s) (r_user r) (r_room_id r)))
    (r_duration r) url (ss_iterations s) false) as Hl.
  pose proof (multi_streaming_loop_catches
    (truthy (should_restart_on_resolution_change (session_config s) (r_user r) (r_room_id r)))
    (r_duration r) url (ss_iterations s) false) as Hc.
  destruct (streaming_loop _ _ url (ss_iterations s) [] false) as [[rr ev] why].
  destruct Hl as (Hw & Hev & Hd & Hs & Hp & _).
  exists ev. split; [done|]. split; [by apply String.eqb_neq|].
  split; [done|]. split; [done|]. split; [done|]. split; [done|].
  assert (∀ A (a b c : list A), (a ++ b) ++ c = a ++ b ++ c) as Hassoc
    by (intros; by rewrite app_assoc).
  destruct why as [| | | |e|e|];
    try (right; right;
         destruct (r_use_telegram r), (rr || _), (ss_stop_after s),
           (ss_alive_after s) as [[|]|?], (ss_restart_url s) as [[u'|]|x];
         simpl; try destruct (is_Exception x); try destruct (negb (String.eqb u' EmptyString));
         eexists _, _; unfold opening;
         (split; [simpl; rewrite <- ?app_assoc; simpl; reflexivity|]);
         (split; [by repeat constructor|done])).
  - right. left. exists e. split; [|split; [by apply Hp|]].
    + unfold opening. simpl. rewrite <- ?app_assoc. reflexivity.
    + intros Hs'. by apply (Hc Hs' e).
  - left. done.
Qed.
End MultiFacts.

Module SingleFacts.
Import ConfigManager Engine TikTokRecorder TraceFacts.

Lemma single_for_chunks_spec re dur steps e : ∀ buf rr,
  let '(b', rr', ev, x) := for_chunks re dur steps e buf rr in
  buf ++ received ev = written ev ++ b' ∧
  received_running ev = received ev ∧
  Forall loop_event ev ∧ downloads ev = [] ∧ sleeps ev = [] ∧
  (∀ why, x = ForBreak why → why = DurationReached ∨ why = RestartRequested) ∧
  (∀ e', x = ForRaise e' → e = Some e').
Proof.
  induction steps as [|c steps IH]; intros buf rr; simpl.
  { rewrite app_nil_r. split_and!; try done.
    - by destruct e.
    - destruct e; [by intros e' [= <-]|done]. }
  set (rr1 := rr || cs_changed c && re).
  destruct (buffer_size <=? Z.of_nat (length (buf ++ cs_data c))) eqn:Hfull.
  - destruct (duration_reached dur (cs_elapsed c)).
    { simpl. rewrite !app_nil_r. split_and!; try done.
      - by repeat constructor.
      - intros why [= <-]. auto. }
    destruct rr1 eqn:Hrr1.
    { simpl. rewrite !app_nil_r. split_and!; try done.
      - by repeat constructor.
      - intros why [= <-]. auto. }
    specialize (IH [] false).
    destruct (for_chunks re dur steps e [] false) as [[[b' rr'] ev] x].
    destruct IH as (Hb & Hrun & Hev & Hd & Hs & Hx & Hr). simpl in *.
    rewrite Hd, Hs. split_and!; try done.
    + rewrite Hb. by rewrite <- !app_assoc.
    + by rewrite Hrun.
    + by repeat constructor.
  - destruct (duration_reached dur (cs_elapsed c)).
    { simpl. rewrite !app_nil_r. split_and!; try done.
      - by repeat constructor.
      - intros why [= <-]. auto. }
    destruct rr1 eqn:Hrr1.
    { simpl. rewrite !app_nil_r. split_and!; try done.
      - by repeat constructor.
      - intros why [= <-]. auto. }
    specialize (IH (buf ++ cs_data c) false).
    destruct (for_chunks re dur steps e (buf ++ cs_data c) false) as [[[b' rr'] ev] x].
    destruct IH as (Hb & Hrun & Hev & Hd & Hs & Hx & Hr). simpl in *.
    rewrite Hd, Hs. split_and!; try done.
    + rewrite <- Hb. by rewrite <- !app_assoc.
    + by rewrite Hrun.
    + by repeat constructor.
Qed.

Lemma single_loop_event_handler m e : Forall loop_event (handler m e).1.
Proof. destruct e, m; simpl; by repeat constructor. Qed.

Lemma single_written_handler m e : written (handler m e).1 = [].
Proof. by destruct e, m. Qed.

Lemma single_received_handler m e : received (handler m e).1 = [].
Proof. by destruct e, m. Qed.

Lemma single_received_running_handler m e : received_running (handler m e).1 = [].
Proof. by destruct e, m. Qed.

Lemma single_downloads_handler m e : downloads (handler m e).1 = [].
Proof. by destruct e, m. Qed.

Lemma single_streaming_loop_spec m re dur url its : ∀ rr,
  let '(rr', ev, why) := streaming_loop m re dur url its [] rr in
  written ev = received ev ∧ received_running ev = received ev ∧
  Forall loop_event ev ∧ Forall (eq url) (downloads ev) ∧
  (∀ e, why ≠ Propagated e).
Proof.
  induction its as [|it its IH]; intros rr; simpl.
  { split_and!; try done. }
  pose proof (single_for_chunks_spec re dur (it_stream it) (it_end it) [] rr) as Hf.
  destruct (for_chunks re dur (it_stream it) (it_end it) [] rr)
    as [[[b0 rr0] ev0] x0].
  destruct Hf as (Hb0 & Hrun0 & Hev0 & Hd0 & Hs0 & Hx0 & Hr0). simpl in Hb0.
  set (A := match it_alive it with
            | Ok true => (b0, rr0, EvDownload url :: ev0, x0)
            | Ok false => ([], rr, [], ForBreak Offline)
            | Raise e => ([], rr, [], ForRaise e)
            end).
  assert (let '(b', rr1, ev, x) := A in
          received ev = written ev ++ b' ∧ received_running ev = received ev ∧
          Forall loop_event ev ∧ Forall (eq url) (downloads ev) ∧
          (∀ e, x ≠ ForBreak (Propagated e))) as HA.
  { unfold A. destruct (it_alive it) as [[|]|e]; simpl.
    - split_and!; try done.
      + by constructor.
      + rewrite Hd0. by constructor.
      + intros e ->. by destruct (Hx0 _ eq_refl).
    - split_and!; done.
    - split_and!; done. }
  fold A. destruct A as [[[b' rr1] ev] x].
  destruct HA as (Hb & Hrun & Hev & Hd & Hx).
  assert (written (ev ++ finally b') = received (ev ++ finally b')) as Hw.
  { by rewrite written_app, received_app, written_finally, received_finally,
      app_nil_r. }
  destruct x as [|why|e].
  - specialize (IH rr1).
    destruct (streaming_loop m re dur url its [] rr1) as [[rr' ev'] why].
    destruct IH as (Hw' & Hrun' & Hl' & Hd' & Hp').
    split_and!; try done.
    + rewrite !written_app, !received_app, written_finally, received_finally.
      rewrite Hb, Hw'. simpl. by rewrite ?app_nil_r, <- ?app_assoc.
    + rewrite !received_running_app, !received_app, received_finally,
        received_running_finally. by rewrite Hrun, Hrun'.
    + apply Forall_app. split; [done|]. apply Forall_app. split; [apply loop_event_finally|done].
    + rewrite !downloads_app, downloads_finally. simpl. by apply Forall_app.
  - split_and!; try done.
    + rewrite received_running_app, received_app, received_finally,
        received_running_finally. by rewrite Hrun.
    + apply Forall_app. split; [done|apply loop_event_finally].
    + rewrite downloads_app, downloads_finally, app_nil_r. done.
    + intros e ->. by apply (Hx e).
  - pose proof (single_loop_event_handler m e) as Hh1.
    pose proof (single_written_handler m e) as Hh2.
    pose proof (single_received_handler m e) as Hh3.
    pose proof (single_received_running_handler m e) as Hh4.
    pose proof (single_downloads_handler m e) as Hh5.
    destruct (handler m e) as [hev stop]. simpl in *.
    destruct stop.
    + split_and!; try done.
      * rewrite !written_app, !received_app, written_finally, received_finally.
        rewrite Hh2, Hh3, Hb. simpl. by rewrite ?app_nil_r, <- ?app_assoc.
      * rewrite !received_running_app, !received_app, received_finally,
          received_running_finally. by rewrite Hrun, Hh3, Hh4.
      * apply Forall_app. split; [done|]. apply Forall_app. split; [done|apply loop_event_finally].
      * rewrite !downloads_app, downloads_finally, Hh5, !app_nil_r. done.
    + specialize (IH rr1).
      destruct (streaming_loop m re dur url its [] rr1) as [[rr' ev'] why].
      destruct IH as (Hw' & Hrun' & Hl' & Hd' & Hp').
      split_and!; try done.
      * rewrite !written_app, !received_app, written_finally, received_finally.
        rewrite Hh2, Hh3, Hb, Hw'. simpl. by rewrite ?app_nil_r, <- ?app_assoc.
      * rewrite !received_running_app, !received_app, received_finally,
          received_running_finally. by rewrite Hrun, Hrun', Hh3, Hh4.
      * apply Forall_app. split; [done|]. apply Forall_app. split; [done|].
        apply Forall_app. split; [apply loop_event_finally|done].
      * rewrite !downloads_app, downloads_finally, Hh5. simpl. by apply Forall_app.
Qed.

Lemma single_session_shape r s :
  (∃ x, session r s = ([], SessionRaised x) ∧
        ∀ url, ss_live_url s = Ok (Some url) → url = EmptyString) ∨
  (∃ url ev, ss_live_url s = Ok (Some url) ∧ url ≠ EmptyString ∧
     Forall loop_event ev ∧ written ev = received ev ∧
     received_running ev = received ev ∧
     Forall (eq url) (downloads ev) ∧
     ((session r s = (opening r s ++ ev, SessionUnfinished)) ∨
      (∃ post e, session r s =
           (opening r s ++ ev ++
              [EvClose; EvMonitorStop; EvConvert (session_path r s)] ++ post, e) ∧
           Forall late_event post ∧ e ≠ SessionUnfinished))).
Proof.
  unfold session.
  destruct (ss_live_url s) as [[url|]|x] eqn:Hurl; simpl.
  2:{ left. eexists. split; [done|]. done. }
  2:{ left. eexists. split; [done|]. done. }
  destruct (String.eqb url EmptyString) eqn:Hne; simpl.
  { left. eexists. split; [done|]. intros ? [= <-]. by apply String.eqb_eq. }
  right. exists url.
  pose proof (single_streaming_loop_spec (r_mode r)
    (truthy (should_restart_on_resolution_change (r_config r) (r_user r) (r_room_id r)))
    (r_duration r) url (ss_iterations s) false) as Hl.
  destruct (streaming_loop _ _ _ url (ss_iterations s) [] false) as [[rr ev] why].
  destruct Hl as (Hw & Hrun & Hev & Hd & Hp).
  exists ev. split; [done|]. split; [by apply String.eqb_neq|].
  split; [done|]. split; [done|]. split; [done|]. split; [done|].
  destruct why as [| | | |e|e|];
    try (right;
         destruct (r_use_telegram r), (rr || _),
           (ss_alive_after s) as [[|]|?], (ss_restart_url s) as [[u'|]|x];
         simpl; try destruct (is_Exception x); try destruct (negb (String.eqb u' EmptyString));
         eexists _, _; unfold opening;
         (split; [simpl; rewrite <- ?app_assoc; simpl; reflexivity|]);
         (split; [by repeat constructor|done])).
  - by destruct (Hp e).
  - left. done.
Qed.
End SingleFacts.

Module ReplayFacts.
Import Engine TraceFacts.

Lemma written_late post : Forall late_event post → written post = [].
Proof. induction 1 as [|e post He _ IH]; [done|]. by destruct e. Qed.

Lemma received_late post : Forall late_event post → received post = [].
Proof. induction 1 as [|e post He _ IH]; [done|]. by destruct e. Qed.

Lemma received_running_late post :
  Forall late_event post → received_running post = [].
Proof. induction 1 as [|e post He _ IH]; [done|]. by destruct e. Qed.

Lemma written_before_close_loop ev :
  Forall loop_event ev → written_before_close ev = written ev.
Proof.
  intros H. rewrite <- (app_nil_r ev) at 1.
  rewrite written_before_close_app by done. simpl. by rewrite app_nil_r.
Qed.

Lemma opened_late post : Forall late_event post → opened post = [].
Proof. induction 1 as [|e post He _ IH]; [done|]. by destruct e. Qed.

Lemma downloads_late post : Forall late_event post → downloads post = [].
Proof. induction 1 as [|e post He _ IH]; [done|]. by destruct e. Qed.

Lemma late_event_notin e post :
  ¬ late_event e → Forall late_event post → e ∉ post.
Proof.
  intros He Hp Hin. rewrite Forall_forall in Hp. by apply He, Hp.
Qed.

Lemma replay_app a b s : replay (a ++ b) s = replay b (replay a s).
Proof. apply foldl_app. Qed.

Lemma replay_loop ev : Forall loop_event ev → ∀ s p c,
  handle s = Some p → files s !! p = Some c →
  handle (replay ev s) = Some p ∧
  files (replay ev s) !! p = Some (c ++ written ev).
Proof.
  induction 1 as [|e ev He _ IH]; intros s p c Hh Hf; simpl.
  { by rewrite app_nil_r. }
  destruct e; try done; simpl; try (by apply IH).
  rewrite Hh. rewrite app_assoc. apply IH; simpl; [done|].
  by rewrite Hf, lookup_insert_eq.
Qed.

Lemma replay_late post : Forall late_event post → ∀ s,
  files (replay post s) = files s.
Proof.
  induction 1 as [|e post He _ IH]; intros s; simpl; [done|].
  destruct e; try done; simpl; by rewrite IH.
Qed.

Lemma replay_dom tr : ∀ s,
  (∀ p, handle s = Some p → p ∈ dom (files s)) →
  dom (files (replay tr s)) = dom (files s) ∪ list_to_set (opened tr).
Proof.
  induction tr as [|e tr IH]; intros s Hs; simpl.
  { set_solver. }
  destruct e; simpl; try (rewrite IH; [set_solver|done]).
  - (* EvOpen *)
    rewrite IH; simpl.
    + rewrite dom_insert_L. set_solver.
    + intros p [= <-]. rewrite dom_insert_L. set_solver.
  - (* EvWrite *)
    destruct (handle s) as [p|] eqn:Hh; [|by rewrite IH; [|rewrite Hh]].
    rewrite IH; simpl.
    + rewrite dom_insert_L. specialize (Hs p eq_refl). set_solver.
    + intros q Hq. rewrite dom_insert_L.
      assert (q = p) as -> by congruence. set_solver.
Qed.

Lemma index_of_split e pre post :
  e ∉ pre → index_of e (pre ++ e :: post) = Some (length pre).
Proof.
  intros H. rewrite index_of_app_notin by done. simpl.
  rewrite decide_True by done. simpl. f_equal. lia.
Qed.
End ReplayFacts.

Import ResolutionDetector ConfigManager Engine Scenarios.
Import TraceFacts ReplayFacts StringFacts.

Module FlagFacts.

Lemma multi_for_chunks_flag re dur steps e : ∀ buf rr,
  (MultiStreamRecorder.for_chunks re dur steps e buf rr).1.1.2 = true →
  rr = true ∨ re = true.
Proof.
  induction steps as [|c steps IH]; intros buf rr; simpl; [auto|].
  assert (rr || cs_changed c && re = true → rr = true ∨ re = true) as Hor.
  { destruct rr, (cs_changed c), re; auto. }
  destruct (cs_stop c); simpl; [done|].
  destruct (buffer_size <=? _);
    (destruct (duration_reached dur (cs_elapsed c)); simpl; [done|]);
    (destruct (rr || cs_changed c && re) eqn:E; simpl; [auto|]).
  - specialize (IH [] false).
    destruct (MultiStreamRecorder.for_chunks re dur steps e [] false)
      as [[[? ?] ?] ?]; simpl in *.
    intros H. destruct (IH H); [done|auto].
  - specialize (IH (buf ++ cs_data c) false).
    destruct (MultiStreamRecorder.for_chunks re dur steps e _ false)
      as [[[? ?] ?] ?]; simpl in *.
    intros H. destruct (IH H); [done|auto].
Qed.

Lemma multi_streaming_loop_flag re dur url its : ∀ buf rr,
  (MultiStreamRecorder.streaming_loop re dur url its buf rr).1.1 = true →
  rr = true ∨ re = true.
Proof.
  induction its as [|it its IH]; intros buf rr; simpl; [auto|].
  destruct (it_stop it); simpl; [auto|].
  destruct (it_alive it) as [[|]|x]; simpl; [|auto..].
  pose proof (multi_for_chunks_flag re dur (it_stream it) (it_end it) buf rr) as Hf.
  destruct (MultiStreamRecorder.for_chunks re dur (it_stream it) (it_end it) buf rr)
    as [[[b' rr1] ev] x]; simpl in *.
  destruct x as [|why|e]; simpl; [|auto..].
  specialize (IH [] rr1).
  destruct (MultiStreamRecorder.streaming_loop re dur url its [] rr1)
    as [[rr' ev'] why]; simpl in *.
  intros H. destruct (IH H); auto.
Qed.

Lemma single_for_chunks_flag re dur steps e : ∀ buf rr,
  (TikTokRecorder.for_chunks re dur steps e buf rr).1.1.2 = true →
  rr = true ∨ re = true.
Proof.
  induction steps as [|c steps IH]; intros buf rr; simpl; [auto|].
  assert (rr || cs_changed c && re = true → rr = true ∨ re = true) as Hor.
  { destruct rr, (cs_changed c), re; auto. }
  destruct (buffer_size <=? _);
    (destruct (duration_reached dur (cs_elapsed c)); simpl; [done|]);
    (destruct (rr || cs_changed c && re) eqn:E; simpl; [auto|]).
  - specialize (IH [] false).
    destruct (TikTokRecorder.for_chunks re dur steps e [] false)
      as [[[? ?] ?] ?]; simpl in *.
    intros H. destruct (IH H); [done|auto].
  - specialize (IH (buf ++ cs_data c) false).
    destruct (TikTokRecorder.for_chunks re dur steps e _ false)
      as [[[? ?] ?] ?]; simpl in *.
    intros H. destruct (IH H); [done|auto].
Qed.

Lemma single_streaming_loop_flag m re dur url its : ∀ buf rr,
  (TikTokRecorder.streaming_loop m re dur url its buf rr).1.1 = true →
  rr = true ∨ re = true.
Proof.
  induction its as [|it its IH]; intros buf rr; simpl; [auto|].
  pose proof (single_for_chunks_flag re dur (it_stream it) (it_end it) buf rr) as Hf.
  destruct (TikTokRecorder.for_chunks re dur (it_stream it) (it_end it) buf rr)
    as [[[b0 rr0] ev0] x0]; simpl in *.
  destruct (it_alive it) as [[|]|e0]; simpl.
  - destruct x0 as [|why|e]; simpl; [|auto|].
    + specialize (IH [] rr0).
      destruct (TikTokRecorder.streaming_loop m re dur url its [] rr0)
        as [[rr' ev'] why]; simpl in *.
      intros H. destruct (IH H); auto.
    + destruct (TikTokRecorder.handler m e) as [hev []]; simpl; [auto|].
      specialize (IH [] rr0).
      destruct (TikTokRecorder.streaming_loop m re dur url its [] rr0)
        as [[rr' ev'] why]; simpl in *.
      intros H. destruct (IH H); auto.
  - auto.
  - destruct (TikTokRecorder.handler m e0) as [hev []]; simpl; [auto|].
    specialize (IH [] rr).
    destruct (TikTokRecorder.streaming_loop m re dur url its [] rr)
      as [[rr' ev'] why]; simpl in *.
    intros H. destruct (IH H); auto.
Qed.

Lemma multi_restart_enabled n t r s :
  MultiStreamRecorder.restart_flag_set (MultiStreamRecorder.session n t r s).2 = true →
  truthy (should_restart_on_resolution_change
            (_load_config (ss_config_file s)).1
            (MultiStreamRecorder.r_user r) (MultiStreamRecorder.r_room_id r)) = true.
Proof.
  unfold MultiStreamRecorder.session, MultiStreamRecorder.session_config.
  destruct (ss_live_url s) as [[url|]|x]; simpl; try done.
  destruct (String.eqb url EmptyString); simpl; try done.
  set (re := truthy _).
  pose proof (multi_streaming_loop_flag re (MultiStreamRecorder.r_duration r)
                url (ss_iterations s) [] false) as Hf.
  destruct (MultiStreamRecorder.streaming_loop re _ url (ss_iterations s) [] false)
    as [[rr ev] why]; simpl in Hf.
  assert (rr || ss_changed_late s && re = true → re = true) as Hre.
  { destruct rr; [by destruct Hf|]. simpl. by destruct (ss_changed_late s), re. }
  destruct why; simpl; try done;
    destruct (rr || _) eqn:E; try (by intros _; apply Hre);
    destruct (ss_stop_after s), (ss_alive_after s) as [[|]|?],
      (ss_restart_url s) as [[u'|]|x]; simpl; try done;
    try (destruct (is_Exception x); simpl; try done);
    try (destruct (negb (String.eqb u' EmptyString)); simpl); done.
Qed.

Lemma single_restart_enabled r s :
  TikTokRecorder.restart_flag_set (TikTokRecorder.session r s).2 = true →
  truthy (should_restart_on_resolution_change
            (TikTokRecorder.r_config r)
            (TikTokRecorder.r_user r) (TikTokRecorder.r_room_id r)) = true.
Proof.
  unfold TikTokRecorder.session.
  destruct (ss_live_url s) as [[url|]|x]; simpl; try done.
  destruct (String.eqb url EmptyString); simpl; try done.
  set (re := truthy _).
  pose proof (single_streaming_loop_flag (TikTokRecorder.r_mode r) re
                (TikTokRecorder.r_duration r)
                url (ss_iterations s) [] false) as Hf.
  destruct (TikTokRecorder.streaming_loop _ re _ url (ss_iterations s) [] false)
    as [[rr ev] why]; simpl in Hf.
  assert (rr || ss_changed_late s && re = true → re = true) as Hre.
  { destruct rr; [by destruct Hf|]. simpl. by destruct (ss_changed_late s), re. }
  destruct why; simpl; try done;
    destruct (rr || _) eqn:E; try (by intros _; apply Hre);
    destruct (ss_alive_after s) as [[|]|?],
      (ss_restart_url s) as [[u'|]|x]; simpl; try done;
    try (destruct (is_Exception x); simpl; try done);
    try (destruct (negb (String.eqb u' EmptyString)); simpl); done.
Qed.
End FlagFacts.

Lemma multi_session_bytes n t r s :
  let tr := (MultiStreamRecorder.session n t r s).1 in
  written_before_close tr = received_running tr ∧
  written tr = received_running tr.
Proof.
  destruct (MultiFacts.multi_session_shape n t r s)
    as [(x & -> & _)|(url & ev & _ & _ & Hev & Hw & _ & _ & H)]; [done|].
  destruct H as [->|[(x & -> & _)|(post & e & -> & Hpost & _)]];
    unfold MultiStreamRecorder.opening; simpl.
  - by rewrite written_before_close_loop.
  - rewrite written_before_close_app by done. simpl.
    rewrite written_app, received_running_app. simpl.
    by rewrite !app_nil_r.
  - rewrite written_before_close_app by done. simpl.
    rewrite written_app, received_running_app. simpl.
    rewrite (written_late post), (received_running_late post) by done.
    by rewrite !app_nil_r.
Qed.

Lemma single_session_bytes r s :
  let tr := (TikTokRecorder.session r s).1 in
  written_before_close tr = received tr ∧ written tr = received tr.
Proof.
  destruct (SingleFacts.single_session_shape r s)
    as [(x & -> & _)|(url & ev & _ & _ & Hev & Hw & _ & _ & H)]; [done|].
  destruct H as [->|(post & e & -> & Hpost & _)];
    unfold TikTokRecorder.opening; simpl.
  - by rewrite written_before_close_loop.
  - rewrite written_before_close_app by done. simpl.
    rewrite written_app, received_app. simpl.
    rewrite (written_late post), (received_late post) by done.
    by rewrite !app_nil_r.
Qed.

Lemma multi_session_file n t r s url fs0 :
  ss_live_url s = Ok (Some url) → url ≠ EmptyString →
  let tr := (MultiStreamRecorder.session n t r s).1 in
  files (replay tr fs0) !! MultiStreamRecorder.session_path n t r s
  = Some (received_running tr).
Proof.
  intros Hu Hne tr.
  destruct (multi_session_bytes n t r s) as [_ Hb]. fold tr in Hb.
  rewrite <- Hb. unfold tr. clear tr Hb.
  destruct (MultiFacts.multi_session_shape n t r s)
    as [(x & _ & Hx)|(url' & ev & _ & _ & Hev & Hw & _ & _ & H)].
  { by specialize (Hx url Hu). }
  set (s1 := replay (MultiStreamRecorder.opening n t r s url') fs0).
  assert (handle s1 = Some (MultiStreamRecorder.session_path n t r s) ∧
          files s1 !! MultiStreamRecorder.session_path n t r s = Some []) as [Hh Hf].
  { unfold s1. simpl. split; [done|]. by rewrite lookup_insert_eq. }
  destruct (replay_loop ev Hev s1 _ _ Hh Hf) as [Hh' Hf'].
  destruct H as [->|[(x & -> & _)|(post & e & -> & Hpost & _)]]; cbn [fst].
  - rewrite replay_app. fold s1. rewrite Hf'. simpl.
    rewrite ?written_app. simpl. done.
  - rewrite !replay_app. fold s1. simpl. rewrite Hf'. simpl.
    rewrite ?written_app. simpl. by rewrite ?app_nil_r.
  - rewrite !replay_app. fold s1.
    rewrite (replay_late post Hpost). simpl. rewrite Hf'. simpl.
    rewrite ?written_app. simpl. by rewrite ?(written_late post), ?app_nil_r.
Qed.

Lemma single_session_file r s url fs0 :
  ss_live_url s = Ok (Some url) → url ≠ EmptyString →
  let tr := (TikTokRecorder.session r s).1 in
  files (replay tr fs0) !! TikTokRecorder.session_path r s = Some (received tr).
Proof.
  intros Hu Hne tr.
  destruct (single_session_bytes r s) as [_ Hb]. fold tr in Hb.
  rewrite <- Hb. unfold tr. clear tr Hb.
  destruct (SingleFacts.single_session_shape r s)
    as [(x & _ & Hx)|(url' & ev & _ & _ & Hev & Hw & _ & _ & H)].
  { by specialize (Hx url Hu). }
  set (s1 := replay (TikTokRecorder.opening r s) fs0).
  assert (handle s1 = Some (TikTokRecorder.session_path r s) ∧
          files s1 !! TikTokRecorder.session_path r s = Some []) as [Hh Hf].
  { unfold s1. simpl. split; [done|]. by rewrite lookup_insert_eq. }
  destruct (replay_loop ev Hev s1 _ _ Hh Hf) as [Hh' Hf'].
  destruct H as [->|(post & e & -> & Hpost & _)]; cbn [fst].
  - rewrite replay_app. fold s1. rewrite Hf'. simpl.
    rewrite ?written_app. simpl. done.
  - rewrite !replay_app. fold s1.
    rewrite (replay_late post Hpost). simpl. rewrite Hf'. simpl.
    rewrite ?written_app. simpl. by rewrite ?(written_late post), ?app_nil_r.
Qed.

Lemma precedes_adjacent a b pre post :
  a ≠ b → a ∉ pre → b ∉ pre → precedes a b (pre ++ a :: b :: post).
Proof.
  intros Hab Ha Hb. unfold precedes.
  rewrite index_of_split by done.
  change (pre ++ a :: b :: post) with (pre ++ [a] ++ b :: post).
  rewrite app_assoc, index_of_split.
  - rewrite length_app. simpl. lia.
  - intros [H|H%list_elem_of_singleton]%elem_of_app; [by apply Hb|congruence].
Qed.

Lemma multi_session_exit n t r s :
  let tr := (MultiStreamRecorder.session n t r s).1 in
  EvClose ∈ tr → raises_only_Exception s →
  ∃ pre post,
    tr = pre ++ [EvClose; EvMonitorStop;
                 EvConvert (MultiStreamRecorder.session_path n t r s)] ++ post ∧
    EvClose ∉ pre ∧ EvMonitorStop ∉ pre ∧
    EvClose ∉ post ∧ EvMonitorStop ∉ post.
Proof.
  intros tr Hin Hs. unfold tr in *. clear tr.
  destruct (MultiFacts.multi_session_shape n t r s)
    as [(x & Hx & _)|(url & ev & _ & _ & Hev & Hw & _ & _ & H)].
  { rewrite Hx in Hin. by apply elem_of_nil in Hin. }
  assert (EvClose ∉ MultiStreamRecorder.opening n t r s url ++ ev ∧ EvMonitorStop ∉ MultiStreamRecorder.opening n t r s url ++ ev)
    as [HpreC HpreM].
  { split; intros [Ho|Hl]%elem_of_app.
    - unfold MultiStreamRecorder.opening in Ho.
      repeat (apply elem_of_cons in Ho as [Ho|Ho]; [congruence|]).
      by apply elem_of_nil in Ho.
    - by apply (loop_event_notin EvClose ev (fun x => x)).
    - unfold MultiStreamRecorder.opening in Ho.
      repeat (apply elem_of_cons in Ho as [Ho|Ho]; [congruence|]).
      by apply elem_of_nil in Ho.
    - by apply (loop_event_notin EvMonitorStop ev (fun x => x)). }
  destruct H as [H|[(x & H & _ & Hn)|(post & e & H & Hpost & _)]].
  - rewrite H in Hin. cbn [fst] in Hin. done.
  - done.
  - rewrite H. cbn [fst].
    exists (MultiStreamRecorder.opening n t r s url ++ ev), post.
    split; [by rewrite <- app_assoc|].
    split_and!; [done|done|..].
    + by apply (late_event_notin EvClose post (fun x => x)).
    + by apply (late_event_notin EvMonitorStop post (fun x => x)).
Qed.

Lemma single_session_exit r s :
  let tr := (TikTokRecorder.session r s).1 in
  EvClose ∈ tr →
  ∃ pre post,
    tr = pre ++ [EvClose; EvMonitorStop;
                 EvConvert (TikTokRecorder.session_path r s)] ++ post ∧
    EvClose ∉ pre ∧ EvMonitorStop ∉ pre ∧
    EvClose ∉ post ∧ EvMonitorStop ∉ post.
Proof.
  intros tr Hin. unfold tr in *. clear tr.
  destruct (SingleFacts.single_session_shape r s)
    as [(x & Hx & _)|(url & ev & _ & _ & Hev & Hw & _ & _ & H)].
  { rewrite Hx in Hin. by apply elem_of_nil in Hin. }
  assert (EvClose ∉ TikTokRecorder.opening r s ++ ev ∧ EvMonitorStop ∉ TikTokRecorder.opening r s ++ ev)
    as [HpreC HpreM].
  { split; intros [Ho|Hl]%elem_of_app.
    - unfold TikTokRecorder.opening in Ho.
      repeat (apply elem_of_cons in Ho as [Ho|Ho]; [congruence|]).
      by apply elem_of_nil in Ho.
    - by apply (loop_event_notin EvClose ev (fun x => x)).
    - unfold TikTokRecorder.opening in Ho.
      repeat (apply elem_of_cons in Ho as [Ho|Ho]; [congruence|]).
      by apply elem_of_nil in Ho.
    - by apply (loop_event_notin EvMonitorStop ev (fun x => x)). }
  destruct H as [H|(post & e & H & Hpost & _)].
  - rewrite H in Hin. cbn [fst] in Hin. done.
  - rewrite H. cbn [fst].
    exists (TikTokRecorder.opening r s ++ ev), post.
    split; [by rewrite <- app_assoc|].
    split_and!; [done|done|..].
    + by apply (late_event_notin EvClose post (fun x => x)).
    + by apply (late_event_notin EvMonitorStop post (fun x => x)).
Qed.

Lemma multi_session_stop_after_close n t r s :
  let tr := (MultiStreamRecorder.session n t r s).1 in
  EvMonitorStop ∈ tr →
  precedes EvClose EvMonitorStop tr ∧
  precedes EvMonitorStop
           (EvConvert (MultiStreamRecorder.session_path n t r s)) tr.
Proof.
  intros tr Hin. unfold tr in *. clear tr.
  destruct (MultiFacts.multi_session_shape n t r s)
    as [(x & Hx & _)|(url & ev & _ & _ & Hev & Hw & _ & _ & H)].
  { rewrite Hx in Hin. by apply elem_of_nil in Hin. }
  assert (EvClose ∉ MultiStreamRecorder.opening n t r s url ++ ev ∧ EvMonitorStop ∉ MultiStreamRecorder.opening n t r s url ++ ev)
    as [HpreC HpreM].
  { split; intros [Ho|Hl]%elem_of_app.
    - unfold MultiStreamRecorder.opening in Ho.
      repeat (apply elem_of_cons in Ho as [Ho|Ho]; [congruence|]).
      by apply elem_of_nil in Ho.
    - by apply (loop_event_notin EvClose ev (fun x => x)).
    - unfold MultiStreamRecorder.opening in Ho.
      repeat (apply elem_of_cons in Ho as [Ho|Ho]; [congruence|]).
      by apply elem_of_nil in Ho.
    - by apply (loop_event_notin EvMonitorStop ev (fun x => x)). }
  destruct H as [H|[(x & H & _ & Hn)|(post & e & H & Hpost & _)]].
  - rewrite H in Hin. cbn [fst] in Hin. done.
  - rewrite H in Hin. cbn [fst] in Hin. rewrite app_assoc in Hin.
    apply elem_of_app in Hin as [Hin|Hin%list_elem_of_singleton]; [|done].
    done.
  - rewrite H. cbn [fst]. rewrite app_assoc. split.
    + by apply precedes_adjacent.
    + change (?a ++ [EvClose; EvMonitorStop; ?c] ++ post)
        with (a ++ [EvClose] ++ EvMonitorStop :: c :: post).
      rewrite app_assoc. apply precedes_adjacent; [done|..].
      * by intros [Hc|?%list_elem_of_singleton]%elem_of_app.
      * intros [Hc|?%list_elem_of_singleton]%elem_of_app; [|done].
        revert Hc. apply not_elem_of_app. split.
        -- unfold MultiStreamRecorder.opening. intros Ho.
           repeat (apply elem_of_cons in Ho as [Ho|Ho]; [congruence|]).
           by apply elem_of_nil in Ho.
        -- by apply (loop_event_notin (EvConvert _) ev (fun x => x)).
Qed.




Lemma multi_run_restart depth n t r s rest :
  MultiStreamRecorder.restarts (MultiStreamRecorder.session n t r s).2 = true →
  (MultiStreamRecorder._start_recording_with_stop_event (S depth) n t r
     (s :: rest)).1 =
  (MultiStreamRecorder.session n t r s).1 ++
  (MultiStreamRecorder._start_recording_with_stop_event depth n t r rest).1.
Proof.
  simpl. destruct (MultiStreamRecorder.session n t r s) as [tr []]; try done.
  intros _. simpl.
  by destruct (MultiStreamRecorder._start_recording_with_stop_event depth n t r rest).
Qed.

Lemma multi_run_limit n t r s rest :
  (MultiStreamRecorder._start_recording_with_stop_event 0 n t r (s :: rest)).1 =
  (MultiStreamRecorder.session n t r s).1.
Proof.
  simpl. by destruct (MultiStreamRecorder.session n t r s) as [tr []].
Qed.

Lemma multi_run_no_restart depth n t r s rest :
  MultiStreamRecorder.restarts (MultiStreamRecorder.session n t r s).2 = false →
  (MultiStreamRecorder._start_recording_with_stop_event depth n t r (s :: rest)).1 =
  (MultiStreamRecorder.session n t r s).1.
Proof.
  simpl. by destruct (MultiStreamRecorder.session n t r s) as [tr []], depth.
Qed.

Lemma single_run_restart depth r s rest :
  TikTokRecorder.restarts (TikTokRecorder.session r s).2 = true →
  ∃ why u,
    (TikTokRecorder.session r s).2 = TikTokRecorder.SessionRestart why u ∧
    (TikTokRecorder.start_recording (S depth) r (s :: rest)).1.1 =
    (TikTokRecorder.session r s).1 ++
    (TikTokRecorder.start_recording depth (TikTokRecorder.set_detector r u)
       rest).1.1.
Proof.
  simpl. destruct (TikTokRecorder.session r s) as [tr [| | |why u]]; try done.
  intros _. exists why, u. split; [done|]. simpl.
  by destruct (TikTokRecorder.start_recording depth _ rest) as [[? ?] ?].
Qed.

Lemma single_run_limit r s rest :
  (TikTokRecorder.start_recording 0 r (s :: rest)).1.1 =
  (TikTokRecorder.session r s).1.
Proof.
  simpl. by destruct (TikTokRecorder.session r s) as [tr []].
Qed.

Lemma single_run_no_restart depth r s rest :
  TikTokRecorder.restarts (TikTokRecorder.session r s).2 = false →
  (TikTokRecorder.start_recording depth r (s :: rest)).1.1 =
  (TikTokRecorder.session r s).1.
Proof.
  simpl. by destruct (TikTokRecorder.session r s) as [tr []], depth.
Qed.


Lemma multi_session_url n t r s url :
  ss_live_url s = Ok (Some url) → url ≠ EmptyString →
  let tr := (MultiStreamRecorder.session n t r s).1 in
  Forall (eq url) (downloads tr) ∧
  (∀ u i, EvMonitorStart u i ∈ tr → u = Some url) ∧
  opened tr = [MultiStreamRecorder.session_path n t r s] ∧
  ∃ tl, tr = EvMakedirs (MultiStreamRecorder.session_folder r) ::
             EvOpen (MultiStreamRecorder.session_path n t r s) :: tl.
Proof.
  intros Hu Hne tr. unfold tr. clear tr.
  destruct (MultiFacts.multi_session_shape n t r s)
    as [(x & _ & Hx)|(url' & ev & Hu' & _ & Hev & Hw & Hd & _ & H)].
  { by specialize (Hx url Hu). }
  assert (url' = url) as -> by congruence.
  assert (∀ u i, EvMonitorStart u i ∈ MultiStreamRecorder.opening n t r s url ++ ev →
                 u = Some url) as Hm.
  { intros u i [Ho|Hl]%elem_of_app.
    - unfold MultiStreamRecorder.opening in Ho.
      repeat (apply elem_of_cons in Ho as [Ho|Ho]; [congruence|]).
      by apply elem_of_nil in Ho.
    - by apply (loop_event_notin (EvMonitorStart u i) ev (fun x => x)) in Hl. }
  destruct H as [->|[(x & -> & _)|(post & e & -> & Hpost & _)]]; cbn [fst].
  - split_and!.
    + by rewrite downloads_app.
    + done.
    + by rewrite opened_app, (opened_loop ev).
    + by eexists.
  - split_and!.
    + rewrite !downloads_app. simpl. by rewrite app_nil_r.
    + intros u i. rewrite app_assoc.
      intros [Hin|Hin%list_elem_of_singleton]%elem_of_app; [by eapply Hm|done].
    + rewrite !opened_app, (opened_loop ev) by done. done.
    + by eexists.
  - split_and!.
    + rewrite !downloads_app. simpl. by rewrite (downloads_late post), app_nil_r.
    + intros u i. rewrite app_assoc.
      intros [Hin|Hin]%elem_of_app; [by eapply Hm|].
      apply elem_of_app in Hin as [Hin|Hin].
      * repeat (apply elem_of_cons in Hin as [Hin|Hin]; [congruence|]).
        by apply elem_of_nil in Hin.
      * by apply (late_event_notin (EvMonitorStart u i) post (fun x => x)) in Hin.
    + rewrite !opened_app, (opened_loop ev), (opened_late post) by done. done.
    + by eexists.
Qed.

Lemma single_session_url r s url :
  ss_live_url s = Ok (Some url) → url ≠ EmptyString →
  let tr := (TikTokRecorder.session r s).1 in
  Forall (eq url) (downloads tr) ∧
  (∀ u i, EvMonitorStart u i ∈ tr → u = TikTokRecorder.r_detector_url r) ∧
  opened tr = [TikTokRecorder.session_path r s] ∧
  ∃ tl, tr = EvMakedirs (TikTokRecorder.session_folder r) ::
             EvOpen (TikTokRecorder.session_path r s) :: tl.
Proof.
  intros Hu Hne tr. unfold tr. clear tr.
  destruct (SingleFacts.single_session_shape r s)
    as [(x & _ & Hx)|(url' & ev & Hu' & _ & Hev & Hw & _ & Hd & H)].
  { by specialize (Hx url Hu). }
  assert (url' = url) as -> by congruence.
  assert (∀ u i, EvMonitorStart u i ∈ TikTokRecorder.opening r s ++ ev →
                 u = TikTokRecorder.r_detector_url r) as Hm.
  { intros u i [Ho|Hl]%elem_of_app.
    - unfold TikTokRecorder.opening in Ho.
      repeat (apply elem_of_cons in Ho as [Ho|Ho]; [congruence|]).
      by apply elem_of_nil in Ho.
    - by apply (loop_event_notin (EvMonitorStart u i) ev (fun x => x)) in Hl. }
  destruct H as [->|(post & e & -> & Hpost & _)]; cbn [fst].
  - split_and!.
    + by rewrite downloads_app.
    + done.
    + by rewrite opened_app, (opened_loop ev).
    + by eexists.
  - split_and!.
    + rewrite !downloads_app. simpl. by rewrite (downloads_late post), app_nil_r.
    + intros u i. rewrite app_assoc.
      intros [Hin|Hin]%elem_of_app; [by eapply Hm|].
      apply elem_of_app in Hin as [Hin|Hin].
      * repeat (apply elem_of_cons in Hin as [Hin|Hin]; [congruence|]).
        by apply elem_of_nil in Hin.
      * by apply (late_event_notin (EvMonitorStart u i) post (fun x => x)) in Hin.
    + rewrite !opened_app, (opened_loop ev), (opened_late post) by done. done.
    + by eexists.
Qed.

Lemma multi_restarts_resolved n t r s :
  MultiStreamRecorder.restarts (MultiStreamRecorder.session n t r s).2 = true →
  ∃ url, ss_live_url s = Ok (Some url) ∧ url ≠ EmptyString.
Proof.
  destruct (MultiFacts.multi_session_shape n t r s)
    as [(x & -> & _)|(url & ev & Hu & Hne & _)]; [done|]. eauto.
Qed.

Lemma single_restarts_resolved r s :
  TikTokRecorder.restarts (TikTokRecorder.session r s).2 = true →
  ∃ url, ss_live_url s = Ok (Some url) ∧ url ≠ EmptyString.
Proof.
  destruct (SingleFacts.single_session_shape r s)
    as [(x & -> & _)|(url & ev & Hu & Hne & _)]; [done|]. eauto.
Qed.

Lemma multi_run_opened n t r front : ∀ depth last,
  (length front ≤ depth)%nat →
  Forall (fun s => MultiStreamRecorder.restarts
                     (MultiStreamRecorder.session n t r s).2 = true) front →
  MultiStreamRecorder.restarts (MultiStreamRecorder.session n t r last).2 = false →
  (∃ url, ss_live_url last = Ok (Some url) ∧ url ≠ EmptyString) →
  opened (MultiStreamRecorder._start_recording_with_stop_event depth n t r
            (front ++ [last])).1
  = MultiStreamRecorder.session_path n t r <$> (front ++ [last]).
Proof.
  induction front as [|s front IH]; intros depth last Hd Hf Hl (url & Hu & Hne).
  - simpl app. rewrite multi_run_no_restart by done.
    by destruct (multi_session_url n t r last url Hu Hne) as (_ & _ & -> & _).
  - apply Forall_cons in Hf as [Hs Hf].
    destruct depth as [|depth]; [simpl in Hd; lia|].
    rewrite <- app_comm_cons, multi_run_restart by done.
    rewrite opened_app, IH by (simpl in Hd; eauto with lia).
    destruct (multi_restarts_resolved n t r s Hs) as (u & Hu' & Hne').
    by destruct (multi_session_url n t r s u Hu' Hne') as (_ & _ & -> & _).
Qed.


Lemma same_target_refl r : TikTokRecorder.same_target r r.
Proof. exists (TikTokRecorder.r_detector_url r), (TikTokRecorder.r_detector_interval r). by destruct r. Qed.

Lemma same_target_set_detector r r' u :
  TikTokRecorder.same_target r r' → TikTokRecorder.same_target r (TikTokRecorder.set_detector r' u).
Proof. intros (u0 & i0 & ->). unfold TikTokRecorder.set_detector. simpl. by eexists _, _. Qed.

Lemma single_session_same_target r r' s :
  TikTokRecorder.same_target r r' →
  (TikTokRecorder.session r' s).2 = (TikTokRecorder.session r s).2 ∧
  opened (TikTokRecorder.session r' s).1 = opened (TikTokRecorder.session r s).1.
Proof.
  intros (u0 & i0 & ->). unfold TikTokRecorder.session. simpl.
  destruct (ss_live_url s) as [[url|]|x]; simpl; try done.
  destruct (String.eqb url EmptyString); simpl; try done.
  destruct (TikTokRecorder.streaming_loop _ _ _ url (ss_iterations s) [] false)
    as [[rr ev] why].
  unfold TikTokRecorder.opening, TikTokRecorder.session_path,
    TikTokRecorder.session_folder. simpl.
  destruct why; simpl; try done;
    destruct (TikTokRecorder.r_use_telegram r), (rr || _),
      (ss_alive_after s) as [[|]|?],
      (ss_restart_url s) as [[u'|]|x]; simpl;
    try destruct (is_Exception x); try destruct (negb (String.eqb u' EmptyString));
    simpl; rewrite ?opened_app; done.
Qed.

Lemma single_run_opened r front : ∀ depth last r',
  (length front ≤ depth)%nat →
  TikTokRecorder.same_target r r' →
  Forall (fun s => TikTokRecorder.restarts
                     (TikTokRecorder.session r s).2 = true) front →
  TikTokRecorder.restarts (TikTokRecorder.session r last).2 = false →
  (∃ url, ss_live_url last = Ok (Some url) ∧ url ≠ EmptyString) →
  opened (TikTokRecorder.start_recording depth r' (front ++ [last])).1.1
  = TikTokRecorder.session_path r <$> (front ++ [last]).
Proof.
  induction front as [|s front IH];
    intros depth last r' Hd Hr Hf Hl (url & Hu & Hne).
  - destruct (single_session_same_target r r' last Hr) as [He Ho].
    simpl app. rewrite single_run_no_restart by (by rewrite He).
    rewrite Ho.
    by destruct (single_session_url r last url Hu Hne) as (_ & _ & -> & _).
  - apply Forall_cons in Hf as [Hs Hf].
    destruct depth as [|depth]; [simpl in Hd; lia|].
    destruct (single_session_same_target r r' s Hr) as [He Ho].
    rewrite <- app_comm_cons.
    destruct (single_run_restart depth r' s (front ++ [last]))
      as (why & u & _ & ->).
    { by rewrite He. }
    rewrite opened_app, Ho.
    rewrite (IH depth last (TikTokRecorder.set_detector r' u));
      [|simpl in Hd; lia|by apply same_target_set_detector|done|done|by eauto].
    destruct (single_restarts_resolved r s Hs) as (u' & Hu' & Hne').
    by destruct (single_session_url r s u' Hu' Hne') as (_ & _ & -> & _).
Qed.



Lemma output_suffix_empty n t :
  MultiStreamRecorder.output_suffix n t = EmptyString ↔ (n ≤ 1)%nat.
Proof.
  unfold MultiStreamRecorder.output_suffix.
  destruct (Nat.ltb_spec 1 n); split; try done; lia.
Qed.



Lemma lookup_setting_agrees_user c user room setting dflt :
  str_truthy user = true →
  is_Some (user_override c user setting) ∨ room_override c room setting = None →
  lookup_setting c user room setting dflt = spec_lookup c user room setting dflt.
Proof.
  intros Hu H. rewrite ConfigFacts.lookup_setting_spec, Hu. unfold spec_lookup.
  destruct H as [[v ->]| ->]; [done|].
  by destruct (user_override c user setting).
Qed.

Lemma lookup_setting_agrees_room c room setting dflt :
  str_truthy room = true →
  lookup_setting c None room setting dflt = spec_lookup c None room setting dflt.
Proof.
  intros Hr. rewrite ConfigFacts.lookup_setting_spec. simpl. rewrite Hr.
  unfold spec_lookup. simpl. by destruct (room_override c room setting).
Qed.





Lemma resolved_or_not (s : session_script) :
  (∃ url, ss_live_url s = Ok (Some url) ∧ url ≠ EmptyString) ∨
  (∀ url, ss_live_url s = Ok (Some url) → url = EmptyString).
Proof.
  destruct (ss_live_url s) as [[url|]|x]; [|by right..].
  destruct (decide (url = EmptyString)) as [->|Hne].
  - right. by intros ? [= <-].
  - left. by exists url.
Qed.




Lemma remove_dups_fmap_inj {A B} `{EqDecision A, EqDecision B} (f : A → B)
    (l : list A) :
  Inj (=) (=) f → remove_dups (f <$> l) = f <$> remove_dups l.
Proof.
  intros Hf. induction l as [|x l IH]; [done|].
  rewrite fmap_cons. cbn [remove_dups]. unfold decide_rel.
  destruct (list_elem_of_dec x l) as [Hx|Hx],
           (list_elem_of_dec (f x) (f <$> l)) as [Hy|Hy].
  - apply IH.
  - destruct Hy. by apply list_elem_of_fmap_2.
  - destruct Hx. apply list_elem_of_fmap in Hy as (y & Hxy & Hy).
    by apply Hf in Hxy as ->.
  - by rewrite fmap_cons, IH.
Qed.

Lemma size_list_to_set_remove_dups (l : list string) :
  size (list_to_set l : gset string) = length (remove_dups l).
Proof.
  rewrite <- (size_list_to_set (C := gset string) (remove_dups l))
    by apply NoDup_remove_dups.
  f_equal. apply set_eq. intros x.
  by rewrite !elem_of_list_to_set, elem_of_remove_dups.
Qed.

Lemma replay_files_count tr :
  size (files (replay tr empty_fs)) = length (remove_dups (opened tr)).
Proof.
  rewrite <- size_dom, replay_dom by done. simpl.
  rewrite dom_empty_L, (left_id_L ∅ (∪)).
  apply size_list_to_set_remove_dups.
Qed.

Lemma length_remove_dups_NoDup {A} `{EqDecision A} (l : list A) :
  length (remove_dups l) = length l ↔ NoDup l.
Proof.
  assert (∀ l' : list A, length (remove_dups l') ≤ length l')%nat as Hle.
  { induction l' as [|y l' IH]; simpl; [done|].
    unfold decide_rel. destruct (list_elem_of_dec y l'); simpl; lia. }
  induction l as [|x l IH].
  { split; [constructor|done]. }
  cbn [remove_dups]. unfold decide_rel. specialize (Hle l).
  destruct (list_elem_of_dec x l) as [Hx|Hx]; simpl.
  - split; [lia|]. intros [? _]%NoDup_cons. done.
  - rewrite NoDup_cons. split.
    + intros [= H]. split; [done|]. by apply IH.
    + intros [_ H]. f_equal. by apply IH.
Qed.

Lemma multi_session_opened n t r s :
  opened (MultiStreamRecorder.session n t r s).1 = [] ∨
  opened (MultiStreamRecorder.session n t r s).1
  = [MultiStreamRecorder.session_path n t r s].
Proof.
  destruct (resolved_or_not s) as [(u & Hu & Hne)|Hno].
  - right. by destruct (multi_session_url n t r s u Hu Hne) as (_ & _ & -> & _).
  - left. destruct (MultiFacts.multi_session_shape n t r s)
      as [(x & -> & _)|(url & ev & Hu & Hne & _)]; [done|].
    by specialize (Hno url Hu).
Qed.

Lemma single_session_opened r s :
  opened (TikTokRecorder.session r s).1 = [] ∨
  opened (TikTokRecorder.session r s).1 = [TikTokRecorder.session_path r s].
Proof.
  destruct (resolved_or_not s) as [(u & Hu & Hne)|Hno].
  - right. by destruct (single_session_url r s u Hu Hne) as (_ & _ & -> & _).
  - left. destruct (SingleFacts.single_session_shape r s)
      as [(x & -> & _)|(url & ev & Hu & Hne & _)]; [done|].
    by specialize (Hno url Hu).
Qed.

(** Every file that a run opens is the file of one of its sessions, and a
    run opens at most one file more than the recursion limit leaves room
    for nested calls. *)
Lemma multi_run_opened_sub n t r scripts : ∀ depth,
  let tr := (MultiStreamRecorder._start_recording_with_stop_event depth n t r
               scripts).1 in
  opened tr ⊆ MultiStreamRecorder.session_path n t r <$> scripts ∧
  (length (opened tr) ≤ S depth)%nat.
Proof.
  induction scripts as [|s rest IH]; intros depth tr; unfold tr; clear tr.
  { simpl. split; [done|lia]. }
  assert (opened (MultiStreamRecorder.session n t r s).1
          ⊆ MultiStreamRecorder.session_path n t r <$> s :: rest ∧
          (length (opened (MultiStreamRecorder.session n t r s).1) ≤ 1)%nat)
    as [Hsub Hlen].
  { destruct (multi_session_opened n t r s) as [->| ->]; simpl.
    - split; [apply list_subseteq_nil|lia].
    - split; [|lia]. intros p Hp%list_elem_of_singleton. subst. left. }
  destruct (MultiStreamRecorder.restarts (MultiStreamRecorder.session n t r s).2)
    eqn:E.
  - destruct depth as [|depth].
    + rewrite multi_run_limit. split; [done|lia].
    + rewrite multi_run_restart by done. rewrite opened_app, length_app.
      destruct (IH depth) as [Hs1 Hl1]. split; [|lia].
      intros p [Hp|Hp]%elem_of_app; [by apply Hsub|].
      rewrite fmap_cons. right. by apply Hs1.
  - rewrite multi_run_no_restart by done. split; [done|lia].
Qed.

Lemma single_run_opened_sub r scripts : ∀ depth r1,
  TikTokRecorder.same_target r r1 →
  let tr := (TikTokRecorder.start_recording depth r1 scripts).1.1 in
  opened tr ⊆ TikTokRecorder.session_path r <$> scripts ∧
  (length (opened tr) ≤ S depth)%nat.
Proof.
  induction scripts as [|s rest IH]; intros depth r1 Hr tr; unfold tr; clear tr.
  { simpl. split; [done|lia]. }
  destruct (single_session_same_target r r1 s Hr) as [He Ho].
  assert (opened (TikTokRecorder.session r1 s).1
          ⊆ TikTokRecorder.session_path r <$> s :: rest ∧
          (length (opened (TikTokRecorder.session r1 s).1) ≤ 1)%nat)
    as [Hsub Hlen].
  { rewrite Ho. destruct (single_session_opened r s) as [->| ->]; simpl.
    - split; [apply list_subseteq_nil|lia].
    - split; [|lia]. intros p Hp%list_elem_of_singleton. subst. left. }
  destruct (TikTokRecorder.restarts (TikTokRecorder.session r1 s).2) eqn:E.
  - destruct depth as [|depth].
    + rewrite single_run_limit. split; [done|lia].
    + destruct (single_run_restart depth r1 s rest E) as (why & u & _ & ->).
      rewrite opened_app, length_app.
      destruct (IH depth (TikTokRecorder.set_detector r1 u)) as [Hs1 Hl1].
      { by apply same_target_set_detector. }
      split; [|lia].
      intros p [Hp|Hp]%elem_of_app; [by apply Hsub|].
      rewrite fmap_cons. right. by apply Hs1.
  - rewrite single_run_no_restart by done. split; [done|lia].
Qed.

Lemma multi_session_path_inj n t r :
  Inj (=) (=) (fun tm =>
    output_path (MultiStreamRecorder.r_nt r) (MultiStreamRecorder.r_output r)
      (MultiStreamRecorder.r_user r) (strftime tm)
      (MultiStreamRecorder.output_suffix n t)).
Proof. intros t1 t2 Hp. by apply output_path_date_inj, strftime_inj in Hp. Qed.

Lemma single_session_path_inj r :
  Inj (=) (=) (fun tm =>
    output_path (TikTokRecorder.r_nt r) (TikTokRecorder.r_output r)
      (TikTokRecorder.r_user r) (strftime tm) EmptyString).
Proof. intros t1 t2 Hp. by apply output_path_date_inj, strftime_inj in Hp. Qed.

(** What a run of restarts leaves behind, read off the stamps of its
    sessions. *)
Lemma files_of_stamps (g : struct_time → string) (stamps : list struct_time)
    (tr : list event) :
  Inj (=) (=) g → opened tr = g <$> stamps →
  length (opened tr) = length stamps ∧
  (NoDup (opened tr) ↔ NoDup stamps) ∧
  size (files (replay tr empty_fs)) = length (remove_dups stamps) ∧
  (size (files (replay tr empty_fs)) = length stamps ↔ NoDup stamps).
Proof.
  intros Hg Ho. rewrite replay_files_count, Ho, length_fmap.
  rewrite remove_dups_fmap_inj, length_fmap by done.
  split_and!; [done|by apply NoDup_fmap|done|apply length_remove_dups_NoDup].
Qed.

Lemma elem_of_opened p tr : p ∈ opened tr ↔ EvOpen p ∈ tr.
Proof.
  unfold opened. rewrite list_elem_of_omap. split.
  - intros (e & He & Hp). destruct e; try done. by injection Hp as ->.
  - intros H. by exists (EvOpen p).
Qed.

Lemma base_output_cases nt :
  base_output nt None = EmptyString ∧
  base_output nt (Some EmptyString) = EmptyString ∧
  (∀ o, o ≠ EmptyString →
        last_char o = Some "/"%char ∨ last_char o = Some backslash →
        base_output nt (Some o) = o) ∧
  (∀ o, o ≠ EmptyString →
        last_char o ≠ Some "/"%char → last_char o ≠ Some backslash →
        base_output nt (Some o)
        = o +:+ String (if nt then backslash else "/"%char) EmptyString).
Proof.
  split_and!; try reflexivity.
  - intros o Hne Hl. unfold base_output, endswith. simpl.
    apply String.eqb_neq in Hne as ->. simpl.
    destruct Hl as [Hl|Hl].
    + by rewrite (bool_decide_eq_true_2 _ Hl).
    + rewrite (bool_decide_eq_true_2 (last_char o = Some backslash)) by done.
      by rewrite orb_true_r.
  - intros o Hne H1 H2. unfold base_output, endswith. simpl.
    apply String.eqb_neq in Hne as ->. simpl.
    rewrite !bool_decide_eq_false_2 by done. simpl. by destruct nt.
Qed.




(** One pass of the automatic mode of the single recorder that lets an
    [Exception] out that is neither "offline" nor a closed connection:
    it is logged, and the next pass follows at once. *)
Lemma single_pass_raised depth r ti its tr e r1 :
  (TikTokRecorder.ti_room ti = Raise e ∧ tr = [] ∧ r1 = r) ∨
  (∃ room, TikTokRecorder.ti_room ti = Ok room ∧
     TikTokRecorder.manual_mode depth (TikTokRecorder.set_room_id r room)
       (TikTokRecorder.ti_alive ti) (TikTokRecorder.ti_sessions ti)
     = (tr, Raised e, r1)) →
  is_Exception e = true → e ≠ UserLiveException → e ≠ ConnectionError →
  let rest := TikTokRecorder.automatic_mode depth r1 its in
  TikTokRecorder.automatic_mode depth r (ti :: its) = (tr ++ rest.1, rest.2).
Proof.
  intros H He Hu Hc rest. simpl.
  destruct H as [(-> & -> & ->)|(room & -> & ->)]; unfold rest;
    destruct (TikTokRecorder.automatic_mode depth _ its) as [tr1 o1];
    by destruct e.
Qed.

(** ** The claims of the specification *)

(** Claim C1. Whatever the probes return, the monitoring loop calls the
    resolution-change callback once per change, with (old, new): the calls
    made by any number of loop iterations are those of [spec_calls] over the
    successful probes that were made, where the first success only sets the
    baseline, a success equal to the baseline calls nothing, and a success
    that differs calls once and becomes the baseline. The same holds from
    [start_monitoring] on, whose own probe may set the baseline. For the
    samples 720p, 720p, 1080p, 1080p the callback is called exactly once,
    with (720p, 1080p). *)
Theorem C1_callback_once_per_change (int_of_str : string → option Z) :
  (∀ probes d n,
     let run := monitor_iterations int_of_str probes d n in
     calls run.1 = calls d ++
       spec_calls (current_resolution d)
                  (successes int_of_str (take run.2 probes)) ∧
     current_resolution run.1 =
       spec_baseline (current_resolution d)
                     (successes int_of_str (take run.2 probes))) ∧
  (∀ url interval initial probes,
     let run := monitor int_of_str (new_detector url interval) initial probes in
     calls run.1 =
       spec_calls None (successes int_of_str (initial :: take run.2 probes))) ∧
  (∀ url interval,
     calls (monitor int_of_str (new_detector url interval) (probe_ok 1280 720)
              [probe_ok 1280 720; probe_ok 1920 1080; probe_ok 1920 1080]).1
     = [(r720p, r1080p)]) ∧
  (∀ url interval,
     calls (_monitor_loop int_of_str
              [probe_ok 1280 720; probe_ok 1280 720;
               probe_ok 1920 1080; probe_ok 1920 1080]
              (new_detector url interval)).1
     = [(r720p, r1080p)]).
Proof.
  split_and!.
  - intros probes d n run.
    destruct (DetectorFacts.monitor_iterations_calls int_of_str probes d n)
      as (_ & H1 & H2). done.
  - intros url interval initial probes. simpl.
    unfold monitor, _monitor_loop, start_monitoring. simpl.
    set (d1 := match get_current_resolution int_of_str initial with
               | Ok (Some r) => _ | _ => _ end).
    destruct (DetectorFacts.monitor_iterations_calls int_of_str probes d1 0)
      as (_ & H1 & _).
    destruct (monitor_iterations int_of_str probes d1 0) as [d' k] eqn:E.
    simpl in *. rewrite H1. unfold d1.
    destruct (get_current_resolution int_of_str initial) as [[r|]|e]; done.
  - intros. reflexivity.
  - intros. reflexivity.
Qed.




(** Claim C3, as stated, fails: in the multi-stream recorder a chunk
    that arrives once the stop event is set is received but dropped, so
    fewer bytes are written than were received. *)
Lemma C3_chunk_in_hand_dropped_on_cancellation :
  let tr := (MultiStreamRecorder.session 2 (MultiStreamRecorder.stream_key 0)
               alice cancelled_mid_stream).1 in
  received tr = [x01; x02; x03] ∧
  written tr = [x01; x02] ∧
  written tr ≠ received tr.
Proof. split_and!; [reflexivity|reflexivity|discriminate]. Qed.

(** Claim C3, amended. For every session and every exit of its streaming
    loop, all the bytes appended to the buffer are written before the file
    is closed, and the file holds exactly them. In the single recorder these
    are all the bytes received; in the multi-stream recorder they are the
    bytes received while the stop event was clear. *)
Theorem C3_buffered_bytes_reach_the_file :
  (∀ r s,
     let tr := (TikTokRecorder.session r s).1 in
     written_before_close tr = received tr ∧ written tr = received tr) ∧
  (∀ n t r s,
     let tr := (MultiStreamRecorder.session n t r s).1 in
     written_before_close tr = received_running tr ∧
     written tr = received_running tr) ∧
  (∀ r s url fs0,
     ss_live_url s = Ok (Some url) → url ≠ EmptyString →
     let tr := (TikTokRecorder.session r s).1 in
     files (replay tr fs0) !! TikTokRecorder.session_path r s
     = Some (received tr)) ∧
  (∀ n t r s url fs0,
     ss_live_url s = Ok (Some url) → url ≠ EmptyString →
     let tr := (MultiStreamRecorder.session n t r s).1 in
     files (replay tr fs0) !! MultiStreamRecorder.session_path n t r s
     = Some (received_running tr)).
Proof.
  split_and!.
  - apply single_session_bytes.
  - apply multi_session_bytes.
  - apply single_session_file.
  - apply multi_session_file.
Qed.

(** The cancelled session's file holds the two chunks that came before
    the stop event. *)
Lemma C3_buffered_bytes_reach_the_file_witness :
  files (replay (MultiStreamRecorder.session 2 (MultiStreamRecorder.stream_key 0)
                   alice cancelled_mid_stream).1 empty_fs)
    !! MultiStreamRecorder.session_path 2 (MultiStreamRecorder.stream_key 0)
         alice cancelled_mid_stream
  = Some [x01; x02].
Proof.
  apply (proj2 (proj2 (proj2 C3_buffered_bytes_reach_the_file))
           2%nat (MultiStreamRecorder.stream_key 0) alice cancelled_mid_stream
           pull_url empty_fs); [reflexivity|discriminate].
Defined.




(** Claim C5, as stated, fails: the file is closed first, and the monitor
    is stopped after that. *)
Lemma C5_sink_closed_before_monitor_stopped :
  let tr := (MultiStreamRecorder.session 1 (MultiStreamRecorder.stream_key 0)
               alice went_offline).1 in
  (index_of EvClose tr = Some 4%nat) ∧
  (index_of EvMonitorStop tr = Some 5%nat) ∧
  (¬ precedes EvMonitorStop EvClose tr).
Proof.
  split_and!; [reflexivity|reflexivity|]. vm_compute. lia.
Qed.

(** Claim C5, amended. In every session that opened its file, the monitor
    is stopped exactly once, right after the only close of the file and
    right before the conversion, on every exit of the streaming loop that
    the loop's handlers catch (in the multi-stream recorder: every
    [Exception]; in the single recorder: [KeyboardInterrupt] as well).
    Whenever the monitor is stopped at all, the close comes before. *)
Theorem C5_monitor_stopped_after_sink_closed :
  (∀ n t r s,
     let tr := (MultiStreamRecorder.session n t r s).1 in
     EvClose ∈ tr → raises_only_Exception s →
     ∃ pre post,
       tr = pre ++ [EvClose; EvMonitorStop;
                    EvConvert (MultiStreamRecorder.session_path n t r s)] ++ post ∧
       EvClose ∉ pre ∧ EvMonitorStop ∉ pre ∧
       EvClose ∉ post ∧ EvMonitorStop ∉ post) ∧
  (∀ n t r s,
     let tr := (MultiStreamRecorder.session n t r s).1 in
     EvMonitorStop ∈ tr →
     precedes EvClose EvMonitorStop tr ∧
     precedes EvMonitorStop
              (EvConvert (MultiStreamRecorder.session_path n t r s)) tr) ∧
  (∀ r s,
     let tr := (TikTokRecorder.session r s).1 in
     EvClose ∈ tr →
     ∃ pre post,
       tr = pre ++ [EvClose; EvMonitorStop;
                    EvConvert (TikTokRecorder.session_path r s)] ++ post ∧
       EvClose ∉ pre ∧ EvMonitorStop ∉ pre ∧
       EvClose ∉ post ∧ EvMonitorStop ∉ post).
Proof.
  split_and!.
  - apply multi_session_exit.
  - apply multi_session_stop_after_close.
  - apply single_session_exit.
Qed.

(** The session that ends because the room went offline. *)
Lemma C5_monitor_stopped_after_sink_closed_witness :
  let tr := (MultiStreamRecorder.session 1 (MultiStreamRecorder.stream_key 0)
               alice went_offline).1 in
  precedes EvClose EvMonitorStop tr ∧
  precedes EvMonitorStop
    (EvConvert (MultiStreamRecorder.session_path 1 (MultiStreamRecorder.stream_key 0)
                  alice went_offline)) tr.
Proof.
  apply (proj1 (proj2 C5_monitor_stopped_after_sink_closed)
           1%nat (MultiStreamRecorder.stream_key 0) alice went_offline).
  vm_compute. do 5 right. left.
Defined.

(** Claim C6, as stated, fails: the name of a file carries the local
    time to the second and nothing else that tells the sessions of a run
    apart. A restarted session whose clock reads the same second as the
    session before opens the same path again: of the two recordings one
    file is left, and it holds the second one only. *)
Lemma C6_same_second_same_file :
  let tr := (MultiStreamRecorder._start_recording_with_stop_event 1 2
               (MultiStreamRecorder.stream_key 0) alice
               [resolution_changed; second_session_same_second]).1 in
  let path := "rec/alice/TK_alice_2025.06.01_12-00-00_Stream-1_flv.mp4" in
  opened tr = [path; path] ∧
  ¬ NoDup (opened tr) ∧
  size (files (replay tr empty_fs)) = 1%nat ∧
  files (replay tr empty_fs) !! path = Some [x04].
Proof.
  assert (opened (MultiStreamRecorder._start_recording_with_stop_event 1 2
               (MultiStreamRecorder.stream_key 0) alice
               [resolution_changed; second_session_same_second]).1
          = ["rec/alice/TK_alice_2025.06.01_12-00-00_Stream-1_flv.mp4";
             "rec/alice/TK_alice_2025.06.01_12-00-00_Stream-1_flv.mp4"]) as Ho
    by reflexivity.
  split_and!.
  - exact Ho.
  - rewrite Ho. intros H. apply NoDup_cons in H as [H _]. apply H. left.
  - rewrite replay_files_count. cbv zeta. rewrite Ho. reflexivity.
  - vm_compute. reflexivity.
Qed.

(** Claim C6, amended. A session that has a playback URL first makes the
    folder [<output><user>/] and then opens, as its only file,
    [<folder>TK_<user>_<stamp><suffix>_flv.mp4]: the stamp is the local
    time at the start of the session to the second, the suffix is [_]
    and the name of the stream when more than one target is recorded and
    empty otherwise, and [<output>] is the output directory with a
    separator added unless it is empty or ends in one. A run of N
    restarted sessions and a last one, within the recursion limit, opens
    N+1 files; they are N+1 different files exactly when the N+1 stamps
    are pairwise different, and the number of files left is the number of
    different stamps. No run opens more files than the recursion limit
    allows nested calls, plus one. With more than one target, no file of
    one stream is ever a file of another. *)
Theorem C6_output_paths_never_collide :
  (∀ n t r s url,
     ss_live_url s = Ok (Some url) → url ≠ EmptyString →
     let user := default "None" (MultiStreamRecorder.r_user r) in
     let folder :=
       base_output (MultiStreamRecorder.r_nt r) (MultiStreamRecorder.r_output r)
       +:+ user +:+ "/" in
     let suffix := if (1 <? n)%nat then "_" +:+ t else EmptyString in
     let path := folder +:+ "TK_" +:+ user +:+ "_" +:+
                 strftime (ss_localtime s) +:+ suffix +:+ "_flv.mp4" in
     ∃ tl, (MultiStreamRecorder.session n t r s).1 =
           EvMakedirs folder :: EvOpen path :: tl ∧
           opened (MultiStreamRecorder.session n t r s).1 = [path]) ∧
  (∀ r s url,
     ss_live_url s = Ok (Some url) → url ≠ EmptyString →
     let user := default "None" (TikTokRecorder.r_user r) in
     let folder :=
       base_output (TikTokRecorder.r_nt r) (TikTokRecorder.r_output r)
       +:+ user +:+ "/" in
     let path := folder +:+ "TK_" +:+ user +:+ "_" +:+
                 strftime (ss_localtime s) +:+ "_flv.mp4" in
     ∃ tl, (TikTokRecorder.session r s).1 =
           EvMakedirs folder :: EvOpen path :: tl ∧
           opened (TikTokRecorder.session r s).1 = [path]) ∧
  (∀ nt,
     base_output nt None = EmptyString ∧
     base_output nt (Some EmptyString) = EmptyString ∧
     (∀ o, o ≠ EmptyString →
           last_char o = Some "/"%char ∨ last_char o = Some backslash →
           base_output nt (Some o) = o) ∧
     (∀ o, o ≠ EmptyString →
           last_char o ≠ Some "/"%char → last_char o ≠ Some backslash →
           base_output nt (Some o)
           = o +:+ String (if nt then backslash else "/"%char) EmptyString)) ∧
  (∀ depth n t r front last,
     (length front ≤ depth)%nat →
     Forall (fun s => MultiStreamRecorder.restarts
                        (MultiStreamRecorder.session n t r s).2 = true) front →
     MultiStreamRecorder.restarts (MultiStreamRecorder.session n t r last).2 = false →
     (∃ url, ss_live_url last = Ok (Some url) ∧ url ≠ EmptyString) →
     let tr := (MultiStreamRecorder._start_recording_with_stop_event depth n t r
                  (front ++ [last])).1 in
     let stamps := ss_localtime <$> (front ++ [last]) in
     let user := default "None" (MultiStreamRecorder.r_user r) in
     let folder :=
       base_output (MultiStreamRecorder.r_nt r) (MultiStreamRecorder.r_output r)
       +:+ user +:+ "/" in
     let suffix := if (1 <? n)%nat then "_" +:+ t else EmptyString in
     opened tr = (fun stamp => folder +:+ "TK_" +:+ user +:+ "_" +:+
                               strftime stamp +:+ suffix +:+ "_flv.mp4")
                 <$> stamps ∧
     length (opened tr) = S (length front) ∧
     (NoDup (opened tr) ↔ NoDup stamps) ∧
     size (files (replay tr empty_fs)) = length (remove_dups stamps) ∧
     (size (files (replay tr empty_fs)) = S (length front) ↔ NoDup stamps)) ∧
  (∀ depth r front last,
     (length front ≤ depth)%nat →
     Forall (fun s => TikTokRecorder.restarts
                        (TikTokRecorder.session r s).2 = true) front →
     TikTokRecorder.restarts (TikTokRecorder.session r last).2 = false →
     (∃ url, ss_live_url last = Ok (Some url) ∧ url ≠ EmptyString) →
     let tr := (TikTokRecorder.start_recording depth r (front ++ [last])).1.1 in
     let stamps := ss_localtime <$> (front ++ [last]) in
     let user := default "None" (TikTokRecorder.r_user r) in
     let folder :=
       base_output (TikTokRecorder.r_nt r) (TikTokRecorder.r_output r)
       +:+ user +:+ "/" in
     opened tr = (fun stamp => folder +:+ "TK_" +:+ user +:+ "_" +:+
                               strftime stamp +:+ "_flv.mp4")
                 <$> stamps ∧
     length (opened tr) = S (length front) ∧
     (NoDup (opened tr) ↔ NoDup stamps) ∧
     size (files (replay tr empty_fs)) = length (remove_dups stamps) ∧
     (size (files (replay tr empty_fs)) = S (length front) ↔ NoDup stamps)) ∧
  (∀ depth n t r scripts,
     (length (opened (MultiStreamRecorder._start_recording_with_stop_event
                        depth n t r scripts).1) ≤ S depth)%nat) ∧
  (∀ depth r scripts,
     (length (opened (TikTokRecorder.start_recording depth r scripts).1.1)
      ≤ S depth)%nat) ∧
  (∀ n i j depth1 depth2 r1 r2 scripts1 scripts2 p1 p2,
     (1 < n)%nat → i ≠ j →
     EvOpen p1 ∈ (MultiStreamRecorder._start_recording_with_stop_event depth1 n
                    (MultiStreamRecorder.stream_key i) r1 scripts1).1 →
     EvOpen p2 ∈ (MultiStreamRecorder._start_recording_with_stop_event depth2 n
                    (MultiStreamRecorder.stream_key j) r2 scripts2).1 →
     p1 ≠ p2).
Proof.
  split_and!.
  - intros n t r s url Hu Hne user folder suffix path.
    destruct (multi_session_url n t r s url Hu Hne) as (_ & _ & Ho & tl & Htl).
    exists tl. by split.
  - intros r s url Hu Hne user folder path.
    destruct (single_session_url r s url Hu Hne) as (_ & _ & Ho & tl & Htl).
    exists tl. by split.
  - apply base_output_cases.
  - intros depth n t r front last Hd Hf Hl Hu tr stamps user folder suffix.
    assert (opened tr = MultiStreamRecorder.session_path n t r <$> (front ++ [last]))
      as Ho by (by apply multi_run_opened).
    assert (opened tr = (fun stamp => folder +:+ "TK_" +:+ user +:+ "_" +:+
                           strftime stamp +:+ suffix +:+ "_flv.mp4") <$> stamps)
      as Ho'.
    { rewrite Ho. unfold stamps. by rewrite <- list_fmap_compose. }
    destruct (files_of_stamps _ stamps tr (multi_session_path_inj n t r))
      as (H1 & H2 & H3 & H4); [exact Ho'|].
    assert (length stamps = S (length front)) as Hlen.
    { unfold stamps. rewrite length_fmap, length_app. simpl. lia. }
    rewrite Hlen in H1, H4. done.
  - intros depth r front last Hd Hf Hl Hu tr stamps user folder.
    assert (opened tr = TikTokRecorder.session_path r <$> (front ++ [last]))
      as Ho by (apply single_run_opened; [done|apply same_target_refl|done..]).
    assert (opened tr = (fun stamp => folder +:+ "TK_" +:+ user +:+ "_" +:+
                           strftime stamp +:+ "_flv.mp4") <$> stamps)
      as Ho'.
    { rewrite Ho. unfold stamps. by rewrite <- list_fmap_compose. }
    destruct (files_of_stamps _ stamps tr (single_session_path_inj r))
      as (H1 & H2 & H3 & H4); [exact Ho'|].
    assert (length stamps = S (length front)) as Hlen.
    { unfold stamps. rewrite length_fmap, length_app. simpl. lia. }
    rewrite Hlen in H1, H4. done.
  - intros. apply multi_run_opened_sub.
  - intros depth r scripts.
    apply (single_run_opened_sub r scripts depth r), same_target_refl.
  - intros n i j depth1 depth2 r1 r2 scripts1 scripts2 p1 p2 Hn Hij
      H1%elem_of_opened H2%elem_of_opened ->.
    apply (proj1 (multi_run_opened_sub _ _ _ _ _)), list_elem_of_fmap in H1
      as (s1 & Hp1 & _).
    apply (proj1 (multi_run_opened_sub _ _ _ _ _)), list_elem_of_fmap in H2
      as (s2 & Hp2 & _).
    rewrite Hp1 in Hp2. unfold MultiStreamRecorder.session_path in Hp2.
    by apply output_path_stream_inj in Hp2.
Qed.

(** One restart, two seconds apart: two files. *)
Lemma C6_output_paths_never_collide_witness :
  let tr := (MultiStreamRecorder._start_recording_with_stop_event 1 2
               (MultiStreamRecorder.stream_key 0) alice
               ([resolution_changed] ++ [second_session])).1 in
  size (files (replay tr empty_fs)) = 2%nat.
Proof.
  apply (proj1 (proj2 (proj2 (proj2 C6_output_paths_never_collide)))
           1%nat 2%nat (MultiStreamRecorder.stream_key 0) alice
           [resolution_changed] second_session).
  - simpl. lia.
  - repeat constructor.
  - reflexivity.
  - exists pull_url_hd. split; [reflexivity|discriminate].
  - apply (bool_decide_unpack _). vm_compute. exact I.
Defined.




(** Claim C8 against the code. A [RequestException] raised by the
    download after the first chunk ends the multi-stream session: no pause,
    no second download, and the session is over with the error as its
    reason. On the same input the single recorder sleeps two seconds,
    downloads again and goes on receiving. *)
Theorem C8_multi_stream_session_ends_on_transport_error :
  let multi := MultiStreamRecorder.session 2 (MultiStreamRecorder.stream_key 0)
                 alice transport_hiccup in
  let single := TikTokRecorder.session alice_alone transport_hiccup in
  multi.2 = MultiStreamRecorder.SessionDone (Errored RequestException) false ∧
  downloads multi.1 = [pull_url] ∧
  sleeps multi.1 = [] ∧
  received multi.1 = [x01] ∧
  single.2 = TikTokRecorder.SessionDone Offline false ∧
  downloads single.1 = [pull_url; pull_url] ∧
  sleeps single.1 = [2] ∧
  received single.1 = [x01; x02].
Proof. split_and!; reflexivity. Qed.

(** Claim C9, as stated, fails: with a user name given and only a room
    override stored, the stated order gives the room's value, the code the
    global default. *)
Lemma C9_room_override_ignored_when_user_is_known :
  (room_override room_only (Some "7318") "restart_on_resolution_change"
   = Some (VBool true)) ∧
  (user_override room_only (Some "alice") "restart_on_resolution_change" = None) ∧
  (spec_lookup room_only (Some "alice") (Some "7318")
     "restart_on_resolution_change" (VBool false) = VBool true) ∧
  (should_restart_on_resolution_change room_only (Some "alice") (Some "7318")
   = VBool false) ∧
  (get_resolution_check_interval room_only (Some "alice") (Some "7318")
   ≠ spec_lookup room_only (Some "alice") (Some "7318")
       "resolution_check_interval" (VInt 5)).
Proof. split_and!; try (vm_compute; reflexivity). vm_compute. discriminate. Qed.

(** Claim C9, amended. Both settings are looked up as: with a user given,
    the user's override, else the global default; with no user but a room,
    the room's override, else the global default; else the global default.
    This agrees with the order user, room, global whenever the user has an
    override or the room has none, and whenever no user is given. The
    multi-stream recorder reads the stored settings at the start of each
    session: the monitor's interval and the decision to restart come from
    the file as it is then. The single recorder reads them once, when it is
    built: a session is the same whatever the file holds by then. *)
Theorem C9_settings_lookup_and_freshness :
  (∀ c user room setting dflt,
     lookup_setting c user room setting dflt =
     if str_truthy user then
       default (global_default c setting dflt) (user_override c user setting)
     else if str_truthy room then
       default (global_default c setting dflt) (room_override c room setting)
     else global_default c setting dflt) ∧
  (∀ c user room setting dflt,
     str_truthy user = true →
     is_Some (user_override c user setting) ∨ room_override c room setting = None →
     lookup_setting c user room setting dflt = spec_lookup c user room setting dflt) ∧
  (∀ c room setting dflt,
     str_truthy room = true →
     lookup_setting c None room setting dflt = spec_lookup c None room setting dflt) ∧
  (∀ n t r s url,
     ss_live_url s = Ok (Some url) → url ≠ EmptyString →
     EvMonitorStart (Some url)
       (get_resolution_check_interval (_load_config (ss_config_file s)).1
          (MultiStreamRecorder.r_user r) (MultiStreamRecorder.r_room_id r))
     ∈ (MultiStreamRecorder.session n t r s).1) ∧
  (∀ n t r s,
     MultiStreamRecorder.restart_flag_set (MultiStreamRecorder.session n t r s).2 = true →
     truthy (should_restart_on_resolution_change
               (_load_config (ss_config_file s)).1
               (MultiStreamRecorder.r_user r) (MultiStreamRecorder.r_room_id r)) = true) ∧
  (∀ r url t file file' its late stop alive restart_url,
     TikTokRecorder.session r
       (SessionScript url t file its late stop alive restart_url) =
     TikTokRecorder.session r
       (SessionScript url t file' its late stop alive restart_url)) ∧
  (∀ r s,
     TikTokRecorder.restart_flag_set (TikTokRecorder.session r s).2 = true →
     truthy (should_restart_on_resolution_change
               (TikTokRecorder.r_config r)
               (TikTokRecorder.r_user r) (TikTokRecorder.r_room_id r)) = true).
Proof.
  split_and!.
  - apply ConfigFacts.lookup_setting_spec.
  - apply lookup_setting_agrees_user.
  - apply lookup_setting_agrees_room.
  - intros n t r s url Hu Hne.
    destruct (MultiFacts.multi_session_shape n t r s)
      as [(x & _ & Hx)|(url' & ev & Hu' & _ & _ & _ & _ & _ & H)].
    { by specialize (Hx url Hu). }
    assert (url' = url) as -> by congruence.
    assert (EvMonitorStart (Some url)
              (get_resolution_check_interval (_load_config (ss_config_file s)).1
                 (MultiStreamRecorder.r_user r) (MultiStreamRecorder.r_room_id r))
            ∈ MultiStreamRecorder.opening n t r s url) as Hin.
    { unfold MultiStreamRecorder.opening, MultiStreamRecorder.session_config.
      do 2 right. left. }
    destruct H as [->|[(x & -> & _)|(post & e & -> & _)]]; cbn [fst];
      apply elem_of_app; by left.
  - apply FlagFacts.multi_restart_enabled.
  - reflexivity.
  - apply FlagFacts.single_restart_enabled.
Qed.

(** With an override for the user the two orders agree. *)
Lemma C9_settings_lookup_and_freshness_witness :
  lookup_setting restart_for_alice (Some "alice") (Some "7318")
    "restart_on_resolution_change" (VBool false)
  = spec_lookup restart_for_alice (Some "alice") (Some "7318")
      "restart_on_resolution_change" (VBool false).
Proof.
  apply (proj1 (proj2 C9_settings_lookup_and_freshness)).
  - reflexivity.
  - left. vm_compute. by eexists.
Defined.




(** ** Further properties of the code

    The statements below are read off the sources themselves: the writing
    of settings, the settings block of [main], the counting of failed
    probes, the streaming loops, the progress table and the displays, the
    validation of the command line and the construction of a recorder. *)

Module ConfigWriteFacts.
Import ConfigManager ConfigWrites.

Lemma get_user_with_user c u s v d :
  get_user_setting (with_user_setting c u s v) u s d = v.
Proof.
  unfold get_user_setting, with_user_setting. simpl.
  rewrite lookup_insert_eq. simpl. by rewrite lookup_insert_eq.
Qed.

Lemma get_room_with_room c r s v d :
  get_room_setting (with_room_setting c r s v) r s d = v.
Proof.
  unfold get_room_setting, with_room_setting. simpl.
  rewrite lookup_insert_eq. simpl. by rewrite lookup_insert_eq.
Qed.

Lemma get_user_with_user_ne c u s v u' s' d :
  u' ≠ u ∨ s' ≠ s →
  get_user_setting (with_user_setting c u s v) u' s' d = get_user_setting c u' s' d.
Proof.
  intros H. unfold get_user_setting, with_user_setting. simpl.
  destruct (decide (u' = u)) as [->|Hu].
  - destruct H as [H|H]; [done|].
    rewrite lookup_insert_eq. simpl. by rewrite lookup_insert_ne.
  - by rewrite lookup_insert_ne.
Qed.

Lemma get_room_with_room_ne c r s v r' s' d :
  r' ≠ r ∨ s' ≠ s →
  get_room_setting (with_room_setting c r s v) r' s' d = get_room_setting c r' s' d.
Proof.
  intros H. unfold get_room_setting, with_room_setting. simpl.
  destruct (decide (r' = r)) as [->|Hr].
  - destruct H as [H|H]; [done|].
    rewrite lookup_insert_eq. simpl. by rewrite lookup_insert_ne.
  - by rewrite lookup_insert_ne.
Qed.

Lemma str_truthy_Some u : u ≠ EmptyString → str_truthy (Some u) = true.
Proof. intros H. simpl. by destruct (String.eqb_spec u EmptyString). Qed.

Lemma str_truthy_inv o : str_truthy o = true → ∃ u, o = Some u ∧ u ≠ EmptyString.
Proof.
  destruct o as [u|]; [|done]. simpl.
  destruct (String.eqb_spec u EmptyString); [done|]. eauto.
Qed.

End ConfigWriteFacts.

Import ConfigManager ConfigWrites ConfigWriteFacts.

(** X1. A setting written for a user or a room is the value read back for
    that user or room, whatever the dictionary held before (also when
    the [users] or [rooms] key was missing) and whatever default the
    reader passes; a look-up for a named user returns it. When the file
    can be written, a manager constructed afterwards holds the same
    dictionary; when it cannot, the file is as it was. *)
Theorem X1_setting_written_is_read :
  (∀ w m u s v d,
     get_user_setting (set_user_setting w m u s v).1 u s d = v) ∧
  (∀ w m r s v d,
     get_room_setting (set_room_setting w m r s v).1 r s d = v) ∧
  (∀ w m u room s v d,
     u ≠ EmptyString →
     lookup_setting (set_user_setting w m u s v).1 (Some u) room s d = v) ∧
  (∀ w m r s v d,
     r ≠ EmptyString →
     lookup_setting (set_room_setting w m r s v).1 None (Some r) s d = v) ∧
  (∀ w m u s v,
     new_manager w (set_user_setting true m u s v).2 = set_user_setting true m u s v) ∧
  (∀ w m r s v,
     new_manager w (set_room_setting true m r s v).2 = set_room_setting true m r s v) ∧
  (∀ m u s v, (set_user_setting false m u s v).2 = m.2) ∧
  (∀ m r s v, (set_room_setting false m r s v).2 = m.2).
Proof.
  split_and!.
  - intros. apply get_user_with_user.
  - intros. apply get_room_with_room.
  - intros w m u room s v d Hu. unfold lookup_setting.
    rewrite str_truthy_Some by done. apply get_user_with_user.
  - intros w m r s v d Hr. unfold lookup_setting.
    rewrite str_truthy_Some by done. apply get_room_with_room.
  - done.
  - done.
  - done.
  - done.
Qed.

Lemma X1_setting_written_is_read_witness :
  lookup_setting
    (set_user_setting true (new_manager true Missing) "alice"
       "restart_on_resolution_change" (VBool true)).1
    (Some "alice") (Some "7318") "restart_on_resolution_change" (VBool false)
  = VBool true.
Proof.
  destruct X1_setting_written_is_read as (_ & _ & H & _).
  apply H. discriminate.
Defined.

(** X2. Writing one setting of one user changes nothing else: every other
    setting of that user, every setting of every other user, every
    setting of every room and the global defaults read as before. The same
    holds for a write to a room. *)
Theorem X2_setting_write_changes_nothing_else :
  (∀ w m u s v u' s' d,
     u' ≠ u ∨ s' ≠ s →
     get_user_setting (set_user_setting w m u s v).1 u' s' d
     = get_user_setting m.1 u' s' d) ∧
  (∀ w m u s v r s' d,
     get_room_setting (set_user_setting w m u s v).1 r s' d
     = get_room_setting m.1 r s' d) ∧
  (∀ w m u s v, c_default (set_user_setting w m u s v).1 = c_default m.1) ∧
  (∀ w m r s v r' s' d,
     r' ≠ r ∨ s' ≠ s →
     get_room_setting (set_room_setting w m r s v).1 r' s' d
     = get_room_setting m.1 r' s' d) ∧
  (∀ w m r s v u s' d,
     get_user_setting (set_room_setting w m r s v).1 u s' d
     = get_user_setting m.1 u s' d) ∧
  (∀ w m r s v, c_default (set_room_setting w m r s v).1 = c_default m.1).
Proof.
  split_and!; try done.
  - intros. by apply get_user_with_user_ne.
  - intros. by apply get_room_with_room_ne.
Qed.

Lemma X2_setting_write_changes_nothing_else_witness :
  get_user_setting
    (set_user_setting true (new_manager true Missing) "alice"
       "restart_on_resolution_change" (VBool true)).1
    "bob" "restart_on_resolution_change" (VBool false)
  = get_user_setting (new_manager true Missing).1
      "bob" "restart_on_resolution_change" (VBool false).
Proof.
  destruct X2_setting_write_changes_nothing_else as (H & _).
  apply H. left. discriminate.
Defined.

(** X3. A setting written for a room is never seen by a look-up that
    names a user: with a user name given, the flag and the interval are
    what they were before the write, whatever room the look-up names. *)
Theorem X3_room_setting_unseen_with_user :
  ∀ w m r s v user room,
    str_truthy user = true →
    should_restart_on_resolution_change (set_room_setting w m r s v).1 user room
    = should_restart_on_resolution_change m.1 user room ∧
    get_resolution_check_interval (set_room_setting w m r s v).1 user room
    = get_resolution_check_interval m.1 user room.
Proof.
  intros w m r s v user room Hu.
  unfold should_restart_on_resolution_change, get_resolution_check_interval,
    lookup_setting. rewrite Hu. done.
Qed.

Lemma X3_room_setting_unseen_with_user_witness :
  should_restart_on_resolution_change
    (set_room_setting true (new_manager true Missing) "7318"
       "restart_on_resolution_change" (VBool true)).1 (Some "alice") (Some "7318")
  = should_restart_on_resolution_change (new_manager true Missing).1
      (Some "alice") (Some "7318").
Proof.
  apply (X3_room_setting_unseen_with_user true (new_manager true Missing) "7318"
           "restart_on_resolution_change" (VBool true) (Some "alice") (Some "7318")).
  reflexivity.
Defined.

Import ConfigManager ConfigWrites ConfigWriteFacts.

Lemma with_user_setting_twice c u s v1 v2 :
  with_user_setting (with_user_setting c u s v1) u s v2 = with_user_setting c u s v2.
Proof.
  unfold with_user_setting. simpl. f_equal. f_equal.
  rewrite lookup_insert_eq. simpl.
  by rewrite insert_insert_eq, insert_insert_eq.
Qed.

Lemma with_user_setting_comm c u1 s1 v1 u2 s2 v2 :
  u1 ≠ u2 ∨ s1 ≠ s2 →
  with_user_setting (with_user_setting c u1 s1 v1) u2 s2 v2
  = with_user_setting (with_user_setting c u2 s2 v2) u1 s1 v1.
Proof.
  intros H. unfold with_user_setting. simpl. f_equal. f_equal.
  destruct (decide (u1 = u2)) as [->|Hu].
  - destruct H as [H|H]; [done|].
    rewrite !lookup_insert_eq. simpl. rewrite !insert_insert_eq.
    f_equal. by apply insert_insert_ne.
  - rewrite lookup_insert_ne by done.
    rewrite (lookup_insert_ne _ u2 u1) by done.
    by apply insert_insert_ne.
Qed.

(** X4. Writes compose as assignments do: of two writes to the same
    setting of the same user the later one stands, and writes to different
    settings or different users give the same dictionary in either order.
    With a writable file the file holds the dictionary after the last
    write. *)
Theorem X4_setting_writes_compose :
  (∀ w1 w2 m u s v1 v2,
     (set_user_setting w2 (set_user_setting w1 m u s v1) u s v2).1
     = (set_user_setting w2 m u s v2).1) ∧
  (∀ w1 w2 w3 w4 m u1 s1 v1 u2 s2 v2,
     u1 ≠ u2 ∨ s1 ≠ s2 →
     (set_user_setting w2 (set_user_setting w1 m u1 s1 v1) u2 s2 v2).1
     = (set_user_setting w4 (set_user_setting w3 m u2 s2 v2) u1 s1 v1).1) ∧
  (∀ w1 m u1 s1 v1 u2 s2 v2,
     let m' := set_user_setting true (set_user_setting w1 m u1 s1 v1) u2 s2 v2 in
     m'.2 = Stored m'.1).
Proof.
  split_and!.
  - intros. apply with_user_setting_twice.
  - intros. by apply with_user_setting_comm.
  - done.
Qed.

Lemma X4_setting_writes_compose_witness :
  (set_user_setting true
     (set_user_setting true (new_manager true Missing) "alice"
        "restart_on_resolution_change" (VBool true))
     "alice" "resolution_check_interval" (VInt 9)).1
  = (set_user_setting true
       (set_user_setting true (new_manager true Missing) "alice"
          "resolution_check_interval" (VInt 9))
       "alice" "restart_on_resolution_change" (VBool true)).1.
Proof.
  destruct X4_setting_writes_compose as (_ & H & _).
  apply H. right. discriminate.
Defined.

(** X5. Without a usable settings file every target gets the built-in
    defaults: when the file is missing or cannot be read, the restart on a
    resolution change is off and the check interval is 5 for every user
    and every room. A missing file is created with these defaults when it
    can be written and stays missing when it cannot; an unreadable one is
    left as it is; a stored dictionary is loaded as it is and the file is
    not touched. A second manager built on the file the first one left
    holds the same dictionary. *)
Theorem X5_defaults_without_settings_file :
  (∀ w f user room,
     f = Missing ∨ f = Unreadable →
     should_restart_on_resolution_change (new_manager w f).1 user room
     = VBool false ∧
     get_resolution_check_interval (new_manager w f).1 user room = VInt 5) ∧
  ((new_manager true Missing).2 = Stored default_config) ∧
  ((new_manager false Missing).2 = Missing) ∧
  (∀ w, (new_manager w Unreadable).2 = Unreadable) ∧
  (∀ w c, new_manager w (Stored c) = (c, Stored c)) ∧
  (∀ w w' f, (new_manager w' (new_manager w f).2).1 = (new_manager w f).1) ∧
  (∀ f, new_manager true f = ConfigManager._load_config f).
Proof.
  assert (∀ user room s d,
            lookup_setting default_config user room s d
            = default d (default_settings !! s)) as H.
  { intros user room s d. unfold lookup_setting, get_user_setting,
      get_room_setting. simpl.
    destruct (str_truthy user); [by rewrite lookup_empty|].
    destruct (str_truthy room); [by rewrite lookup_empty|]. done. }
  split_and!; try done.
  - intros w f user room [-> | ->];
      unfold should_restart_on_resolution_change,
        get_resolution_check_interval; simpl; by rewrite !H.
  - by intros [] [] [| |c].
Qed.

Lemma X5_defaults_without_settings_file_witness :
  should_restart_on_resolution_change (new_manager false Missing).1
    (Some "alice") (Some "7318") = VBool false ∧
  get_resolution_check_interval (new_manager false Missing).1
    (Some "alice") (Some "7318") = VInt 5.
Proof.
  destruct X5_defaults_without_settings_file as (H & _).
  apply H. by left.
Defined.

Module MainFacts.
Import ConfigManager ConfigWrites ConfigWriteFacts Main.

Lemma foldl_set_user_get w key v us : ∀ m u d,
  get_user_setting
    (foldl (fun m user => set_user_setting w m user key v) m us).1 u key d
  = if bool_decide (u ∈ us) then v else get_user_setting m.1 u key d.
Proof.
  induction us as [|u0 us IH] using rev_ind; intros m u d.
  - cbn [foldl]. case_bool_decide; [set_solver|done].
  - rewrite foldl_app. cbn [foldl].
    destruct (decide (u = u0)) as [->|Hne].
    + unfold set_user_setting. cbn [fst]. rewrite get_user_with_user.
      case_bool_decide; [done|set_solver].
    + unfold set_user_setting at 1. cbn [fst].
      rewrite get_user_with_user_ne by auto. rewrite IH.
      do 2 case_bool_decide; set_solver.
Qed.

Lemma foldl_set_user_rooms w key v us : ∀ m,
  c_rooms (foldl (fun m user => set_user_setting w m user key v) m us).1
  = c_rooms m.1 ∧
  c_default (foldl (fun m user => set_user_setting w m user key v) m us).1
  = c_default m.1.
Proof.
  induction us as [|u0 us IH]; intros m; [done|].
  simpl. destruct (IH (set_user_setting w m u0 key v)) as [-> ->]. done.
Qed.

Lemma foldl_set_room_users w key v rs : ∀ m,
  c_users (foldl (fun m room => set_room_setting w m room key v) m rs).1
  = c_users m.1 ∧
  c_default (foldl (fun m room => set_room_setting w m room key v) m rs).1
  = c_default m.1.
Proof.
  induction rs as [|r0 rs IH]; intros m; [done|].
  simpl. destruct (IH (set_room_setting w m r0 key v)) as [-> ->]. done.
Qed.

Lemma get_user_setting_ext c c' u s d :
  c_users c = c_users c' → c_default c = c_default c' →
  get_user_setting c u s d = get_user_setting c' u s d.
Proof. unfold get_user_setting. by intros -> ->. Qed.

(** Whatever the restart options do, they leave the users alone when
    they are given as [room]. *)
Lemma set_restart_room_users w a flag m u s d :
  get_user_setting (set_restart w "room" a flag m).1 u s d
  = get_user_setting m.1 u s d.
Proof.
  unfold set_restart. simpl.
  destruct (str_truthy (a_room_id a)); [done|].
  destruct (list_truthy (a_room_ids a)); [|done].
  apply get_user_setting_ext; apply foldl_set_room_users.
Qed.

End MainFacts.

Import ConfigManager ConfigWrites ConfigWriteFacts Main MainFacts.

(** X6. The restart options of the command line. Without ffprobe the
    whole block does nothing, whatever the options say. With ffprobe, the
    option to enable given as [user] together with a user name turns the
    flag on for that user; when the option to disable is given as [user]
    as well, it is applied last and the flag ends up off. Given as [room],
    the options never change what is read for any user. *)
Theorem X6_command_line_restart_options :
  (∀ lower w a m, resolution_settings lower w false a m = (m, Finished)) ∧
  (∀ lower w a m e u room,
     enable_resolution_restart a = Some e → e ≠ EmptyString →
     lower e = "user" →
     disable_resolution_restart a = None →
     resolution_check_interval a = None →
     a_user a = Some u → u ≠ EmptyString →
     let out := resolution_settings lower w true a m in
     out.2 = Finished ∧
     should_restart_on_resolution_change out.1.1 (Some u) room = VBool true) ∧
  (∀ lower w a m e e' u room,
     enable_resolution_restart a = Some e → e ≠ EmptyString →
     lower e = "user" →
     disable_resolution_restart a = Some e' → e' ≠ EmptyString →
     lower e' = "user" →
     resolution_check_interval a = None →
     a_user a = Some u → u ≠ EmptyString →
     let out := resolution_settings lower w true a m in
     out.2 = Finished ∧
     should_restart_on_resolution_change out.1.1 (Some u) room = VBool false) ∧
  (∀ lower w a m e u s d,
     enable_resolution_restart a = Some e → lower e = "room" →
     disable_resolution_restart a = None →
     resolution_check_interval a = None →
     let out := resolution_settings lower w true a m in
     out.2 = Finished ∧
     get_user_setting out.1.1 u s d = get_user_setting m.1 u s d).
Proof.
  split_and!.
  - intros lower w a m. unfold resolution_settings.
    by destruct (_ || _).
  - intros lower w a m e u room He Hne Hl Hd Hi Hu Hune out. subst out.
    pose proof (str_truthy_Some e Hne) as Hte.
    pose proof (str_truthy_Some u Hune) as Htu.
    unfold resolution_settings, restart_option, interval_option, set_restart.
    rewrite He, Hd, Hi, Hu, Hte, Htu.
    change (default EmptyString (Some e)) with e. rewrite Hl.
    change (str_truthy None) with false.
    cbn -[str_truthy]. split; [done|].
    unfold should_restart_on_resolution_change, lookup_setting.
    rewrite (str_truthy_Some u) by done. apply get_user_with_user.
  - intros lower w a m e e' u room He Hne Hl Hd Hne' Hl' Hi Hu Hune out.
    subst out.
    pose proof (str_truthy_Some e Hne) as Hte.
    pose proof (str_truthy_Some e' Hne') as Hte'.
    pose proof (str_truthy_Some u Hune) as Htu.
    unfold resolution_settings, restart_option, interval_option, set_restart.
    rewrite He, Hd, Hi, Hu, Hte, Hte', Htu.
    change (default EmptyString (Some e)) with e.
    change (default EmptyString (Some e')) with e'. rewrite Hl, Hl'.
    cbn -[str_truthy]. split; [done|].
    unfold should_restart_on_resolution_change, lookup_setting.
    rewrite (str_truthy_Some u) by done. apply get_user_with_user.
  - intros lower w a m e u s d He Hl Hd Hi out. subst out.
    unfold resolution_settings, restart_option, interval_option.
    rewrite He, Hd, Hi. simpl.
    destruct (String.eqb_spec e EmptyString) as [->|Hne]; simpl; [done|].
    rewrite Hl. simpl. split; [done|]. apply set_restart_room_users.
Qed.

Lemma X6_command_line_restart_options_witness :
  let out := resolution_settings (fun s => s) true true Examples.enable_and_disable
               (new_manager true Missing) in
  out.2 = Finished ∧
  should_restart_on_resolution_change out.1.1 (Some "alice") None = VBool false.
Proof.
  destruct X6_command_line_restart_options as (_ & _ & H & _).
  apply (H (fun s => s) true Examples.enable_and_disable (new_manager true Missing)
           "user" "user" "alice" None);
    solve [reflexivity | discriminate].
Defined.

(** X7. The restart option for a list of users. With ffprobe, the option
    to enable given as [user], no single user name and a list of user
    names turns the flag on for every name of the list and leaves it as
    it was for every other name; no room setting and no global default is
    changed. *)
Theorem X7_command_line_restart_for_each_user :
  ∀ lower w a m e us,
    enable_resolution_restart a = Some e → e ≠ EmptyString →
    lower e = "user" →
    disable_resolution_restart a = None →
    resolution_check_interval a = None →
    str_truthy (a_user a) = false →
    a_users a = Some us → us ≠ [] →
    let out := resolution_settings lower w true a m in
    out.2 = Finished ∧
    (∀ u d, u ∈ us →
       get_user_setting out.1.1 u "restart_on_resolution_change" d = VBool true) ∧
    (∀ u d, u ∉ us →
       get_user_setting out.1.1 u "restart_on_resolution_change" d
       = get_user_setting m.1 u "restart_on_resolution_change" d) ∧
    c_rooms out.1.1 = c_rooms m.1 ∧
    c_default out.1.1 = c_default m.1.
Proof.
  intros lower w a m e us He Hne Hl Hd Hi Hu Hus Hnil out. subst out.
  pose proof (str_truthy_Some e Hne) as Hte.
  unfold resolution_settings, restart_option, interval_option, set_restart.
  rewrite He, Hd, Hi, Hu, Hus, Hte.
  change (default EmptyString (Some e)) with e. rewrite Hl.
  destruct us as [|u0 us']; [done|].
  change (str_truthy None) with false.
  cbn -[str_truthy foldl elem_of]. split; [done|].
  split_and!.
  - intros u d Hin. rewrite foldl_set_user_get.
    by rewrite bool_decide_eq_true_2.
  - intros u d Hin. rewrite foldl_set_user_get.
    by rewrite bool_decide_eq_false_2.
  - apply foldl_set_user_rooms.
  - apply foldl_set_user_rooms.
Qed.

Lemma X7_command_line_restart_for_each_user_witness :
  get_user_setting
    (resolution_settings (fun s => s) true true Examples.enable_for_users
       (new_manager true Missing)).1.1
    "bob" "restart_on_resolution_change" (VBool false) = VBool true.
Proof.
  refine (proj1 (proj2 (X7_command_line_restart_for_each_user (fun s => s) true
                          Examples.enable_for_users (new_manager true Missing) "user"
                          ["alice"; "bob"] eq_refl _ eq_refl eq_refl eq_refl
                          eq_refl eq_refl _)) "bob" (VBool false) _).
  - discriminate.
  - discriminate.
  - do 2 constructor.
Defined.

(** X8. A run that is refused may already have changed the settings. With
    ffprobe, when the option to enable is given as [user] for a user and
    the check interval given is smaller than 1, the block ends in
    [ArgsParseError], but the flag has been written for the user by then:
    with a writable file the file holds it. The same holds when the
    option to disable is neither [user] nor [room]: it is refused only
    after the option to enable has been carried out, and what that wrote
    stays. Only an option to enable that is neither [user] nor [room] is
    refused before anything is written. *)
Theorem X8_refused_run_keeps_earlier_writes :
  (∀ lower w a m e u n,
     enable_resolution_restart a = Some e → e ≠ EmptyString →
     lower e = "user" →
     disable_resolution_restart a = None →
     resolution_check_interval a = Some n → n < 1 →
     a_user a = Some u → u ≠ EmptyString →
     resolution_settings lower w true a m
     = (set_user_setting w m u "restart_on_resolution_change" (VBool true),
        ArgsParseError)) ∧
  (∀ lower w a m e,
     enable_resolution_restart a = Some e → e ≠ EmptyString →
     lower e ≠ "user" → lower e ≠ "room" →
     resolution_settings lower w true a m = (m, ArgsParseError)) ∧
  (∀ lower w a m e' m1,
     disable_resolution_restart a = Some e' → e' ≠ EmptyString →
     lower e' ≠ "user" → lower e' ≠ "room" →
     restart_option lower w (enable_resolution_restart a) a true m
     = (m1, Finished) →
     resolution_settings lower w true a m = (m1, ArgsParseError)) ∧
  (∀ lower w a m e e' u,
     enable_resolution_restart a = Some e → e ≠ EmptyString →
     lower e = "user" →
     disable_resolution_restart a = Some e' → e' ≠ EmptyString →
     lower e' ≠ "user" → lower e' ≠ "room" →
     a_user a = Some u → u ≠ EmptyString →
     resolution_settings lower w true a m
     = (set_user_setting w m u "restart_on_resolution_change" (VBool true),
        ArgsParseError)).
Proof.
  assert (∀ lower w a m e' m1,
     disable_resolution_restart a = Some e' → e' ≠ EmptyString →
     lower e' ≠ "user" → lower e' ≠ "room" →
     restart_option lower w (enable_resolution_restart a) a true m
     = (m1, Finished) →
     resolution_settings lower w true a m = (m1, ArgsParseError)) as Hdis.
  { intros lower w a m e' m1 Hd Hne Hl1 Hl2 Hen.
    pose proof (str_truthy_Some e' Hne) as Hte.
    unfold resolution_settings. rewrite Hen.
    assert (restart_option lower w (disable_resolution_restart a) a false m1
            = (m1, ArgsParseError)) as ->.
    { unfold restart_option. rewrite Hd, Hte.
      change (default EmptyString (Some e')) with e'.
      destruct (String.eqb_spec (lower e') "user"); [done|].
      destruct (String.eqb_spec (lower e') "room"); [done|]. done. }
    rewrite Hd, Hte. by rewrite orb_true_r. }
  split_and!.
  - intros lower w a m e u n He Hne Hl Hd Hi Hn Hu Hune.
    pose proof (str_truthy_Some e Hne) as Hte.
    pose proof (str_truthy_Some u Hune) as Htu.
    unfold resolution_settings, restart_option, interval_option, set_restart.
    rewrite He, Hd, Hi, Hu, Hte, Htu.
    change (default EmptyString (Some e)) with e. rewrite Hl.
    change (str_truthy None) with false.
    cbn -[str_truthy Z.ltb].
    by destruct (Z.ltb_spec n 1); [|lia].
  - intros lower w a m e He Hne Hl1 Hl2.
    pose proof (str_truthy_Some e Hne) as Hte.
    unfold resolution_settings, restart_option.
    rewrite He, Hte. change (default EmptyString (Some e)) with e.
    cbn -[str_truthy String.eqb].
    destruct (String.eqb_spec (lower e) "user"); [done|].
    destruct (String.eqb_spec (lower e) "room"); [done|]. done.
  - exact Hdis.
  - intros lower w a m e e' u He Hne Hl Hd Hne' Hl1 Hl2 Hu Hune.
    apply (Hdis lower w a m e'); try done.
    pose proof (str_truthy_Some e Hne) as Hte.
    pose proof (str_truthy_Some u Hune) as Htu.
    unfold restart_option, set_restart. rewrite He, Hu, Hte, Htu.
    change (default EmptyString (Some e)) with e. rewrite Hl.
    by change (default EmptyString (Some u)) with u.
Qed.

Lemma X8_refused_run_keeps_earlier_writes_witness :
  resolution_settings (fun s => s) true true Examples.enable_with_bad_interval
    (new_manager true Missing)
  = (set_user_setting true (new_manager true Missing) "alice"
       "restart_on_resolution_change" (VBool true), ArgsParseError).
Proof.
  destruct X8_refused_run_keeps_earlier_writes as (H & _).
  apply (H (fun s => s) true Examples.enable_with_bad_interval (new_manager true Missing)
           "user" "alice" 0);
    solve [reflexivity | discriminate | lia].
Defined.

Module ProbeFailureFacts.
Import ResolutionDetector ProbeFailures.




End ProbeFailureFacts.

Import ResolutionDetector ProbeFailures ProbeFailureFacts.



Module BlockFacts.
Import Engine TraceShapes.

Lemma writes_in_blocks_app a b :
  writes_in_blocks a → writes_in_blocks b → writes_in_blocks (a ++ b).
Proof.
  induction a as [|e a IH]; intros Ha Hb; [done|].
  destruct e; simpl in *; auto.
  destruct Ha as (Hne & Hblock & Ha). split_and!; [done| |auto].
  destruct Hblock as [?|Hhead]; [by left|right].
  destruct a; [done|]. done.
Qed.

Lemma full_blocks_writes_in_blocks tr :
  Forall full_block tr → writes_in_blocks tr.
Proof.
  induction 1 as [|e tr He _ IH]; [done|].
  destruct e; simpl in *; auto.
  split_and!; [|by left|done].
  intros ->. simpl in He. unfold buffer_size in He. lia.
Qed.

Lemma writes_in_blocks_finally buffer :
  writes_in_blocks (finally buffer).
Proof.
  unfold finally. case_bool_decide; simpl; [done|]. split_and!; auto.
Qed.

Lemma multi_for_chunks_blocks re dur steps e : ∀ buf rr,
  Z.of_nat (length buf) < buffer_size →
  let '(b', _, ev, _) := MultiStreamRecorder.for_chunks re dur steps e buf rr in
  Forall full_block ev ∧ Z.of_nat (length b') < buffer_size.
Proof.
  induction steps as [|c steps IH]; intros buf rr Hbuf; simpl; [done|].
  destruct (cs_stop c). { split; [by repeat constructor|done]. }
  destruct (Z.leb_spec buffer_size (Z.of_nat (length (buf ++ cs_data c))))
    as [Hfull|Hsmall].
  - destruct (duration_reached dur (cs_elapsed c)).
    { split; [by repeat constructor|done]. }
    destruct (rr || cs_changed c && re).
    { split; [by repeat constructor|done]. }
    specialize (IH [] false ltac:(done)).
    destruct (MultiStreamRecorder.for_chunks re dur steps e [] false)
      as [[[b' rr'] ev] x].
    destruct IH as [Hev Hb]. split; [|done]. by repeat constructor.
  - destruct (duration_reached dur (cs_elapsed c)).
    { split; [by repeat constructor|done]. }
    destruct (rr || cs_changed c && re).
    { split; [by repeat constructor|done]. }
    specialize (IH (buf ++ cs_data c) false Hsmall).
    destruct (MultiStreamRecorder.for_chunks re dur steps e (buf ++ cs_data c) false)
      as [[[b' rr'] ev] x].
    destruct IH as [Hev Hb]. split; [|done]. by repeat constructor.
Qed.

Lemma single_for_chunks_blocks re dur steps e : ∀ buf rr,
  Z.of_nat (length buf) < buffer_size →
  let '(b', _, ev, _) := TikTokRecorder.for_chunks re dur steps e buf rr in
  Forall full_block ev ∧ Z.of_nat (length b') < buffer_size.
Proof.
  induction steps as [|c steps IH]; intros buf rr Hbuf; simpl; [done|].
  destruct (Z.leb_spec buffer_size (Z.of_nat (length (buf ++ cs_data c))))
    as [Hfull|Hsmall].
  - destruct (duration_reached dur (cs_elapsed c)).
    { split; [by repeat constructor|done]. }
    destruct (rr || cs_changed c && re).
    { split; [by repeat constructor|done]. }
    specialize (IH [] false ltac:(done)).
    destruct (TikTokRecorder.for_chunks re dur steps e [] false)
      as [[[b' rr'] ev] x].
    destruct IH as [Hev Hb]. split; [|done]. by repeat constructor.
  - destruct (duration_reached dur (cs_elapsed c)).
    { split; [by repeat constructor|done]. }
    destruct (rr || cs_changed c && re).
    { split; [by repeat constructor|done]. }
    specialize (IH (buf ++ cs_data c) false Hsmall).
    destruct (TikTokRecorder.for_chunks re dur steps e (buf ++ cs_data c) false)
      as [[[b' rr'] ev] x].
    destruct IH as [Hev Hb]. split; [|done]. by repeat constructor.
Qed.

Lemma multi_streaming_loop_blocks re dur url its : ∀ rr,
  writes_in_blocks (MultiStreamRecorder.streaming_loop re dur url its [] rr).1.2.
Proof.
  induction its as [|it its IH]; intros rr; simpl; [done|].
  destruct (it_stop it); [done|].
  destruct (it_alive it) as [[|]|x]; try done.
  pose proof (multi_for_chunks_blocks re dur (it_stream it) (it_end it) [] rr
                ltac:(done)) as Hf.
  destruct (MultiStreamRecorder.for_chunks re dur (it_stream it) (it_end it) [] rr)
    as [[[b' rr1] ev] x].
  destruct Hf as [Hev _].
  assert (writes_in_blocks (EvDownload url :: ev ++ finally b')) as Hw.
  { simpl. apply writes_in_blocks_app;
      [by apply full_blocks_writes_in_blocks|apply writes_in_blocks_finally]. }
  destruct x as [|why|e]; [|done|done].
  specialize (IH rr1).
  destruct (MultiStreamRecorder.streaming_loop re dur url its [] rr1)
    as [[rr' ev'] why].
  simpl in *. by apply writes_in_blocks_app.
Qed.

Lemma writes_in_blocks_handler m e :
  writes_in_blocks (TikTokRecorder.handler m e).1.
Proof. by destruct e, m. Qed.

Lemma single_streaming_loop_blocks m re dur url its : ∀ rr,
  writes_in_blocks (TikTokRecorder.streaming_loop m re dur url its [] rr).1.2.
Proof.
  induction its as [|it its IH]; intros rr; simpl; [done|].
  pose proof (single_for_chunks_blocks re dur (it_stream it) (it_end it) [] rr
                ltac:(done)) as Hf.
  destruct (TikTokRecorder.for_chunks re dur (it_stream it) (it_end it) [] rr)
    as [[[b0 rr0] ev0] x0].
  destruct Hf as [Hev0 _].
  set (A := match it_alive it with
            | Ok true => (b0, rr0, EvDownload url :: ev0, x0)
            | Ok false => ([], rr, [], ForBreak Offline)
            | Raise e => ([], rr, [], ForRaise e)
            end).
  assert (writes_in_blocks A.1.2) as HA.
  { unfold A. destruct (it_alive it) as [[|]|e]; simpl; try done.
    by apply full_blocks_writes_in_blocks. }
  destruct A as [[[b' rr1] ev] x]. simpl in HA.
  pose proof (writes_in_blocks_finally b') as Hfin.
  destruct x as [|why|e].
  - specialize (IH rr1).
    destruct (TikTokRecorder.streaming_loop m re dur url its [] rr1)
      as [[rr' ev'] why].
    simpl in *.
    apply writes_in_blocks_app; [done|]. by apply writes_in_blocks_app.
  - simpl. by apply writes_in_blocks_app.
  - pose proof (writes_in_blocks_handler m e) as Hh.
    destruct (TikTokRecorder.handler m e) as [hev stop]. simpl in Hh.
    destruct stop.
    + simpl. apply writes_in_blocks_app; [done|]. by apply writes_in_blocks_app.
    + specialize (IH rr1).
      destruct (TikTokRecorder.streaming_loop m re dur url its [] rr1)
        as [[rr' ev'] why].
      simpl in *. apply writes_in_blocks_app; [done|].
      apply writes_in_blocks_app; [done|]. by apply writes_in_blocks_app.
Qed.

Ltac blocks_after_loop :=
  simpl; repeat first [done | apply writes_in_blocks_app].

Lemma multi_session_blocks n t r s :
  writes_in_blocks (MultiStreamRecorder.session n t r s).1.
Proof.
  unfold MultiStreamRecorder.session.
  destruct (ss_live_url s) as [[url|]|x]; simpl; try done.
  destruct (String.eqb url EmptyString); simpl; try done.
  pose proof (multi_streaming_loop_blocks
                (truthy (ConfigManager.should_restart_on_resolution_change
                           (MultiStreamRecorder.session_config s)
                           (MultiStreamRecorder.r_user r)
                           (MultiStreamRecorder.r_room_id r)))
                (MultiStreamRecorder.r_duration r) url (ss_iterations s) false)
    as Hev.
  destruct (MultiStreamRecorder.streaming_loop _ _ url (ss_iterations s) [] false)
    as [[rr ev] why]. simpl in Hev.
  destruct why, (MultiStreamRecorder.r_use_telegram r); simpl;
    try (by blocks_after_loop);
    destruct (rr || _), (ss_stop_after s), (ss_alive_after s) as [[|]|?],
      (ss_restart_url s) as [[u'|]|x]; simpl; by blocks_after_loop.
Qed.

Lemma single_session_blocks r s :
  writes_in_blocks (TikTokRecorder.session r s).1.
Proof.
  unfold TikTokRecorder.session.
  destruct (ss_live_url s) as [[url|]|x]; simpl; try done.
  destruct (String.eqb url EmptyString); simpl; try done.
  pose proof (single_streaming_loop_blocks (TikTokRecorder.r_mode r)
                (truthy (ConfigManager.should_restart_on_resolution_change
                           (TikTokRecorder.r_config r)
                           (TikTokRecorder.r_user r)
                           (TikTokRecorder.r_room_id r)))
                (TikTokRecorder.r_duration r) url (ss_iterations s) false)
    as Hev.
  destruct (TikTokRecorder.streaming_loop _ _ _ url (ss_iterations s) [] false)
    as [[rr ev] why]. simpl in Hev.
  destruct why, (TikTokRecorder.r_use_telegram r); simpl;
    try (by blocks_after_loop);
    destruct (rr || _), (ss_alive_after s) as [[|]|?],
      (ss_restart_url s) as [[u'|]|x]; simpl; by blocks_after_loop.
Qed.

Lemma multi_run_blocks n t r scripts : ∀ depth,
  writes_in_blocks
    (MultiStreamRecorder._start_recording_with_stop_event depth n t r scripts).1.
Proof.
  induction scripts as [|s rest IH]; intros depth; [done|]. simpl.
  pose proof (multi_session_blocks n t r s) as Hs.
  destruct (MultiStreamRecorder.session n t r s) as [tr [e| |why rr|why]];
    simpl in *; try done.
  destruct depth as [|depth]; [done|]. specialize (IH depth).
  destruct (MultiStreamRecorder._start_recording_with_stop_event depth n t r rest)
    as [tr' o]. simpl in *. by apply writes_in_blocks_app.
Qed.

Lemma single_run_blocks scripts : ∀ depth r,
  writes_in_blocks (TikTokRecorder.start_recording depth r scripts).1.1.
Proof.
  induction scripts as [|s rest IH]; intros depth r; [done|]. simpl.
  pose proof (single_session_blocks r s) as Hs.
  destruct (TikTokRecorder.session r s) as [tr [e| |why rr|why u]];
    simpl in *; try done.
  destruct depth as [|depth]; [done|].
  specialize (IH depth (TikTokRecorder.set_detector r u)).
  destruct (TikTokRecorder.start_recording depth
              (TikTokRecorder.set_detector r u) rest)
    as [[tr' o] r']. simpl in *. by apply writes_in_blocks_app.
Qed.

End BlockFacts.

Import Engine TraceShapes BlockFacts.

(** X10. Both recorders write to the file in blocks. In every run of the
    recording function, restarts included, no write is empty, and every
    write hands over at least 512 KiB, except the write of what is left in
    the buffer when a pass of the loop ends, which the flush follows at
    once. *)
Theorem X10_writes_come_in_blocks :
  (∀ depth n t r scripts,
     writes_in_blocks
       (MultiStreamRecorder._start_recording_with_stop_event depth n t r
          scripts).1) ∧
  (∀ depth r scripts,
     writes_in_blocks (TikTokRecorder.start_recording depth r scripts).1.1) ∧
  (∀ data tr,
     writes_in_blocks (EvWrite data :: tr) →
     0 < Z.of_nat (length data) ∧
     (Z.of_nat (length data) < 512 * 1024 → ∃ tr', tr = EvFlush :: tr')).
Proof.
  split_and!.
  - intros. apply multi_run_blocks.
  - intros. apply single_run_blocks.
  - intros data tr (Hne & Hblock & _). split.
    + destruct data; [done|]. simpl. lia.
    + intros Hsmall. destruct Hblock as [Hfull|Hhead].
      * unfold buffer_size in Hfull. lia.
      * destruct tr as [|e tr']; [done|]. injection Hhead as ->. eauto.
Qed.

Lemma X10_writes_come_in_blocks_witness :
  0 < Z.of_nat (length [x01; x02]) ∧
  (Z.of_nat (length [x01; x02]) < 512 * 1024 →
   ∃ tr', [EvFlush; EvClose] = EvFlush :: tr').
Proof.
  destruct X10_writes_come_in_blocks as (_ & _ & H).
  apply (H [x01; x02] [EvFlush; EvClose]). simpl. auto.
Defined.

Module DurationFacts.
Import Engine TraceShapes.

Lemma multi_for_chunks_cut re dur e pre c post :
  duration_reached dur (cs_elapsed c) = true →
  ∀ buf rr,
    MultiStreamRecorder.for_chunks re dur (pre ++ c :: post) e buf rr
    = MultiStreamRecorder.for_chunks re dur (pre ++ [c]) None buf rr ∧
    ∃ why, (MultiStreamRecorder.for_chunks re dur (pre ++ c :: post) e buf rr).2
           = ForBreak why ∧
           (why = Cancelled ∨ why = DurationReached ∨ why = RestartRequested).
Proof.
  intros Hc. induction pre as [|c0 pre IH]; intros buf rr; simpl.
  - destruct (cs_stop c); [by eauto 6|].
    destruct (_ <=? _); rewrite Hc; simpl; eauto 6.
  - destruct (cs_stop c0); [by eauto 6|].
    destruct (_ <=? _).
    + destruct (duration_reached dur (cs_elapsed c0)); [by eauto 6|].
      destruct (rr || _); [by eauto 6|].
      destruct (IH [] false) as (-> & why & Hx & Hwhy).
      destruct (MultiStreamRecorder.for_chunks re dur (pre ++ [c]) None [] false)
        as [[[b r0] ev] x]. simpl in *. eauto.
    + destruct (duration_reached dur (cs_elapsed c0)); [by eauto 6|].
      destruct (rr || _); [by eauto 6|].
      destruct (IH (buf ++ cs_data c0) false) as (-> & why & Hx & Hwhy).
      destruct (MultiStreamRecorder.for_chunks re dur (pre ++ [c]) None _ false)
        as [[[b r0] ev] x]. simpl in *. eauto.
Qed.

Lemma single_for_chunks_cut re dur e pre c post :
  duration_reached dur (cs_elapsed c) = true →
  ∀ buf rr,
    TikTokRecorder.for_chunks re dur (pre ++ c :: post) e buf rr
    = TikTokRecorder.for_chunks re dur (pre ++ [c]) None buf rr ∧
    ∃ why, (TikTokRecorder.for_chunks re dur (pre ++ c :: post) e buf rr).2
           = ForBreak why ∧
           (why = DurationReached ∨ why = RestartRequested).
Proof.
  intros Hc. induction pre as [|c0 pre IH]; intros buf rr; simpl.
  - destruct (_ <=? _); rewrite Hc; simpl; eauto 6.
  - destruct (_ <=? _).
    + destruct (duration_reached dur (cs_elapsed c0)); [by eauto 6|].
      destruct (rr || _); [by eauto 6|].
      destruct (IH [] false) as (-> & why & Hx & Hwhy).
      destruct (TikTokRecorder.for_chunks re dur (pre ++ [c]) None [] false)
        as [[[b r0] ev] x]. simpl in *. eauto.
    + destruct (duration_reached dur (cs_elapsed c0)); [by eauto 6|].
      destruct (rr || _); [by eauto 6|].
      destruct (IH (buf ++ cs_data c0) false) as (-> & why & Hx & Hwhy).
      destruct (TikTokRecorder.for_chunks re dur (pre ++ [c]) None _ false)
        as [[[b r0] ev] x]. simpl in *. eauto.
Qed.

Lemma duration_reached_inv dur elapsed :
  duration_reached dur elapsed = true →
  ∃ d, dur = Some d ∧ d ≠ 0 ∧ d * 1000 ≤ elapsed.
Proof.
  destruct dur as [d|]; [|done]. simpl. intros H.
  apply andb_true_iff in H as [H1 H2].
  exists d. split_and!; [done| |lia].
  intros ->. done.
Qed.

Lemma multi_for_chunks_duration re dur steps e : ∀ buf rr,
  (MultiStreamRecorder.for_chunks re dur steps e buf rr).2
  = ForBreak DurationReached →
  ∃ d, dur = Some d ∧ d ≠ 0.
Proof.
  induction steps as [|c steps IH]; intros buf rr; simpl.
  { by destruct e. }
  destruct (cs_stop c); [done|].
  destruct (_ <=? _).
  - destruct (duration_reached dur (cs_elapsed c)) eqn:Hd.
    { intros _. destruct (duration_reached_inv _ _ Hd) as (d & ? & ? & _). eauto. }
    destruct (rr || _); [done|].
    specialize (IH [] false).
    destruct (MultiStreamRecorder.for_chunks re dur steps e [] false)
      as [[[b r0] ev] x]. done.
  - destruct (duration_reached dur (cs_elapsed c)) eqn:Hd.
    { intros _. destruct (duration_reached_inv _ _ Hd) as (d & ? & ? & _). eauto. }
    destruct (rr || _); [done|].
    specialize (IH (buf ++ cs_data c) false).
    destruct (MultiStreamRecorder.for_chunks re dur steps e _ false)
      as [[[b r0] ev] x]. done.
Qed.

Lemma single_for_chunks_duration re dur steps e : ∀ buf rr,
  (TikTokRecorder.for_chunks re dur steps e buf rr).2
  = ForBreak DurationReached →
  ∃ d, dur = Some d ∧ d ≠ 0.
Proof.
  induction steps as [|c steps IH]; intros buf rr; simpl.
  { by destruct e. }
  destruct (_ <=? _).
  - destruct (duration_reached dur (cs_elapsed c)) eqn:Hd.
    { intros _. destruct (duration_reached_inv _ _ Hd) as (d & ? & ? & _). eauto. }
    destruct (rr || _); [done|].
    specialize (IH [] false).
    destruct (TikTokRecorder.for_chunks re dur steps e [] false)
      as [[[b r0] ev] x]. done.
  - destruct (duration_reached dur (cs_elapsed c)) eqn:Hd.
    { intros _. destruct (duration_reached_inv _ _ Hd) as (d & ? & ? & _). eauto. }
    destruct (rr || _); [done|].
    specialize (IH (buf ++ cs_data c) false).
    destruct (TikTokRecorder.for_chunks re dur steps e _ false)
      as [[[b r0] ev] x]. done.
Qed.

Lemma multi_streaming_loop_duration re dur url its : ∀ buf rr,
  (MultiStreamRecorder.streaming_loop re dur url its buf rr).2 = DurationReached →
  ∃ d, dur = Some d ∧ d ≠ 0.
Proof.
  induction its as [|it its IH]; intros buf rr; simpl; [done|].
  destruct (it_stop it); [done|].
  destruct (it_alive it) as [[|]|x]; [|done|by destruct (is_Exception x)].
  pose proof (multi_for_chunks_duration re dur (it_stream it) (it_end it) buf rr)
    as Hf.
  destruct (MultiStreamRecorder.for_chunks re dur (it_stream it) (it_end it) buf rr)
    as [[[b' rr1] ev] x]. simpl in Hf.
  destruct x as [|why|e].
  - specialize (IH [] rr1).
    destruct (MultiStreamRecorder.streaming_loop re dur url its [] rr1)
      as [[rr' ev'] why]. done.
  - simpl. intros ->. by apply Hf.
  - simpl. by destruct (is_Exception e).
Qed.

Lemma single_streaming_loop_duration m re dur url its : ∀ buf rr,
  (TikTokRecorder.streaming_loop m re dur url its buf rr).2 = DurationReached →
  ∃ d, dur = Some d ∧ d ≠ 0.
Proof.
  induction its as [|it its IH]; intros buf rr; simpl; [done|].
  pose proof (single_for_chunks_duration re dur (it_stream it) (it_end it) buf rr)
    as Hf.
  destruct (TikTokRecorder.for_chunks re dur (it_stream it) (it_end it) buf rr)
    as [[[b0 rr0] ev0] x0]. simpl in Hf.
  destruct (it_alive it) as [[|]|e0].
  - destruct x0 as [|why|e].
    + specialize (IH [] rr0).
      destruct (TikTokRecorder.streaming_loop m re dur url its [] rr0)
        as [[rr' ev'] why]. done.
    + simpl. intros ->. by apply Hf.
    + destruct (TikTokRecorder.handler m e) as [hev stop].
      destruct stop; [done|].
      specialize (IH [] rr0).
      destruct (TikTokRecorder.streaming_loop m re dur url its [] rr0)
        as [[rr' ev'] why]. done.
  - done.
  - destruct (TikTokRecorder.handler m e0) as [hev stop].
    destruct stop; [done|].
    specialize (IH [] rr).
    destruct (TikTokRecorder.streaming_loop m re dur url its [] rr)
      as [[rr' ev'] why]. done.
Qed.

End DurationFacts.

Import Engine TraceShapes DurationFacts.

(** X11. The recording duration. In both recorders the pass of the loop
    that receives a chunk once the duration has run out is the last one:
    neither the rest of that stream nor any later pass is looked at, and
    the loop is left by a [break] (for the duration, or earlier in the
    same stream for a restart or, in the multi-stream recorder, for the
    stop event). The loop is left for the duration only when a duration
    other than 0 is set: with no duration, or with 0, a recording is never
    cut short. *)
Theorem X11_duration_ends_the_recording :
  (∀ re dur url it its buf rr pre c post,
     it_stop it = false → it_alive it = Ok true →
     it_stream it = pre ++ c :: post →
     duration_reached dur (cs_elapsed c) = true →
     let out := MultiStreamRecorder.streaming_loop re dur url (it :: its) buf rr in
     out = MultiStreamRecorder.streaming_loop re dur url
             [Iteration false (Ok true) (pre ++ [c]) None] buf rr ∧
     (out.2 = Cancelled ∨ out.2 = DurationReached ∨ out.2 = RestartRequested)) ∧
  (∀ m re dur url it its buf rr pre c post,
     it_alive it = Ok true →
     it_stream it = pre ++ c :: post →
     duration_reached dur (cs_elapsed c) = true →
     let out := TikTokRecorder.streaming_loop m re dur url (it :: its) buf rr in
     out = TikTokRecorder.streaming_loop m re dur url
             [Iteration false (Ok true) (pre ++ [c]) None] buf rr ∧
     (out.2 = DurationReached ∨ out.2 = RestartRequested)) ∧
  (∀ re dur url its buf rr,
     (MultiStreamRecorder.streaming_loop re dur url its buf rr).2 = DurationReached →
     ∃ d, dur = Some d ∧ d ≠ 0) ∧
  (∀ m re dur url its buf rr,
     (TikTokRecorder.streaming_loop m re dur url its buf rr).2 = DurationReached →
     ∃ d, dur = Some d ∧ d ≠ 0).
Proof.
  split_and!.
  - intros re dur url it its buf rr pre c post Hstop Halive Hstream Hc out.
    subst out. simpl. rewrite Hstop, Halive, Hstream.
    destruct (multi_for_chunks_cut re dur (it_end it) pre c post Hc buf rr)
      as (-> & why & Hx & Hwhy).
    destruct (MultiStreamRecorder.for_chunks re dur (pre ++ [c]) None buf rr)
      as [[[b r0] ev] x]. simpl in Hx. subst x. simpl. split; [done|].
    naive_solver.
  - intros m re dur url it its buf rr pre c post Halive Hstream Hc out.
    subst out. simpl. rewrite Halive, Hstream.
    destruct (single_for_chunks_cut re dur (it_end it) pre c post Hc buf rr)
      as (-> & why & Hx & Hwhy).
    destruct (TikTokRecorder.for_chunks re dur (pre ++ [c]) None buf rr)
      as [[[b r0] ev] x]. simpl in Hx. subst x. simpl. split; [done|].
    naive_solver.
  - apply multi_streaming_loop_duration.
  - apply single_streaming_loop_duration.
Qed.

Lemma X11_duration_ends_the_recording_witness :
  let it := Scenarios.streaming [Scenarios.chunk [x01] false false;
                                 Scenarios.chunk [x02] false false] None in
  let out := MultiStreamRecorder.streaming_loop false (Some 1) Scenarios.pull_url
               [it; it] [] false in
  out = MultiStreamRecorder.streaming_loop false (Some 1) Scenarios.pull_url
          [Iteration false (Ok true) ([] ++ [Scenarios.chunk [x01] false false]) None]
          [] false ∧
  (out.2 = Cancelled ∨ out.2 = DurationReached ∨ out.2 = RestartRequested).
Proof.
  destruct X11_duration_ends_the_recording as (H & _).
  apply (H false (Some 1) Scenarios.pull_url _ _ [] false []
           (Scenarios.chunk [x01] false false)
           [Scenarios.chunk [x02] false false]); reflexivity.
Defined.

Module BreakFacts.
Import Engine TraceShapes.

Lemma multi_for_chunks_break re dur e pre c post :
  cs_stop c = true ∨ (cs_changed c = true ∧ re = true) →
  ∀ buf rr,
    MultiStreamRecorder.for_chunks re dur (pre ++ c :: post) e buf rr
    = MultiStreamRecorder.for_chunks re dur (pre ++ [c]) None buf rr ∧
    ∃ why, (MultiStreamRecorder.for_chunks re dur (pre ++ c :: post) e buf rr).2
           = ForBreak why ∧
           (why = Cancelled ∨ why = DurationReached ∨ why = RestartRequested).
Proof.
  intros Hc. induction pre as [|c0 pre IH]; intros buf rr; simpl.
  - destruct (cs_stop c) eqn:Hs; [by eauto 6|].
    destruct Hc as [?|[Hch ->]]; [done|]. rewrite Hch, orb_true_r.
    destruct (_ <=? _); destruct (duration_reached dur (cs_elapsed c));
      simpl; eauto 6.
  - destruct (cs_stop c0); [by eauto 6|].
    destruct (_ <=? _).
    + destruct (duration_reached dur (cs_elapsed c0)); [by eauto 6|].
      destruct (rr || _); [by eauto 6|].
      destruct (IH [] false) as (-> & why & Hx & Hwhy).
      destruct (MultiStreamRecorder.for_chunks re dur (pre ++ [c]) None [] false)
        as [[[b r0] ev] x]. simpl in *. eauto.
    + destruct (duration_reached dur (cs_elapsed c0)); [by eauto 6|].
      destruct (rr || _); [by eauto 6|].
      destruct (IH (buf ++ cs_data c0) false) as (-> & why & Hx & Hwhy).
      destruct (MultiStreamRecorder.for_chunks re dur (pre ++ [c]) None _ false)
        as [[[b r0] ev] x]. simpl in *. eauto.
Qed.

Lemma single_for_chunks_break dur e pre c post :
  cs_changed c = true →
  ∀ buf rr,
    TikTokRecorder.for_chunks true dur (pre ++ c :: post) e buf rr
    = TikTokRecorder.for_chunks true dur (pre ++ [c]) None buf rr ∧
    ∃ why, (TikTokRecorder.for_chunks true dur (pre ++ c :: post) e buf rr).2
           = ForBreak why ∧
           (why = DurationReached ∨ why = RestartRequested).
Proof.
  intros Hc. induction pre as [|c0 pre IH]; intros buf rr; simpl.
  - rewrite Hc, orb_true_r.
    destruct (_ <=? _); destruct (duration_reached dur (cs_elapsed c));
      simpl; eauto 6.
  - destruct (_ <=? _).
    + destruct (duration_reached dur (cs_elapsed c0)); [by eauto 6|].
      destruct (rr || _); [by eauto 6|].
      destruct (IH [] false) as (-> & why & Hx & Hwhy).
      destruct (TikTokRecorder.for_chunks true dur (pre ++ [c]) None [] false)
        as [[[b r0] ev] x]. simpl in *. eauto.
    + destruct (duration_reached dur (cs_elapsed c0)); [by eauto 6|].
      destruct (rr || _); [by eauto 6|].
      destruct (IH (buf ++ cs_data c0) false) as (-> & why & Hx & Hwhy).
      destruct (TikTokRecorder.for_chunks true dur (pre ++ [c]) None _ false)
        as [[[b r0] ev] x]. simpl in *. eauto.
Qed.

End BreakFacts.

Import Engine TraceShapes BreakFacts.

(** X23. A stop and a change of resolution are acted on within one
    chunk. In the multi-stream recorder, the pass of the loop in which a
    chunk arrives while the stop event is set, or after the monitor has
    reported a change with the restart switched on, is the last pass: the
    rest of the stream and every later pass are not looked at. The same
    holds in the single recorder for a reported change. A stop event seen
    at the head of the loop ends it before anything is downloaded. *)
Theorem X23_stop_and_change_end_the_pass :
  (∀ re dur url it its buf rr pre c post,
     it_stop it = false → it_alive it = Ok true →
     it_stream it = pre ++ c :: post →
     cs_stop c = true ∨ (cs_changed c = true ∧ re = true) →
     let out := MultiStreamRecorder.streaming_loop re dur url (it :: its) buf rr in
     out = MultiStreamRecorder.streaming_loop re dur url
             [Iteration false (Ok true) (pre ++ [c]) None] buf rr ∧
     (out.2 = Cancelled ∨ out.2 = DurationReached ∨ out.2 = RestartRequested)) ∧
  (∀ m dur url it its buf rr pre c post,
     it_alive it = Ok true →
     it_stream it = pre ++ c :: post →
     cs_changed c = true →
     let out := TikTokRecorder.streaming_loop m true dur url (it :: its) buf rr in
     out = TikTokRecorder.streaming_loop m true dur url
             [Iteration false (Ok true) (pre ++ [c]) None] buf rr ∧
     (out.2 = DurationReached ∨ out.2 = RestartRequested)) ∧
  (∀ re dur url it its buf rr,
     it_stop it = true →
     MultiStreamRecorder.streaming_loop re dur url (it :: its) buf rr
     = (rr, [], Cancelled)).
Proof.
  split_and!.
  - intros re dur url it its buf rr pre c post Hstop Halive Hstream Hc out.
    subst out. simpl. rewrite Hstop, Halive, Hstream.
    destruct (multi_for_chunks_break re dur (it_end it) pre c post Hc buf rr)
      as (-> & why & Hx & Hwhy).
    destruct (MultiStreamRecorder.for_chunks re dur (pre ++ [c]) None buf rr)
      as [[[b r0] ev] x]. simpl in Hx. subst x. simpl. split; [done|].
    naive_solver.
  - intros m dur url it its buf rr pre c post Halive Hstream Hc out.
    subst out. simpl. rewrite Halive, Hstream.
    destruct (single_for_chunks_break dur (it_end it) pre c post Hc buf rr)
      as (-> & why & Hx & Hwhy).
    destruct (TikTokRecorder.for_chunks true dur (pre ++ [c]) None buf rr)
      as [[[b r0] ev] x]. simpl in Hx. subst x. simpl. split; [done|].
    naive_solver.
  - intros re dur url it its buf rr Hstop. simpl. by rewrite Hstop.
Qed.

Lemma X23_stop_and_change_end_the_pass_witness :
  MultiStreamRecorder.streaming_loop false None Scenarios.pull_url
    [Iteration true (Ok true) [] None; Scenarios.offline] [] false
  = (false, [], Cancelled).
Proof.
  destruct X23_stop_and_change_end_the_pass as (_ & _ & H).
  apply H. reflexivity.
Defined.

Module LoopFacts.
Import Engine TraceShapes.



Lemma single_automatic_mode_outcome depth its : ∀ r,
  (TikTokRecorder.automatic_mode depth r its).2 ≠ Returned ∧
  ∀ e, (TikTokRecorder.automatic_mode depth r its).2 = Raised e →
       is_Exception e = false.
Proof.
  induction its as [|ti its IH]; intros r; simpl; [done|].
  destruct (match TikTokRecorder.ti_room ti with
            | Ok room => _ | Raise e => _ end) as [[tr o] r'].
  destruct o as [|e|].
  - specialize (IH r').
    destruct (TikTokRecorder.automatic_mode depth r' its) as [tr' o']. done.
  - specialize (IH r').
    destruct (TikTokRecorder.automatic_mode depth r' its) as [tr' o'].
    destruct e; simpl; try done. split; [done|]. by intros e [= <-].
  - done.
Qed.

Lemma multi_automatic_mode_outcome depth n t interval its : ∀ r e,
  (MultiStreamRecorder._automatic_mode_with_stop_event depth n t interval r
     its).2
  = Raised e → is_Exception e = false.
Proof.
  induction its as [|ti its IH]; intros r e; [done|].
  cbn [MultiStreamRecorder._automatic_mode_with_stop_event].
  destruct (MultiStreamRecorder.ti_stop ti); [done|].
  set (r' := match MultiStreamRecorder.ti_room ti with
             | Ok room => MultiStreamRecorder.set_room_id r room
             | Raise _ => r
             end).
  set (res := match MultiStreamRecorder.ti_room ti with
              | Ok _ => MultiStreamRecorder._manual_mode_with_stop_event depth
                          n t r'
                          (MultiStreamRecorder.ti_stop_manual ti)
                          (MultiStreamRecorder.ti_alive ti)
                          (MultiStreamRecorder.ti_sessions ti)
              | Raise e0 => ([], Raised e0)
              end).
  destruct res as [tr o].
  destruct o as [|e0|].
  - specialize (IH r' e).
    destruct (MultiStreamRecorder._automatic_mode_with_stop_event depth n t
                interval r' its)
      as [tr' o']. done.
  - case_bool_decide.
    + destruct (MultiStreamRecorder.wait_for_recheck _ _ _) as [w stopped].
      destruct stopped; [done|].
      specialize (IH r' e).
      destruct (MultiStreamRecorder._automatic_mode_with_stop_event depth n t
                  interval r' its)
        as [tr' o']. done.
    + destruct (is_Exception e0) eqn:He0; [done|]. simpl. by intros [= <-].
  - done.
Qed.

End LoopFacts.

Import Engine TraceShapes LoopFacts.



(** X13. How the automatic modes end. The automatic mode of the single
    recorder never returns, and only something that is not an
    [Exception] leaves it. A pass that lets out an [Exception] that is
    neither the target being offline nor a closed connection, whether it
    comes from the look-up of the room, from the liveness check or out of
    the recording function, is followed by the next pass at once, without
    a pause. The automatic mode of the multi-stream recorder lets no
    [Exception] out. *)
Theorem X13_automatic_modes_outcomes :
  (∀ depth r its, (TikTokRecorder.automatic_mode depth r its).2 ≠ Returned) ∧
  (∀ depth r its e,
     (TikTokRecorder.automatic_mode depth r its).2 = Raised e →
     is_Exception e = false) ∧
  (∀ depth r ti its tr e r1,
     (TikTokRecorder.ti_room ti = Raise e ∧ tr = [] ∧ r1 = r) ∨
     (∃ room, TikTokRecorder.ti_room ti = Ok room ∧
        TikTokRecorder.manual_mode depth (TikTokRecorder.set_room_id r room)
          (TikTokRecorder.ti_alive ti) (TikTokRecorder.ti_sessions ti)
        = (tr, Raised e, r1)) →
     is_Exception e = true → e ≠ UserLiveException → e ≠ ConnectionError →
     let rest := TikTokRecorder.automatic_mode depth r1 its in
     TikTokRecorder.automatic_mode depth r (ti :: its)
     = (tr ++ rest.1, rest.2)) ∧
  (∀ depth n t interval r its e,
     (MultiStreamRecorder._automatic_mode_with_stop_event depth n t interval r
        its).2
     = Raised e → is_Exception e = false).
Proof.
  split_and!.
  - intros. apply single_automatic_mode_outcome.
  - intros depth r its. apply single_automatic_mode_outcome.
  - apply single_pass_raised.
  - intros. by eapply multi_automatic_mode_outcome.
Qed.

(** The target is live but no playback URL is found: [start_recording]
    raises [LiveNotFound], and the pass that finds the target offline
    follows at once. *)
Lemma X13_automatic_modes_outcomes_witness :
  TikTokRecorder.automatic_mode 0 Scenarios.alice_alone
    [Scenarios.found_without_url; Scenarios.found_offline]
  = ([] ++ [EvSleep 300], ScriptEnd).
Proof.
  destruct X13_automatic_modes_outcomes as (_ & _ & H & _).
  apply (H 0%nat Scenarios.alice_alone Scenarios.found_without_url
           [Scenarios.found_offline] []
           LiveNotFound
           (TikTokRecorder.set_room_id Scenarios.alice_alone (Some "7318")));
    [|reflexivity|discriminate|discriminate].
  right. exists (Some "7318"). split; reflexivity.
Defined.

Module HandleFacts.
Import Engine TraceShapes TraceFacts ReplayFacts.

Lemma handle_late post : Forall late_event post → ∀ s,
  handle (replay post s) = handle s.
Proof.
  induction 1 as [|e post He _ IH]; intros s; [done|].
  change (replay (e :: post) s) with (replay post (fs_step s e)). rewrite IH.
  by destruct e.
Qed.

Lemma multi_session_closes n t r s fs0 :
  (MultiStreamRecorder.session n t r s).2 ≠ MultiStreamRecorder.SessionUnfinished →
  handle fs0 = None →
  handle (replay (MultiStreamRecorder.session n t r s).1 fs0) = None.
Proof.
  intros Hend H0.
  destruct (MultiFacts.multi_session_shape n t r s)
    as [(x & -> & _)|(url & ev & _ & _ & Hev & _ & _ & _ & H)]; [done|].
  destruct H as [H|[(x & H & _)|(post & e & H & Hpost & _)]].
  - by rewrite H in Hend.
  - rewrite H. cbn [fst]. by rewrite !replay_app.
  - rewrite H. cbn [fst]. rewrite !replay_app.
    by rewrite (handle_late post Hpost).
Qed.

Lemma single_session_closes r s fs0 :
  (TikTokRecorder.session r s).2 ≠ TikTokRecorder.SessionUnfinished →
  handle fs0 = None →
  handle (replay (TikTokRecorder.session r s).1 fs0) = None.
Proof.
  intros Hend H0.
  destruct (SingleFacts.single_session_shape r s)
    as [(x & -> & _)|(url & ev & _ & _ & Hev & _ & _ & _ & H)]; [done|].
  destruct H as [H|(post & e & H & Hpost & _)].
  - by rewrite H in Hend.
  - rewrite H. cbn [fst]. rewrite !replay_app.
    by rewrite (handle_late post Hpost).
Qed.

Lemma multi_run_closes n t r scripts : ∀ depth fs0,
  (MultiStreamRecorder._start_recording_with_stop_event depth n t r scripts).2
  ≠ ScriptEnd →
  handle fs0 = None →
  handle (replay (MultiStreamRecorder._start_recording_with_stop_event
                    depth n t r scripts).1 fs0) = None.
Proof.
  induction scripts as [|s rest IH]; intros depth fs0; [done|]. simpl.
  pose proof (multi_session_closes n t r s fs0) as Hs.
  destruct (MultiStreamRecorder.session n t r s) as [tr [e| |why rr|why]];
    simpl in *; try (intros _; by apply Hs).
  - done.
  - destruct depth as [|depth]; [intros _; by apply Hs|].
    specialize (IH depth (replay tr fs0)).
    destruct (MultiStreamRecorder._start_recording_with_stop_event depth n t r
                rest)
      as [tr' o]. simpl in *. intros Ho H0. rewrite replay_app.
    apply IH; [|by apply Hs]. by destruct o.
Qed.

Lemma single_run_closes scripts : ∀ depth r fs0,
  (TikTokRecorder.start_recording depth r scripts).1.2 ≠ ScriptEnd →
  handle fs0 = None →
  handle (replay (TikTokRecorder.start_recording depth r scripts).1.1 fs0)
  = None.
Proof.
  induction scripts as [|s rest IH]; intros depth r fs0; [done|]. simpl.
  pose proof (single_session_closes r s fs0) as Hs.
  destruct (TikTokRecorder.session r s) as [tr [e| |why rr|why u]];
    simpl in *; try (intros _; by apply Hs).
  - done.
  - destruct depth as [|depth]; [intros _; by apply Hs|].
    specialize (IH depth (TikTokRecorder.set_detector r u) (replay tr fs0)).
    destruct (TikTokRecorder.start_recording depth
                (TikTokRecorder.set_detector r u) rest)
      as [[tr' o] r']. simpl in *. intros Ho H0. rewrite replay_app.
    apply IH; [|by apply Hs]. by destruct o.
Qed.

End HandleFacts.

Import Engine TraceShapes HandleFacts.

(** X14. No recording leaves its file open. When a run of the recording
    function of either recorder has ended, by returning or by an
    exception, restarts included, the file system that has seen all its
    events has no file open for writing. *)
Theorem X14_every_file_is_closed :
  (∀ depth n t r scripts fs0,
     (MultiStreamRecorder._start_recording_with_stop_event depth n t r
        scripts).2
     ≠ ScriptEnd →
     handle fs0 = None →
     handle (replay (MultiStreamRecorder._start_recording_with_stop_event
                       depth n t r scripts).1 fs0) = None) ∧
  (∀ depth r scripts fs0,
     (TikTokRecorder.start_recording depth r scripts).1.2 ≠ ScriptEnd →
     handle fs0 = None →
     handle (replay (TikTokRecorder.start_recording depth r scripts).1.1 fs0)
     = None).
Proof.
  split.
  - intros. by apply multi_run_closes.
  - intros. by apply single_run_closes.
Qed.

Lemma X14_every_file_is_closed_witness :
  handle (replay (MultiStreamRecorder._start_recording_with_stop_event 1 2
                    (MultiStreamRecorder.stream_key 0) Scenarios.alice
                    [Scenarios.resolution_changed; Scenarios.second_session]).1
            empty_fs) = None.
Proof.
  destruct X14_every_file_is_closed as (H & _).
  apply H; [discriminate|reflexivity].
Defined.

Module PauseFacts.
Import Engine TraceShapes TraceFacts ReplayFacts.

Lemma opened_nil_lookup tr i p :
  opened tr = [] → tr !! i ≠ Some (EvOpen p).
Proof.
  revert i. induction tr as [|e tr IH]; intros i H; [done|].
  destruct i as [|i]; simpl.
  - intros [= ->]. done.
  - apply IH. by destruct e.
Qed.

Lemma opens_after_pause_one folder path tl :
  opened tl = [] →
  opens_after_pause folder (EvMakedirs folder :: EvOpen path :: tl).
Proof.
  intros Htl i p Hi.
  destruct i as [|[|i]]; simpl in Hi; [done| |].
  - split_and!; [lia|done|by left].
  - by apply opened_nil_lookup in Hi.
Qed.

Lemma opens_after_pause_app folder front path tl tr' :
  opened tl = [] →
  EvMakedirs folder :: EvOpen path :: tl = front ++ [EvSleep 2] →
  opens_after_pause folder tr' →
  opens_after_pause folder ((EvMakedirs folder :: EvOpen path :: tl) ++ tr').
Proof.
  intros Htl Hfront Hrest i p Hi.
  set (tr := EvMakedirs folder :: EvOpen path :: tl) in *.
  assert (length tr = S (length front)) as Hlen.
  { rewrite Hfront, length_app. simpl. lia. }
  assert (tr !! length front = Some (EvSleep 2)) as Hlast.
  { rewrite Hfront. rewrite lookup_app_r by lia. by rewrite Nat.sub_diag. }
  assert (2 ≤ length tr)%nat as Hlen2 by (subst tr; simpl; lia).
  destruct (decide (i < length tr)%nat) as [Hlt|Hge].
  - rewrite lookup_app_l in Hi by done.
    destruct (opens_after_pause_one folder path tl Htl i p Hi) as (H1 & H2 & H3).
    split_and!; [done| |].
    + rewrite lookup_app_l by lia. done.
    + destruct H3 as [->|[H3 H4]]; [by left|right].
      split; [done|]. rewrite lookup_app_l by lia. done.
  - rewrite lookup_app_r in Hi by lia.
    destruct (Hrest _ _ Hi) as (H1 & H2 & H3).
    split_and!; [lia| |right].
    + rewrite lookup_app_r by lia.
      replace (i - 1 - length tr)%nat with (i - length tr - 1)%nat by lia. done.
    + split; [lia|]. destruct H3 as [H3|[H3 H4]].
      * rewrite lookup_app_l by lia.
        replace (i - 2)%nat with (length front) by lia. done.
      * rewrite lookup_app_r by lia.
        replace (i - 2 - length tr)%nat with (i - length tr - 2)%nat by lia. done.
Qed.

Lemma multi_restart_pause n t r s :
  MultiStreamRecorder.restarts (MultiStreamRecorder.session n t r s).2 = true →
  ∃ front, (MultiStreamRecorder.session n t r s).1 = front ++ [EvSleep 2].
Proof.
  unfold MultiStreamRecorder.session.
  destruct (ss_live_url s) as [[url|]|x]; simpl; try done.
  destruct (String.eqb url EmptyString); simpl; try done.
  destruct (MultiStreamRecorder.streaming_loop _ _ url (ss_iterations s) [] false)
    as [[rr ev] why].
  destruct why; simpl; try done;
    destruct (rr || _), (ss_stop_after s), (ss_alive_after s) as [[|]|?],
      (ss_restart_url s) as [[u'|]|x]; simpl; try done;
    try (destruct (is_Exception x); simpl; try done);
    try (destruct (String.eqb u' EmptyString); simpl; try done);
    intros _; rewrite ?app_comm_cons, ?app_assoc; eauto.
Qed.

Lemma single_restart_pause r s :
  TikTokRecorder.restarts (TikTokRecorder.session r s).2 = true →
  ∃ front, (TikTokRecorder.session r s).1 = front ++ [EvSleep 2].
Proof.
  unfold TikTokRecorder.session.
  destruct (ss_live_url s) as [[url|]|x]; simpl; try done.
  destruct (String.eqb url EmptyString); simpl; try done.
  destruct (TikTokRecorder.streaming_loop _ _ _ url (ss_iterations s) [] false)
    as [[rr ev] why].
  destruct why; simpl; try done;
    destruct (rr || _), (ss_alive_after s) as [[|]|?],
      (ss_restart_url s) as [[u'|]|x]; simpl; try done;
    try (destruct (is_Exception x); simpl; try done);
    try (destruct (String.eqb u' EmptyString); simpl; try done);
    intros _; rewrite ?app_comm_cons, ?app_assoc; eauto.
Qed.

Lemma multi_session_opens n t r s :
  (MultiStreamRecorder.session n t r s).1 = [] ∨
  ∃ tl, (MultiStreamRecorder.session n t r s).1
        = EvMakedirs (MultiStreamRecorder.session_folder r) ::
          EvOpen (MultiStreamRecorder.session_path n t r s) :: tl ∧
        opened tl = [].
Proof.
  destruct (MultiFacts.multi_session_shape n t r s)
    as [(x & -> & _)|(url & ev & Hu & Hne & _)]; [by left|right].
  destruct (multi_session_url n t r s url Hu Hne) as (_ & _ & Ho & tl & Htl).
  exists tl. split; [done|]. rewrite Htl in Ho. simpl in Ho. by injection Ho.
Qed.

Lemma single_session_opens r s :
  (TikTokRecorder.session r s).1 = [] ∨
  ∃ tl, (TikTokRecorder.session r s).1
        = EvMakedirs (TikTokRecorder.session_folder r) ::
          EvOpen (TikTokRecorder.session_path r s) :: tl ∧
        opened tl = [].
Proof.
  destruct (SingleFacts.single_session_shape r s)
    as [(x & -> & _)|(url & ev & Hu & Hne & _)]; [by left|right].
  destruct (single_session_url r s url Hu Hne) as (_ & _ & Ho & tl & Htl).
  exists tl. split; [done|]. rewrite Htl in Ho. simpl in Ho. by injection Ho.
Qed.

Lemma multi_session_pauses n t r s :
  opens_after_pause (MultiStreamRecorder.session_folder r)
    (MultiStreamRecorder.session n t r s).1.
Proof.
  destruct (multi_session_opens n t r s) as [->|(tl & -> & Ho)].
  - by intros i p Hi.
  - by apply opens_after_pause_one.
Qed.

Lemma single_session_pauses r s :
  opens_after_pause (TikTokRecorder.session_folder r)
    (TikTokRecorder.session r s).1.
Proof.
  destruct (single_session_opens r s) as [->|(tl & -> & Ho)].
  - by intros i p Hi.
  - by apply opens_after_pause_one.
Qed.

Lemma multi_run_pauses n t r scripts : ∀ depth,
  opens_after_pause (MultiStreamRecorder.session_folder r)
    (MultiStreamRecorder._start_recording_with_stop_event depth n t r scripts).1.
Proof.
  induction scripts as [|s rest IH]; intros depth; [by intros i p Hi|].
  destruct (MultiStreamRecorder.restarts (MultiStreamRecorder.session n t r s).2)
    eqn:Hr.
  - destruct depth as [|depth].
    { rewrite multi_run_limit. apply multi_session_pauses. }
    rewrite multi_run_restart by done.
    destruct (multi_restart_pause n t r s Hr) as [front Hfront].
    destruct (multi_session_opens n t r s) as [Hnil|(tl & Htl & Ho)].
    { rewrite Hnil in Hfront. by destruct front. }
    rewrite Htl in *. by eapply opens_after_pause_app.
  - rewrite multi_run_no_restart by done. apply multi_session_pauses.
Qed.

Lemma single_run_pauses scripts : ∀ depth r,
  opens_after_pause (TikTokRecorder.session_folder r)
    (TikTokRecorder.start_recording depth r scripts).1.1.
Proof.
  induction scripts as [|s rest IH]; intros depth r; [by intros i p Hi|].
  destruct (TikTokRecorder.restarts (TikTokRecorder.session r s).2) eqn:Hr.
  - destruct depth as [|depth].
    { rewrite single_run_limit. apply single_session_pauses. }
    destruct (single_run_restart depth r s rest Hr) as (why & u & Hend & ->).
    destruct (single_restart_pause r s Hr) as [front Hfront].
    destruct (single_session_opens r s) as [Hnil|(tl & Htl & Ho)].
    { rewrite Hnil in Hfront. by destruct front. }
    rewrite Htl in *.
    eapply opens_after_pause_app; [done|done|].
    apply (IH depth (TikTokRecorder.set_detector r u)).
  - rewrite single_run_no_restart by done. apply single_session_pauses.
Qed.

End PauseFacts.

Import Engine TraceShapes PauseFacts.

(** X15. A restart never opens the next file at once. In every run of the
    recording function of either recorder, each file is opened right after
    the user's folder was made, and each file but the first one right
    after the pause of two seconds that ends the session before. *)
Theorem X15_each_further_file_follows_a_pause :
  (∀ depth n t r scripts i p,
     (MultiStreamRecorder._start_recording_with_stop_event depth n t r
        scripts).1 !! i
     = Some (EvOpen p) →
     let tr := (MultiStreamRecorder._start_recording_with_stop_event
                  depth n t r scripts).1 in
     (1 ≤ i)%nat ∧
     tr !! (i - 1)%nat = Some (EvMakedirs (MultiStreamRecorder.session_folder r)) ∧
     (i = 1%nat ∨ ((2 ≤ i)%nat ∧ tr !! (i - 2)%nat = Some (EvSleep 2)))) ∧
  (∀ depth r scripts i p,
     (TikTokRecorder.start_recording depth r scripts).1.1 !! i
     = Some (EvOpen p) →
     let tr := (TikTokRecorder.start_recording depth r scripts).1.1 in
     (1 ≤ i)%nat ∧
     tr !! (i - 1)%nat = Some (EvMakedirs (TikTokRecorder.session_folder r)) ∧
     (i = 1%nat ∨ ((2 ≤ i)%nat ∧ tr !! (i - 2)%nat = Some (EvSleep 2)))).
Proof.
  split.
  - intros depth n t r scripts i p Hi.
    by apply (multi_run_pauses n t r scripts depth i p).
  - intros depth r scripts i p Hi.
    by apply (single_run_pauses scripts depth r i p).
Qed.

Lemma X15_each_further_file_follows_a_pause_witness :
  let tr := (MultiStreamRecorder._start_recording_with_stop_event 1 2
               (MultiStreamRecorder.stream_key 0) Scenarios.alice
               [Scenarios.resolution_changed; Scenarios.second_session]).1 in
  (1 ≤ 12)%nat ∧
  tr !! (12 - 1)%nat
  = Some (EvMakedirs (MultiStreamRecorder.session_folder Scenarios.alice)) ∧
  (12%nat = 1%nat ∨ ((2 ≤ 12)%nat ∧ tr !! (12 - 2)%nat = Some (EvSleep 2))).
Proof.
  destruct X15_each_further_file_follows_a_pause as (H & _).
  apply (H 1%nat 2%nat (MultiStreamRecorder.stream_key 0) Scenarios.alice
           [Scenarios.resolution_changed; Scenarios.second_session] 12%nat
           "rec/alice/TK_alice_2025.06.01_12-00-07_Stream-1_flv.mp4").
  reflexivity.
Defined.

Module UploadFacts.
Import Engine TraceShapes PostProcessing TraceFacts ReplayFacts.

Ltac no_post_processing :=
  repeat (apply List.Forall_cons; [simpl; tauto|]); apply List.Forall_nil.

Lemma loop_no_post_processing ev :
  Forall loop_event ev → Forall (fun e => ¬ post_processing e) ev.
Proof. intros H. eapply Forall_impl; [done|]. intros [] H1 H2; simpl in *; tauto. Qed.

Lemma processed_once_intro telegram output start ev post :
  Forall (fun e => ¬ post_processing e) start →
  Forall loop_event ev →
  Forall (fun e => ¬ post_processing e) post →
  processed_once telegram output
    (start ++ ev ++ [EvClose; EvMonitorStop; EvConvert output]
       ++ (if telegram then [EvUpload output] else []) ++ post).
Proof.
  intros Hs Hev Hp.
  exists (start ++ ev ++ [EvClose; EvMonitorStop]), post.
  split_and!; [by rewrite <- !app_assoc| |done].
  apply Forall_app. split; [done|].
  apply Forall_app. split; [by apply loop_no_post_processing|].
  no_post_processing.
Qed.

Lemma no_post_processing_intro start ev tail :
  Forall (fun e => ¬ post_processing e) start →
  Forall loop_event ev →
  Forall (fun e => ¬ post_processing e) tail →
  Forall (fun e => ¬ post_processing e) (start ++ ev ++ tail).
Proof.
  intros Hs Hev Ht. apply Forall_app. split; [done|].
  apply Forall_app. split; [by apply loop_no_post_processing|done].
Qed.

Ltac finished_session opening ev telegram s rr :=
  right;
  destruct (rr || _); try destruct (ss_stop_after s);
  destruct (ss_alive_after s) as [[|]|?];
  destruct (ss_restart_url s) as [[?u|]|?x];
  cbn -[opening];
  try match goal with |- context [is_Exception ?x] => destruct (is_Exception x) end;
  try match goal with
      | |- context [String.eqb ?u EmptyString] => destruct (String.eqb u EmptyString)
      end;
  cbn -[opening];
  rewrite <- ?app_assoc;
  first [ apply (processed_once_intro _ _ _ ev [EvSleep 2]);
          [done|done|no_post_processing]
        | rewrite <- (app_nil_r (if telegram then _ else _));
          apply (processed_once_intro _ _ _ ev []);
          [done|done|no_post_processing] ].

Lemma multi_session_processing n t r s :
  let tr := (MultiStreamRecorder.session n t r s).1 in
  Forall (fun e => ¬ post_processing e) tr ∨
  processed_once (MultiStreamRecorder.r_use_telegram r)
    (MultiStreamRecorder.session_path n t r s) tr.
Proof.
  unfold MultiStreamRecorder.session.
  destruct (ss_live_url s) as [[url|]|x]; cbn -[MultiStreamRecorder.opening];
    try (by left).
  destruct (String.eqb url EmptyString); cbn -[MultiStreamRecorder.opening];
    try (by left).
  pose proof (MultiFacts.multi_streaming_loop_spec
                (truthy (ConfigManager.should_restart_on_resolution_change
                           (MultiStreamRecorder.session_config s)
                           (MultiStreamRecorder.r_user r)
                           (MultiStreamRecorder.r_room_id r)))
                (MultiStreamRecorder.r_duration r) url (ss_iterations s) false)
    as Hev.
  destruct (MultiStreamRecorder.streaming_loop _ _ url (ss_iterations s) [] false)
    as [[rr ev] why]. destruct Hev as (_ & Hev & _).
  assert (Forall (fun e => ¬ post_processing e)
            (MultiStreamRecorder.opening n t r s url)) as Hopen.
  { unfold MultiStreamRecorder.opening. no_post_processing. }
  destruct why; cbn -[MultiStreamRecorder.opening].
  - finished_session MultiStreamRecorder.opening ev (MultiStreamRecorder.r_use_telegram r) s rr.
  - finished_session MultiStreamRecorder.opening ev (MultiStreamRecorder.r_use_telegram r) s rr.
  - finished_session MultiStreamRecorder.opening ev (MultiStreamRecorder.r_use_telegram r) s rr.
  - finished_session MultiStreamRecorder.opening ev (MultiStreamRecorder.r_use_telegram r) s rr.
  - finished_session MultiStreamRecorder.opening ev (MultiStreamRecorder.r_use_telegram r) s rr.
  - left. rewrite <- app_assoc.
    apply (no_post_processing_intro _ ev [EvClose]); [done|done|].
    no_post_processing.
  - left. rewrite <- (app_nil_r ev).
    apply (no_post_processing_intro _ ev []); [done|done|]. no_post_processing.
Qed.

Lemma single_session_processing r s :
  let tr := (TikTokRecorder.session r s).1 in
  Forall (fun e => ¬ post_processing e) tr ∨
  processed_once (TikTokRecorder.r_use_telegram r)
    (TikTokRecorder.session_path r s) tr.
Proof.
  unfold TikTokRecorder.session.
  destruct (ss_live_url s) as [[url|]|x]; cbn -[TikTokRecorder.opening];
    try (by left).
  destruct (String.eqb url EmptyString); cbn -[TikTokRecorder.opening];
    try (by left).
  pose proof (SingleFacts.single_streaming_loop_spec (TikTokRecorder.r_mode r)
                (truthy (ConfigManager.should_restart_on_resolution_change
                           (TikTokRecorder.r_config r)
                           (TikTokRecorder.r_user r)
                           (TikTokRecorder.r_room_id r)))
                (TikTokRecorder.r_duration r) url (ss_iterations s) false)
    as Hev.
  destruct (TikTokRecorder.streaming_loop _ _ _ url (ss_iterations s) [] false)
    as [[rr ev] why]. destruct Hev as (_ & _ & Hev & _).
  assert (Forall (fun e => ¬ post_processing e)
            (TikTokRecorder.opening r s)) as Hopen.
  { unfold TikTokRecorder.opening. no_post_processing. }
  destruct why; cbn -[TikTokRecorder.opening].
  - finished_session TikTokRecorder.opening ev (TikTokRecorder.r_use_telegram r) s rr.
  - finished_session TikTokRecorder.opening ev (TikTokRecorder.r_use_telegram r) s rr.
  - finished_session TikTokRecorder.opening ev (TikTokRecorder.r_use_telegram r) s rr.
  - finished_session TikTokRecorder.opening ev (TikTokRecorder.r_use_telegram r) s rr.
  - finished_session TikTokRecorder.opening ev (TikTokRecorder.r_use_telegram r) s rr.
  - left. rewrite <- app_assoc.
    apply (no_post_processing_intro _ ev [EvClose]); [done|done|].
    no_post_processing.
  - left. rewrite <- (app_nil_r ev).
    apply (no_post_processing_intro _ ev []); [done|done|]. no_post_processing.
Qed.

(** When no call of the post-processing raises, the two blocks do what
    the sessions of the model record after the monitor is stopped. *)
Lemma post_processing_succeeds telegram output :
  multi_post_processing telegram output all_succeed
  = ([EvConvert output] ++ (if telegram then [EvUpload output] else []), None) ∧
  single_post_processing telegram output all_succeed
  = ([EvConvert output] ++ (if telegram then [EvUpload output] else []), None).
Proof. by destruct telegram. Qed.

Lemma multi_session_post_processing n t r s :
  let tr := (MultiStreamRecorder.session n t r s).1 in
  Forall (fun e => ¬ post_processing e) tr ∨
  ∃ pre post,
    tr = pre ++ (multi_post_processing (MultiStreamRecorder.r_use_telegram r)
                   (MultiStreamRecorder.session_path n t r s) all_succeed).1
             ++ post ∧
    Forall (fun e => ¬ post_processing e) pre ∧
    Forall (fun e => ¬ post_processing e) post.
Proof.
  intros tr.
  destruct (multi_session_processing n t r s) as [H|(pre & post & H & ? & ?)];
    [by left|right].
  exists pre, post. split_and!; [|done..].
  rewrite (proj1 (post_processing_succeeds _ _)). cbn [fst].
  by rewrite <- app_assoc.
Qed.

Lemma single_session_post_processing r s :
  let tr := (TikTokRecorder.session r s).1 in
  Forall (fun e => ¬ post_processing e) tr ∨
  ∃ pre post,
    tr = pre ++ (single_post_processing (TikTokRecorder.r_use_telegram r)
                   (TikTokRecorder.session_path r s) all_succeed).1
             ++ post ∧
    Forall (fun e => ¬ post_processing e) pre ∧
    Forall (fun e => ¬ post_processing e) post.
Proof.
  intros tr.
  destruct (single_session_processing r s) as [H|(pre & post & H & ? & ?)];
    [by left|right].
  exists pre, post. split_and!; [|done..].
  rewrite (proj2 (post_processing_succeeds _ _)). cbn [fst].
  by rewrite <- app_assoc.
Qed.

End UploadFacts.

Import Engine TraceShapes PostProcessing UploadFacts.



Module DashboardFacts.
Import Engine Dashboard StringFacts.

Lemma stream_key_inj i j :
  MultiStreamRecorder.stream_key i = MultiStreamRecorder.stream_key j → i = j.
Proof.
  unfold MultiStreamRecorder.stream_key. intros H.
  apply (f_equal chars) in H. rewrite !chars_app in H.
  apply app_inv_head in H. apply chars_inj in H.
  apply dec_inj in H. lia.
Qed.

Lemma dict_set_fresh {V} k (v : V) d :
  k ∉ d.*1 → dict_set k v d = d ++ [(k, v)].
Proof.
  induction d as [|[k' v'] d IH]; intros Hk; [done|]. simpl.
  destruct (String.eqb_spec k k') as [->|Hne]; [set_solver|].
  rewrite IH; [done|]. set_solver.
Qed.

Lemma initial_progress_spec targets :
  initial_progress targets
  = imap (fun i tg => (MultiStreamRecorder.stream_key i, waiting tg)) targets.
Proof.
  unfold initial_progress, enumerate.
  induction targets as [|tg targets IH] using rev_ind; [done|].
  rewrite !imap_app, foldl_app, IH. simpl.
  rewrite dict_set_fresh; [by rewrite Nat.add_0_r|].
  rewrite Nat.add_0_r. intros Hin.
  apply list_elem_of_fmap in Hin as ([k p] & Hk & Hin). simpl in Hk.
  apply elem_of_lookup_imap in Hin as (i & tg' & [= Hk' _] & Hi).
  subst k. apply stream_key_inj in Hk'.
  apply lookup_lt_Some in Hi. lia.
Qed.

Lemma range_from_rows {A} (items : list A) c : ∀ fuel start,
  (1 ≤ c)%nat → (length items - start ≤ fuel)%nat →
  let rs := (fun i => take c (drop i items))
              <$> range_from fuel start (length items) c in
  concat rs = drop start items ∧
  Forall (fun row => (1 ≤ length row ≤ c)%nat) rs ∧
  (∀ j row, rs !! j = Some row → (S j < length rs)%nat → length row = c).
Proof.
  intros fuel. induction fuel as [|fuel IH]; intros start Hc Hfuel;
    cbn [range_from].
  - cbn. split_and!; [|done|done]. rewrite drop_ge; [done|lia].
  - destruct (Nat.ltb_spec start (length items)) as [Hlt|Hge].
    + destruct (IH (start + c)%nat Hc ltac:(lia)) as (H1 & H2 & H3).
      cbn zeta in *. rewrite fmap_cons. cbn [concat].
      split_and!.
      * rewrite H1. rewrite <- drop_drop. apply take_drop.
      * constructor; [|done]. rewrite length_take, length_drop. lia.
      * intros j row Hj Hlast. destruct j as [|j].
        -- injection Hj as <-. rewrite length_take, length_drop.
           destruct (decide (start + c < length items)%nat); [lia|].
           exfalso. cbn [length] in Hlast. rewrite length_fmap in Hlast.
           destruct fuel as [|fuel']; cbn [range_from] in Hlast;
             [simpl in Hlast; lia|].
           destruct (Nat.ltb_spec (start + c) (length items)); [lia|].
           simpl in Hlast. lia.
        -- apply (H3 j row Hj). cbn [length] in Hlast. lia.
    + cbn. split_and!; [|done|done]. rewrite drop_ge; [done|lia].
Qed.

Lemma columns_per_row_bounds w : (2 ≤ columns_per_row w ≤ 4)%nat.
Proof. unfold columns_per_row. lia. Qed.

End DashboardFacts.

Import Engine Dashboard DashboardFacts.

(** X16. The progress table that [run] sets up has one entry for each
    target, in the order of the targets: the entry of the i-th target is
    kept under [Stream-i] (counting from 1), shows the user name, or else
    the URL, or else the room, and waits at zero. No entry replaces
    another, also when the same target is listed twice. *)
Theorem X16_one_progress_entry_per_target :
  ∀ targets,
    initial_progress targets
    = imap (fun i tg => (MultiStreamRecorder.stream_key i, waiting tg)) targets ∧
    length (initial_progress targets) = length targets ∧
    NoDup (initial_progress targets).*1.
Proof.
  intros targets. rewrite initial_progress_spec. split_and!; [done| |].
  - by rewrite length_imap.
  - rewrite fmap_imap. apply NoDup_alt. intros i j k Hi Hj.
    rewrite list_lookup_imap in Hi, Hj.
    destruct (targets !! i), (targets !! j); simplify_eq/=.
    apply StringFacts.dec_inj in Hi. lia.
Qed.

(** X17. The grid of the dashboard shows every stream once. Whatever the
    width of the terminal, a row holds two, three or four columns; the
    rows, read one after the other, are the streams in their order; no
    row is empty, and every row but the last is full. *)
Theorem X17_grid_rows_partition_the_streams :
  ∀ (A : Type) (terminal_width : Z) (items : list A),
    let c := columns_per_row terminal_width in
    let rs := rows terminal_width items in
    (2 ≤ c ≤ 4)%nat ∧
    concat rs = items ∧
    Forall (fun row => (1 ≤ length row ≤ c)%nat) rs ∧
    (∀ j row, rs !! j = Some row → (S j < length rs)%nat → length row = c).
Proof.
  intros A w items c rs.
  pose proof (columns_per_row_bounds w) as Hc.
  destruct (range_from_rows items c (length items) 0 ltac:(lia) ltac:(lia))
    as (H1 & H2 & H3).
  split_and!; [lia|lia| |done|done].
  subst rs. unfold rows. fold c. by rewrite H1.
Qed.

Lemma X17_grid_rows_partition_the_streams_witness :
  length [1; 2] = columns_per_row 80.
Proof.
  destruct (X17_grid_rows_partition_the_streams Z 80 [1; 2; 3; 4; 5])
    as (_ & _ & _ & H).
  apply (H 0%nat [1; 2]); [reflexivity|vm_compute; lia].
Defined.

Module DurationStrFacts.
Import Engine Dashboard StringFacts.

Lemma numeral_fmt_02d n : Forall numeral_char (chars (fmt_02d n)).
Proof.
  unfold fmt_02d. destruct (n <? 0).
  - rewrite chars_app. apply Forall_app. split.
    + simpl. apply List.Forall_cons; [by right|apply List.Forall_nil].
    + eapply Forall_impl; [apply digits_dec|]. by left.
  - eapply Forall_impl; [apply digits_two_digits|]. by left.
Qed.

Lemma colon_not_numeral l : Forall numeral_char l → ":"%char ∉ l.
Proof.
  intros H Hin. rewrite Forall_forall in H.
  by destruct (H _ Hin) as [?|?].
Qed.

Lemma fmt_02d_inj n m : fmt_02d n = fmt_02d m → n = m.
Proof.
  unfold fmt_02d.
  destruct (Z.ltb_spec n 0) as [Hn|Hn], (Z.ltb_spec m 0) as [Hm|Hm]; intros H.
  - apply (f_equal chars) in H. rewrite !chars_app in H.
    apply app_inv_head, chars_inj, dec_inj in H. lia.
  - exfalso. apply (f_equal chars) in H. rewrite chars_app in H. simpl in H.
    pose proof (digits_two_digits (Z.to_nat m)) as Hd.
    rewrite <- H in Hd. by apply Forall_cons in Hd as [? _].
  - exfalso. apply (f_equal chars) in H. rewrite chars_app in H. simpl in H.
    pose proof (digits_two_digits (Z.to_nat n)) as Hd.
    rewrite H in Hd. by apply Forall_cons in Hd as [? _].
  - apply two_digits_inj in H. lia.
Qed.

End DurationStrFacts.

Import Engine Dashboard DurationStrFacts.

(** X21. The time shown for a stream tells its duration. The text
    [HH:MM:SS] that the dashboard, the grid and the summary print is
    different for different numbers of seconds, negative ones included;
    for a duration that is not negative the minutes and the seconds are
    below 60 and the three numbers add up to it. *)
Theorem X21_shown_duration_is_unambiguous :
  (∀ d1 d2, duration_str d1 = duration_str d2 → d1 = d2) ∧
  (∀ d, 0 ≤ d →
     let h := d / 3600 in
     let m := (d mod 3600) / 60 in
     let s := d mod 60 in
     duration_str d
     = two_digits (Z.to_nat h) +:+ ":" +:+ two_digits (Z.to_nat m) +:+ ":" +:+
       two_digits (Z.to_nat s) ∧
     0 ≤ h ∧ 0 ≤ m < 60 ∧ 0 ≤ s < 60 ∧ d = h * 3600 + m * 60 + s).
Proof.
  split.
  - intros d1 d2 H. unfold duration_str in H. cbv zeta in H.
    apply (f_equal chars) in H.
    rewrite !StringFacts.chars_app in H. simpl in H.
    apply StringFacts.first_sep in H as [Hh H];
      [|by apply colon_not_numeral, numeral_fmt_02d..].
    apply StringFacts.first_sep in H as [Hm Hs];
      [|by apply colon_not_numeral, numeral_fmt_02d..].
    apply StringFacts.chars_inj, fmt_02d_inj in Hh, Hm, Hs.
    pose proof (Z.div_mod d1 3600 ltac:(lia)).
    pose proof (Z.div_mod d2 3600 ltac:(lia)).
    pose proof (Z.div_mod (d1 mod 3600) 60 ltac:(lia)).
    pose proof (Z.div_mod (d2 mod 3600) 60 ltac:(lia)).
    assert (∀ d, (d mod 3600) mod 60 = d mod 60) as Hmod.
    { intros d. apply Z.mod_mod_divide. by exists 60. }
    rewrite !Hmod in *. lia.
  - intros d Hd h m s. subst h m s.
    pose proof (Z.div_mod d 3600 ltac:(lia)).
    pose proof (Z.div_mod (d mod 3600) 60 ltac:(lia)).
    pose proof (Z.mod_pos_bound d 3600 ltac:(lia)).
    pose proof (Z.mod_pos_bound d 60 ltac:(lia)).
    pose proof (Z.mod_pos_bound (d mod 3600) 60 ltac:(lia)).
    assert ((d mod 3600) mod 60 = d mod 60) as Hmod.
    { apply Z.mod_mod_divide. by exists 60. }
    assert (0 ≤ d / 3600) by (apply Z.div_pos; lia).
    assert (0 ≤ (d mod 3600) / 60 < 60).
    { split; [apply Z.div_pos; lia|]. apply Z.div_lt_upper_bound; lia. }
    split_and!; try lia.
    unfold duration_str, fmt_02d. cbv zeta.
    destruct (Z.ltb_spec (d / 3600) 0); [lia|].
    destruct (Z.ltb_spec ((d mod 3600) / 60) 0); [lia|].
    destruct (Z.ltb_spec (d mod 60) 0); [lia|]. done.
Qed.

Lemma X21_shown_duration_is_unambiguous_witness :
  duration_str 3725
  = two_digits (Z.to_nat (3725 / 3600)) +:+ ":" +:+
    two_digits (Z.to_nat ((3725 mod 3600) / 60)) +:+ ":" +:+
    two_digits (Z.to_nat (3725 mod 60)).
Proof.
  destruct X21_shown_duration_is_unambiguous as (_ & H).
  apply (H 3725). lia.
Defined.

Module BoxFacts.
Import VisualUtils.

Lemma split_lines_nonempty text : split_lines text ≠ [].
Proof.
  destruct text as [|c rest]; [done|]. simpl.
  destruct (c =? newline)%N; [done|]. by destruct (split_lines rest).
Qed.

Lemma split_lines_no_newline text :
  Forall (fun line => newline ∉ line) (split_lines text).
Proof.
  induction text as [|c rest IH]; simpl.
  - repeat constructor. set_solver.
  - destruct (N.eqb_spec c newline) as [->|Hne].
    + constructor; [set_solver|done].
    + destruct (split_lines rest) as [|line lines] eqn:E;
        [by apply split_lines_nonempty in E|].
      apply Forall_cons in IH as [Hl Hls].
      constructor; [set_solver|done].
Qed.

Lemma split_lines_app_newline line lines :
  newline ∉ line →
  split_lines (line ++ newline :: lines) = line :: split_lines lines.
Proof.
  induction line as [|c line IH]; intros Hn; simpl.
  - done.
  - destruct (N.eqb_spec c newline) as [->|Hne]; [set_solver|].
    rewrite IH by set_solver. done.
Qed.

Lemma split_lines_one line : newline ∉ line → split_lines line = [line].
Proof.
  induction line as [|c line IH]; intros Hn; simpl; [done|].
  destruct (N.eqb_spec c newline) as [->|Hne]; [set_solver|].
  rewrite IH by set_solver. done.
Qed.

Lemma split_join lines :
  lines ≠ [] → Forall (fun line => newline ∉ line) lines →
  split_lines (join_lines lines) = lines.
Proof.
  induction lines as [|line lines IH]; intros Hne Hall; [done|].
  apply Forall_cons in Hall as [Hl Hls].
  destruct lines as [|line' lines'].
  - simpl. by apply split_lines_one.
  - change (join_lines (line :: line' :: lines'))
      with (line ++ newline :: join_lines (line' :: lines')).
    rewrite split_lines_app_newline by done. by rewrite IH.
Qed.

Lemma max_length_ge lines line :
  line ∈ lines → (length line ≤ max_length lines)%nat.
Proof.
  induction lines as [|l lines IH]; intros Hin; [set_solver|].
  simpl. apply elem_of_cons in Hin as [->|Hin]; [lia|].
  specialize (IH Hin). lia.
Qed.

Lemma length_ljust line width :
  (length line ≤ width)%nat → length (ljust line width) = width.
Proof.
  intros H. unfold ljust. rewrite length_app, length_replicate. lia.
Qed.

Lemma length_times c n : 0 ≤ n → Z.of_nat (length (times c n)) = n.
Proof. intros H. unfold times. rewrite length_replicate. lia. Qed.

Lemma length_bordered color line :
  length (bordered color line)
  = (length line
     + (if color_truthy color then length (default [] color) + 4 else 0))%nat.
Proof.
  unfold bordered. destruct (color_truthy color); [|lia].
  unfold colorize. rewrite !length_app. simpl. lia.
Qed.

Lemma bordered_no_newline color line :
  newline ∉ default [] color → newline ∉ line →
  newline ∉ bordered color line.
Proof.
  intros Hc Hl. unfold bordered. destruct (color_truthy color); [|done].
  unfold colorize. rewrite !elem_of_app. intros [?|[?|Hr]]; [done|done|].
  unfold RESET, newline in Hr. set_solver.
Qed.

Lemma times_no_newline c n : c ≠ newline → newline ∉ times c n.
Proof.
  intros Hc Hin. unfold times in Hin. apply elem_of_replicate in Hin as [? _].
  done.
Qed.

End BoxFacts.

Import VisualUtils BoxFacts.

(** X22. A box is a rectangle. For a padding that is not negative,
    [create_box] puts one row above and one below the lines of the text,
    and all rows have the same length: the longest line, the padding on
    both sides and the two borders, plus the colour code and the reset
    when a colour is given. When the colour code has no line break in it,
    the rows are exactly the lines of the text that is returned. *)
Theorem X22_a_box_is_a_rectangle :
  ∀ text padding border_color,
    0 ≤ padding →
    let rows := box_lines text padding border_color in
    let width :=
      (max_length (split_lines text) + 2 * Z.to_nat padding + 2
       + (if color_truthy border_color
          then length (default [] border_color) + 4 else 0))%nat in
    length rows = (length (split_lines text) + 2)%nat ∧
    Forall (fun row => length row = width) rows ∧
    (newline ∉ default [] border_color →
     split_lines (create_box text padding border_color) = rows).
Proof.
  intros text padding color Hp rows width.
  assert (∀ line, line ∈ split_lines text →
            length ([vertical] ++ times space padding
                    ++ ljust line (max_length (split_lines text))
                    ++ times space padding ++ [vertical])
            = (max_length (split_lines text) + 2 * Z.to_nat padding + 2)%nat)
    as Hcontent.
  { intros line Hin. rewrite !length_app.
    rewrite length_ljust by (by apply max_length_ge).
    pose proof (length_times space padding Hp). simpl. lia. }
  assert (∀ l r,
            length ([l] ++ times horizontal
                      (Z.of_nat (max_length (split_lines text)) + padding * 2 + 2 - 2)
                    ++ [r])
            = (max_length (split_lines text) + 2 * Z.to_nat padding + 2)%nat)
    as Hborder.
  { intros l r. rewrite !length_app.
    pose proof (length_times horizontal
                  (Z.of_nat (max_length (split_lines text)) + padding * 2 + 2 - 2)
                  ltac:(lia)). simpl. lia. }
  split_and!.
  - subst rows. unfold box_lines. cbv zeta.
    rewrite !length_app, length_fmap. simpl. lia.
  - subst rows width. unfold box_lines. cbv zeta.
    apply Forall_app. split; [|apply Forall_app; split].
    + constructor; [|done]. by rewrite length_bordered, Hborder.
    + apply Forall_fmap, Forall_forall. intros line Hin.
      unfold compose. cbn beta. by rewrite length_bordered, Hcontent.
    + constructor; [|done]. by rewrite length_bordered, Hborder.
  - intros Hc. unfold create_box. fold rows. apply split_join.
    + subst rows. unfold box_lines. cbv zeta. done.
    + subst rows. unfold box_lines. cbv zeta.
      pose proof (split_lines_no_newline text) as Hlines.
      apply Forall_app. split; [|apply Forall_app; split].
      * constructor; [|done]. apply bordered_no_newline; [done|].
        rewrite !elem_of_app. intros [H|[H|H]].
        -- unfold top_left, newline in H. set_solver.
        -- by apply times_no_newline in H.
        -- unfold top_right, newline in H. set_solver.
      * apply Forall_fmap. eapply Forall_impl; [exact Hlines|].
        intros line Hl. unfold compose. cbn beta.
        apply bordered_no_newline; [done|].
        unfold ljust. rewrite !elem_of_app. intros [H|[H|[[H|H]|[H|H]]]].
        -- unfold vertical, newline in H. set_solver.
        -- by apply times_no_newline in H.
        -- done.
        -- apply elem_of_replicate in H as [? _]. done.
        -- by apply times_no_newline in H.
        -- unfold vertical, newline in H. set_solver.
      * constructor; [|done]. apply bordered_no_newline; [done|].
        rewrite !elem_of_app. intros [H|[H|H]].
        -- unfold bottom_left, newline in H. set_solver.
        -- by apply times_no_newline in H.
        -- unfold bottom_right, newline in H. set_solver.
Qed.

Lemma X22_a_box_is_a_rectangle_witness :
  length (box_lines [104; 105]%N 2 None)
  = (length (split_lines [104; 105]%N) + 2)%nat.
Proof.
  destruct (X22_a_box_is_a_rectangle [104; 105]%N 2 None ltac:(lia)) as (H & _).
  exact H.
Defined.

Import ConfigManager Engine RecorderInit.

(** X20. Building a recorder in a country that the platform blocks. The
    country is checked before the target is looked up, against the room
    argument as it was passed: when the country is blocked, a recorder is
    built only in manual mode and only when a room was passed; a URL or a
    user name does not help, whatever room the platform would find for
    it. A recorder that is built holds the settings loaded from the file,
    and its detector checks at the interval that these settings give for
    the user and room it settled on. *)
Theorem X20_blocked_country_needs_a_room :
  (∀ p url user m interval output duration telegram nt file,
     is_country_blacklisted p = Ok true →
     __init__ p url user None m interval output duration telegram nt file
     = Failed CountryBlacklisted) ∧
  (∀ p url user room interval output duration telegram nt file,
     is_country_blacklisted p = Ok true →
     __init__ p url user (Some room) Automatic interval output duration
       telegram nt file
     = Failed CountryBlacklistedAutoMode) ∧
  (∀ p url user room_id m interval output duration telegram nt file r,
     __init__ p url user room_id m interval output duration telegram nt file
     = Built r →
     (is_country_blacklisted p = Ok false ∨
      (is_country_blacklisted p = Ok true ∧ m = Manual ∧ is_Some room_id)) ∧
     TikTokRecorder.r_mode r = m ∧
     TikTokRecorder.r_config r = (_load_config file).1 ∧
     TikTokRecorder.r_detector_interval r
     = get_resolution_check_interval (TikTokRecorder.r_config r)
         (TikTokRecorder.r_user r) (TikTokRecorder.r_room_id r) ∧
     resolve_target p url user room_id
     = Ok (TikTokRecorder.r_user r, TikTokRecorder.r_room_id r) ∧
     get_live_url p (TikTokRecorder.r_room_id r)
     = Ok (TikTokRecorder.r_detector_url r)).
Proof.
  split_and!.
  - intros p url user m interval output duration telegram nt file Hb.
    unfold __init__, check_country_blacklisted. by rewrite Hb.
  - intros p url user room interval output duration telegram nt file Hb.
    unfold __init__, check_country_blacklisted. by rewrite Hb.
  - intros p url user room_id m interval output duration telegram nt file r.
    unfold __init__, check_country_blacklisted.
    destruct (is_country_blacklisted p) as [[|]|e]; [| |done].
    + destruct room_id as [room|]; [|done]. destruct m; [|done].
      destruct (resolve_target p url user (Some room)) as [[u r0]|e]; [|done].
      destruct (get_live_url p r0) as [live|e] eqn:Hl; [|done].
      intros [= <-]. simpl. split_and!; eauto.
    + destruct (resolve_target p url user room_id) as [[u r0]|e]; [|done].
      destruct (get_live_url p r0) as [live|e] eqn:Hl; [|done].
      intros [= <-]. simpl. split_and!; eauto.
Qed.

Lemma X20_blocked_country_needs_a_room_witness :
  __init__ Examples.blocked_platform
    (Some "https://www.tiktok.com/@alice/live") None None Manual 5 None None
    false false Missing
  = Failed CountryBlacklisted.
Proof.
  destruct X20_blocked_country_needs_a_room as (H & _).
  apply H. reflexivity.
Defined.

Module ArgsFacts.
Import Engine ArgsHandler.

Lemma first_bad_url_None f l :
  first_bad_url f l = None → Forall (fun u => f u = true) l.
Proof.
  unfold first_bad_url. induction l as [|u l IH]; [done|].
  rewrite filter_cons. destruct (decide (f u = false)) as [Hu|Hu]; [done|].
  intros H. constructor; [by destruct (f u)|auto].
Qed.

Lemma set_user_same a : set_user a (user a) = a.
Proof. by destruct a. Qed.

Lemma set_users_same a : set_users a (users a) = a.
Proof. by destruct a. Qed.

(** The checks that an accepted list of arguments has passed, one after
    the other. *)
Lemma accepted_inv f a a' m :
  validate_and_parse_args f a = Accepted a' m →
  let single :=
    str_truthy (user a) || str_truthy (room_id a) || str_truthy (url a) in
  let multi :=
    Main.list_truthy (users a) || Main.list_truthy (room_ids a)
    || Main.list_truthy (urls a) || str_truthy (users_file a) in
  let a1 := if single && str_truthy (user a)
            then set_user a (strip_at <$> user a) else a in
  let a2 := if multi && Main.list_truthy (users a1)
            then set_users a1 ((fun us : list string => strip_at <$> us) <$> users a1)
            else a1 in
  negb single && negb multi = false ∧
  single && multi = false ∧
  multi && ((1 <? count_given (urls a) (room_ids a))%nat
            || ((0 <? count_given (urls a) (room_ids a))%nat
                && (0 <? count_given (users a) (users_file a))%nat)) = false ∧
  single && ((str_truthy (user a1) && str_truthy (room_id a1))
             || (str_truthy (user a1) && str_truthy (url a1))
             || (str_truthy (room_id a1) && str_truthy (url a1))) = false ∧
  single && str_truthy (url a1)
    && negb (f (default EmptyString (url a1))) = false ∧
  (if multi && Main.list_truthy (urls a2)
   then first_bad_url f (default [] (urls a2)) else None) = None ∧
  String.eqb (mode a2) EmptyString = false ∧
  negb (String.eqb (mode a2) "manual" || String.eqb (mode a2) "automatic")
  = false ∧
  (automatic_interval a2 <? 1) = false ∧
  a' = a2 ∧
  m = (if String.eqb (mode a2) "manual" then Manual else Automatic).
Proof.
  intros H. unfold validate_and_parse_args in H. cbv zeta in H.
  repeat match type of H with
         | (if ?c then _ else _) = _ => destruct c eqn:?; [discriminate|]
         end.
  match type of H with
  | match ?c with Some _ => _ | None => _ end = _ =>
      destruct c eqn:?; [discriminate|]
  end.
  repeat match type of H with
         | (if ?c then _ else _) = _ => destruct c eqn:?; [discriminate|]
         end.
  injection H as <- <-. cbv zeta. split_and!; done.
Qed.

Lemma count_given_fmap {A B C} (g : A → C) (x : option A) (y : option B) :
  count_given (g <$> x) y = count_given x y.
Proof. by destruct x. Qed.

End ArgsFacts.

Import Engine ArgsHandler ArgsFacts.

(** X18. What the validation of the command line guarantees. Of the
    arguments as they are given, an accepted command line has a
    non-empty single-stream argument (user, room, URL) or a non-empty
    multi-stream argument, never both and never neither. The arguments
    come back as they were given, but for one leading [@] taken off the
    user name and off each name of the list of users. Of the user name,
    the room and the URL that come back at most one is non-empty; a
    non-empty URL, and every URL of a non-empty list, matches the pattern
    of a live URL. With multi-stream arguments, URLs and rooms are not
    both given, and neither is combined with users or a file of users.
    The mode is [manual] or [automatic] and is returned as such, and the
    interval of the automatic mode is at least 1. The [@] is taken off
    before the three single-stream arguments are compared: a user name
    that is just [@] counts as given, is accepted together with a room,
    and is accepted alone, in which case the arguments that come back
    name no target at all. *)
Theorem X18_what_accepted_arguments_satisfy (is_tiktok_live : string → bool) :
  (∀ a a' m,
    validate_and_parse_args is_tiktok_live a = Accepted a' m →
    let single :=
      str_truthy (user a) || str_truthy (room_id a) || str_truthy (url a) in
    let multi :=
      Main.list_truthy (users a) || Main.list_truthy (room_ids a)
      || Main.list_truthy (urls a) || str_truthy (users_file a) in
    xorb single multi = true ∧
    a' = set_users
           (set_user a (if str_truthy (user a)
                        then strip_at <$> user a else user a))
           (if Main.list_truthy (users a)
            then (fun us : list string => strip_at <$> us) <$> users a
            else users a) ∧
    (str_truthy (user a') && str_truthy (room_id a') = false ∧
     str_truthy (user a') && str_truthy (url a') = false ∧
     str_truthy (room_id a') && str_truthy (url a') = false) ∧
    (str_truthy (url a') = true →
     is_tiktok_live (default EmptyString (url a')) = true) ∧
    (Main.list_truthy (urls a') = true →
     Forall (fun u => is_tiktok_live u = true) (default [] (urls a'))) ∧
    (multi = true →
     (count_given (urls a') (room_ids a') ≤ 1)%nat ∧
     (count_given (urls a') (room_ids a') = 0%nat ∨
      count_given (users a') (users_file a') = 0%nat)) ∧
    ((mode a' = "manual" ∧ m = Manual) ∨
     (mode a' = "automatic" ∧ m = Automatic)) ∧
    1 ≤ automatic_interval a') ∧
  (∀ a m,
    user a = Some "@" → str_truthy (url a) = false →
    Main.list_truthy (users a) = false → Main.list_truthy (room_ids a) = false →
    Main.list_truthy (urls a) = false → str_truthy (users_file a) = false →
    (mode a = "manual" ∧ m = Manual) ∨ (mode a = "automatic" ∧ m = Automatic) →
    1 ≤ automatic_interval a →
    validate_and_parse_args is_tiktok_live a
    = Accepted (set_user a (Some EmptyString)) m ∧
    str_truthy (user (set_user a (Some EmptyString))) = false ∧
    (str_truthy (room_id a) = false →
     str_truthy (user (set_user a (Some EmptyString)))
     || str_truthy (room_id (set_user a (Some EmptyString)))
     || str_truthy (url (set_user a (Some EmptyString))) = false)).
Proof.
  split; [|intros a m Hu Hurl H1 H2 H3 H4 Hmode Hint; split_and!; [|done|]].
  2:{ unfold validate_and_parse_args. rewrite Hu, Hurl, H1, H2, H3, H4.
      change (str_truthy (Some "@")) with true.
      cbn -[String.eqb Z.ltb str_truthy].
      change (str_truthy (Some EmptyString)) with false. rewrite ?Hurl.
      cbn -[String.eqb Z.ltb str_truthy]. rewrite ?andb_false_r.
      cbn -[String.eqb Z.ltb str_truthy].
      destruct (Z.ltb_spec (automatic_interval a) 1); [lia|].
      by destruct Hmode as [[-> ->]|[-> ->]]. }
  2:{ intros Hr. simpl. by rewrite Hr, Hurl. }
  intros a a' m H single multi.
  destruct (accepted_inv _ _ _ _ H)
    as (H1 & H2 & H3 & H4 & H5 & H6 & H7 & H8 & H9 & -> & ->).
  clear H. fold single multi in H1, H2, H3, H4, H5, H6, H7, H8, H9 |- *.
  assert (xorb single multi = true) as Hx by (by destruct single, multi).
  split; [done|].
  destruct single eqn:Hs.
  - (* a single target *)
    destruct multi eqn:Hm; [done|]. clear H1 H2 H3 Hx.
    apply orb_false_elim in Hm as [Hm HsF].
    apply orb_false_elim in Hm as [Hm HlL].
    apply orb_false_elim in Hm as [HlU HlR].
    cbn [andb] in *. rewrite HlU.
    set (a1 := if str_truthy (user a)
               then set_user a (strip_at <$> user a) else a) in *.
    assert (a1 = set_user a (if str_truthy (user a)
                             then strip_at <$> user a else user a)) as Ha1.
    { subst a1. destruct (str_truthy (user a)); [done|].
      by rewrite set_user_same. }
    assert (urls a1 = urls a ∧ url a1 = url a ∧ room_id a1 = room_id a ∧
            mode a1 = mode a ∧ automatic_interval a1 = automatic_interval a ∧
            users a1 = users a)
      as (E1 & E2 & E3 & E4 & E5 & E0).
    { subst a1. by destruct (str_truthy (user a)). }
    split_and!.
    + rewrite <- Ha1, <- E0. by rewrite set_users_same.
    + apply orb_false_elim in H4 as [H4 _]. by apply orb_false_elim in H4 as [H4 _].
    + apply orb_false_elim in H4 as [H4 _]. by apply orb_false_elim in H4 as [_ H4].
    + by apply orb_false_elim in H4 as [_ H4].
    + intros Hu. rewrite Hu in H5. simpl in H5. by apply negb_false_iff in H5.
    + rewrite E1, HlL. done.
    + done.
    + apply negb_false_iff, orb_true_iff in H8 as [H8|H8].
      * left. rewrite H8. split; [by apply String.eqb_eq|done].
      * right. split; [by apply String.eqb_eq|].
        apply String.eqb_eq in H8. rewrite H8. done.
    + lia.
  - (* several targets *)
    destruct multi eqn:Hm; [|done]. clear H1 H2 H4 H5 Hx.
    apply orb_false_elim in Hs as [Hs HsL].
    apply orb_false_elim in Hs as [HsU HsR].
    cbn [andb] in *. rewrite HsU in *.
    set (a2 := if Main.list_truthy (users a)
               then set_users a ((fun us : list string => strip_at <$> us) <$> users a)
               else a) in *.
    assert (a2 = set_users a (if Main.list_truthy (users a)
                              then (fun us : list string => strip_at <$> us) <$> users a
                              else users a)) as Ha2.
    { subst a2. destruct (Main.list_truthy (users a)); [done|].
      by rewrite set_users_same. }
    assert (urls a2 = urls a ∧ url a2 = url a ∧ room_id a2 = room_id a ∧
            user a2 = user a ∧ room_ids a2 = room_ids a ∧
            users_file a2 = users_file a ∧
            count_given (users a2) (users_file a) = count_given (users a) (users_file a))
      as (E1 & E2 & E3 & E4 & E5 & E6 & E7).
    { subst a2. destruct (Main.list_truthy (users a)); [|done].
      split_and!; try done. simpl. apply count_given_fmap. }
    split_and!.
    + rewrite set_user_same. by rewrite <- Ha2.
    + by rewrite E4, HsU.
    + by rewrite E4, HsU.
    + by rewrite E3, HsR.
    + by rewrite E2, HsL.
    + intros Hl. rewrite Hl in H6. by apply first_bad_url_None.
    + intros _. rewrite E1, E5, E6, E7.
      apply orb_false_elim in H3 as [H3a H3b].
      apply Nat.ltb_ge in H3a. split; [done|].
      apply andb_false_iff in H3b as [H3b|H3b]; apply Nat.ltb_ge in H3b; lia.
    + apply negb_false_iff, orb_true_iff in H8 as [H8|H8].
      * left. rewrite H8. split; [by apply String.eqb_eq|done].
      * right. split; [by apply String.eqb_eq|].
        apply String.eqb_eq in H8. rewrite H8. done.
    + lia.
Qed.

Lemma X18_what_accepted_arguments_satisfy_witness :
  1 ≤ automatic_interval (set_user Examples.user_with_at (Some "alice")).
Proof.
  destruct (proj1 (X18_what_accepted_arguments_satisfy (fun _ => true))
              Examples.user_with_at
              (set_user Examples.user_with_at (Some "alice")) Automatic eq_refl)
    as (_ & _ & _ & _ & _ & _ & _ & H).
  exact H.
Defined.
